(** * MOQT publisher and subscriber workers

    A shallow embedding of [src-encoder/moq_sender.js] (the publisher worker)
    and of the subscriber worker (the downloader), and the properties of
    their specification that concern the object dispatcher, the send-order
    computation, the subscription loop, the handshake and the worker state
    machine.

    Both workers are single-threaded JavaScript: a function runs without
    interruption up to its next [await].  The embedding therefore cuts the
    asynchronous functions at their [await]s and makes every resumption an
    explicit input of a step function over the module-level state. *)

From Stdlib Require Import ZArith NArith Lia Bool List String Sorted.
From Stdlib Require Import Floats.SpecFloat.
From stdpp Require Import gmap strings list fin_maps.

Local Open Scope string_scope.

(** ** JavaScript numbers

    A JavaScript [Number] is an IEEE 754 binary64 value.  The operations the
    workers use are taken from the Standard Library's executable
    specification of binary floating point, at precision 53 and maximal
    exponent 1024, with rounding to nearest, ties to even. *)
Module JS.

Definition prec : Z := 53.
Definition emax : Z := 1024.

Abbreviation Number := spec_float.

(** The number denoted by an integer literal or an integer-valued field. *)
Definition of_Z (z : Z) : Number := binary_normalize prec emax z 0 false.

(** [a + b], [a / b] and [a < b]. *)
Definition add (a b : Number) : Number := SFadd prec emax a b.
Definition div (a b : Number) : Number := SFdiv prec emax a b.
Definition ltb (a b : Number) : bool := SFltb a b.

(** [Math.floor]: a value whose exponent is not negative is an integer
    already; otherwise the mantissa is divided, rounding down. *)
Definition floor (x : Number) : Number :=
  match x with
  | S754_finite s m e =>
      if (0 <=? e)%Z then x
      else of_Z (cond_Zopp s (Zpos m) / 2 ^ (- e))%Z
  | _ => x
  end.

(** The integer a number denotes, when it denotes one. *)
Definition to_Z (x : Number) : option Z :=
  match x with
  | S754_zero _ => Some 0%Z
  | S754_finite s m e =>
      if (0 <=? e)%Z then Some (cond_Zopp s (Zpos m) * 2 ^ e)%Z
      else if (Zpos m mod 2 ^ (- e) =? 0)%Z
           then Some (cond_Zopp s (Zpos m) / 2 ^ (- e))%Z
           else None
  | _ => None
  end.

(** [Number.MAX_SAFE_INTEGER], that is 2^53 - 1. *)
Definition MAX_SAFE : Z := (2 ^ 53 - 1)%Z.
Definition MAX_SAFE_INTEGER : Number := of_Z MAX_SAFE.

(** The largest unsigned 64-bit integer; no worker mentions it, the
    specification of the send order does. *)
Definition U64_MAX : Z := (2 ^ 64 - 1)%Z.

End JS.

(** ** Data shared by the two workers *)

(** Modelled from the spec: [StateEnum] lives in [utils.js], which is not
    among the sources; the session states are
    [Created -> Instantiated -> Running -> Stopped]. *)
Inductive StateEnum := Created | Instantiated | Running | Stopped.

Definition StateEnum_eqb (a b : StateEnum) : bool :=
  match a, b with
  | Created, Created | Instantiated, Instantiated
  | Running, Running | Stopped, Stopped => true
  | _, _ => false
  end.

(** Modelled from the spec: the role parameter values of [moqt.js], which
    is not among the sources ([PUBLISHER=1, SUBSCRIBER=2, BOTH=3]). *)
Definition MOQ_PARAMETER_ROLE_PUBLISHER : Z := 1.
Definition MOQ_PARAMETER_ROLE_SUBSCRIBER : Z := 2.
Definition MOQ_PARAMETER_ROLE_BOTH : Z := 3.

(** [a !== b] on a value that may be [undefined] ([None]) and a constant. *)
Definition role_differs (role : option Z) (c : Z) : bool :=
  match role with
  | Some r => negb (r =? c)%Z
  | None => true
  end.

(** The names that every plain object inherits from [Object.prototype].
    The operator [in] follows the prototype chain: [key in obj] holds for
    these names whatever [obj] has of its own, and [obj[key]] is then a
    built-in function, or [Object.prototype] itself for "__proto__". *)
Definition object_prototype_names : list string :=
  ["constructor"; "__defineGetter__"; "__defineSetter__"; "hasOwnProperty";
   "__lookupGetter__"; "__lookupSetter__"; "isPrototypeOf";
   "propertyIsEnumerable"; "toString"; "valueOf"; "__proto__";
   "toLocaleString"].

Definition inherited (key : string) : bool :=
  bool_decide (key ∈ object_prototype_names).

(** One entry of [moqTracks].  [numSubscribers] is absent until the first
    accepted subscription.  The configuration check of both workers refuses
    tracks without [namespace], [name] or [authInfo]; here these fields are
    always present. *)
Module Track.
Record Data := {
  id : N;
  namespace : string;
  name : string;
  authInfo : string;
  isHipri : bool;
  maxInFlightRequests : N;
  numSubscribers : option N
}.

Definition set_numSubscribers (n : option N) (t : Data) : Data :=
  {| id := id t; namespace := namespace t; name := name t;
     authInfo := authInfo t; isHipri := isHipri t;
     maxInFlightRequests := maxInFlightRequests t; numSubscribers := n |}.

Definition set_id (i : N) (t : Data) : Data :=
  {| id := i; namespace := namespace t; name := name t;
     authInfo := authInfo t; isHipri := isHipri t;
     maxInFlightRequests := maxInFlightRequests t;
     numSubscribers := numSubscribers t |}.
End Track.

(** The [tracks] object, as [Object.entries] enumerates it: track keys
    ("audio", "video", "data") in insertion order. *)
Abbreviation Tracks := (list (string * Track.Data)).

(** [tracks[key]]; [None] is [undefined], so [key in tracks] is [is_Some]. *)
Fixpoint tracks_get (tracks : Tracks) (key : string) : option Track.Data :=
  match tracks with
  | [] => None
  | (k, t) :: rest => if String.eqb k key then Some t else tracks_get rest key
  end.

(** Messages written on the control stream by either worker. *)
Inductive ControlMsg :=
| SETUP (role : Z)
| ANNOUNCE (namespace authInfo : string)
| SUBSCRIBE (namespace trackName authInfo : string)
| SUBSCRIBE_RESPONSE (namespace trackName : string) (trackId expires : N).

(** What [sendMessageToMain] and [self.postMessage] hand to the host.  The
    wall-clock stamps are left out; a text keeps its wording and the
    strings it interpolates, not the numbers and objects. *)
Inductive Event :=
| Info (text : string)
| Debug (text : string)
| Error (text : string)
| DroppedChunk (seqId : option JS.Number) (msg : string)
| SendStats (inFlightReq : list (string * nat)).

(** The errors thrown while a session is set up. *)
Inductive SessionError :=
| RoleNotSupported (role : option Z)
| UnexpectedNamespace (expected got : string)
| UnexpectedTrack (expNamespace expName gotNamespace gotName : string).

(** Outcome of a session set-up: it completes, it throws, or it stays
    parked at an [await] on the control stream that nothing answers. *)
Inductive SessionResult :=
| SessionReady
| SessionThrows (err : SessionError)
| SessionWaits.

(** The order in which a session passes through its states. *)
Definition state_rank (s : StateEnum) : nat :=
  match s with
  | Created => 0
  | Instantiated => 1
  | Running => 2
  | Stopped => 3
  end.

(** ** The configuration check

    [checkTrackData] is the same function in both workers.  It is the only
    code that sees a track before its fields are known to be there, so it
    is given here over track objects whose [namespace], [name] and
    [authInfo] may be missing ([None]); the workers below start from the
    tracks that pass it. *)
Module TrackConfig.
Record Data := {
  namespace : option string;
  name : option string;
  authInfo : option string
}.

(** ['namespace' in track && 'name' in track && 'authInfo' in track]. *)
Definition well_formed (track : Data) : bool :=
  bool_decide (is_Some (namespace track))
  && bool_decide (is_Some (name track))
  && bool_decide (is_Some (authInfo track)).

(** The [for] loop of [checkTrackData]. *)
Fixpoint check_entries (entries : list (string * Data)) : string :=
  match entries with
  | [] => ""
  | (_, track) :: rest =>
      if negb (well_formed track)
      then "Track malformed, needs to contain namespace, name, and authInfo"
      else check_entries rest
  end.

(** [checkTrackData]. *)
Definition checkTrackData (tracks : list (string * Data)) : string :=
  if (length tracks <=? 0)%nat
  then "Number of Track Ids to announce needs to be > 0"
  else check_entries tracks.
End TrackConfig.

(** ** The publisher worker, [moq_sender.js] *)
Module Sender.

(** Modelled from the spec: the packagers ([loc_packager.js],
    [raw_packager.js]) are not among the sources.  [SetData] stores its
    arguments, [GetData] returns them together with the [pId] of the
    chunk, and [GetDataStr] renders them. *)
Record Packet := {
  mediaType : string;
  chunkType : string;
  seqId : JS.Number;
  pId : string;
  dataStr : string
}.

(** [e.data.chunk] of a chunk message: its [type] ("key" or "delta") and
    what the packager will derive from it. *)
Record Chunk := {
  chunk_type : string;
  chunk_pId : string;
  chunk_str : string
}.

(** The [chunkData] object the listener builds. *)
Record ChunkData := {
  cd_mediaType : string;
  cd_seqId : JS.Number;
  cd_chunk : Chunk
}.

(** Values of [moqPublisherState].  Both counters start at 0 and grow by
    one per object; JavaScript counts exactly up to 2^53, which no run
    reaches, so they are natural numbers here. *)
Record TrackState := {
  currentGroupSeq : N;
  currentObjectSeq : N
}.

(** The promise returned by [uniWriter.close()], tagged with [p.id];
    [stream] tells apart the promises of different streams. *)
Record Promise := {
  p_id : string;
  stream : nat
}.

(** One call of [moqSendObjectToWriter]. *)
Record MoqObject := {
  trackId : N;
  groupSeq : N;
  objSeq : N;
  sendOrder : JS.Number;
  payload : Packet
}.

(** A call of [createSendPromise] parked at
    [await moqt.wt.createUnidirectionalStream]. *)
Record Suspended := {
  s_packet : Packet;
  s_trackId : N;
  s_sendOrder : JS.Number
}.

(** What a call of [sendChunkToTransport] amounts to when control comes
    back to the listener. *)
Inductive SendResult :=
| Dropped (message : string)
| Thrown (message : string)
| Awaiting (s : Suspended).

(** The module-level bindings, what is suspended, and what the worker has
    emitted so far (oldest first): [wt] tells whether [moqt.wt] is set,
    [awaiting] holds the calls of [createSendPromise] whose stream is not
    open yet, [subscriptionLoop] tells whether the subscription loop waits
    for a request, [exiting] whether the 'stop' handler waits for the
    pending closes, [streams] counts the streams opened, [toMain] are the
    events posted to the host, [objects] the objects written and [control]
    the messages written on the control stream. *)
Record Engine := {
  workerState : StateEnum;
  isSendingStats : bool;
  tracks : Tracks;
  moqPublisherState : gmap N TrackState;
  inFlightRequests : gmap string (gmap string Promise);
  wt : bool;
  awaiting : list Suspended;
  subscriptionLoop : bool;
  exiting : bool;
  streams : nat;
  toMain : list Event;
  objects : list MoqObject;
  control : list ControlMsg
}.

(** The bindings as the module initialises them. *)
Definition init : Engine :=
  {| workerState := Created; isSendingStats := true; tracks := [];
     moqPublisherState := ∅; inFlightRequests := ∅; wt := false;
     awaiting := []; subscriptionLoop := false; exiting := false;
     streams := 0;
     toMain := []; objects := []; control := [] |}.

Definition set_workerState (s : StateEnum) (σ : Engine) : Engine :=
  {| workerState := s; isSendingStats := isSendingStats σ;
     tracks := tracks σ; moqPublisherState := moqPublisherState σ;
     inFlightRequests := inFlightRequests σ; wt := wt σ;
     awaiting := awaiting σ; subscriptionLoop := subscriptionLoop σ;
     exiting := exiting σ;
     streams := streams σ; toMain := toMain σ; objects := objects σ;
     control := control σ |}.

Definition set_isSendingStats (b : bool) (σ : Engine) : Engine :=
  {| workerState := workerState σ; isSendingStats := b;
     tracks := tracks σ; moqPublisherState := moqPublisherState σ;
     inFlightRequests := inFlightRequests σ; wt := wt σ;
     awaiting := awaiting σ; subscriptionLoop := subscriptionLoop σ;
     exiting := exiting σ;
     streams := streams σ; toMain := toMain σ; objects := objects σ;
     control := control σ |}.

Definition set_tracks (t : Tracks) (σ : Engine) : Engine :=
  {| workerState := workerState σ; isSendingStats := isSendingStats σ;
     tracks := t; moqPublisherState := moqPublisherState σ;
     inFlightRequests := inFlightRequests σ; wt := wt σ;
     awaiting := awaiting σ; subscriptionLoop := subscriptionLoop σ;
     exiting := exiting σ;
     streams := streams σ; toMain := toMain σ; objects := objects σ;
     control := control σ |}.

Definition set_moqPublisherState (m : gmap N TrackState) (σ : Engine) : Engine :=
  {| workerState := workerState σ; isSendingStats := isSendingStats σ;
     tracks := tracks σ; moqPublisherState := m;
     inFlightRequests := inFlightRequests σ; wt := wt σ;
     awaiting := awaiting σ; subscriptionLoop := subscriptionLoop σ;
     exiting := exiting σ;
     streams := streams σ; toMain := toMain σ; objects := objects σ;
     control := control σ |}.

Definition set_inFlightRequests (m : gmap string (gmap string Promise))
    (σ : Engine) : Engine :=
  {| workerState := workerState σ; isSendingStats := isSendingStats σ;
     tracks := tracks σ; moqPublisherState := moqPublisherState σ;
     inFlightRequests := m; wt := wt σ;
     awaiting := awaiting σ; subscriptionLoop := subscriptionLoop σ;
     exiting := exiting σ;
     streams := streams σ; toMain := toMain σ; objects := objects σ;
     control := control σ |}.

Definition set_wt (b : bool) (σ : Engine) : Engine :=
  {| workerState := workerState σ; isSendingStats := isSendingStats σ;
     tracks := tracks σ; moqPublisherState := moqPublisherState σ;
     inFlightRequests := inFlightRequests σ; wt := b;
     awaiting := awaiting σ; subscriptionLoop := subscriptionLoop σ;
     exiting := exiting σ;
     streams := streams σ; toMain := toMain σ; objects := objects σ;
     control := control σ |}.

Definition set_awaiting (l : list Suspended) (σ : Engine) : Engine :=
  {| workerState := workerState σ; isSendingStats := isSendingStats σ;
     tracks := tracks σ; moqPublisherState := moqPublisherState σ;
     inFlightRequests := inFlightRequests σ; wt := wt σ;
     awaiting := l; subscriptionLoop := subscriptionLoop σ;
     exiting := exiting σ;
     streams := streams σ; toMain := toMain σ; objects := objects σ;
     control := control σ |}.

Definition set_subscriptionLoop (b : bool) (σ : Engine) : Engine :=
  {| workerState := workerState σ; isSendingStats := isSendingStats σ;
     tracks := tracks σ; moqPublisherState := moqPublisherState σ;
     inFlightRequests := inFlightRequests σ; wt := wt σ;
     awaiting := awaiting σ; subscriptionLoop := b;
     exiting := exiting σ;
     streams := streams σ; toMain := toMain σ; objects := objects σ;
     control := control σ |}.

Definition set_exiting (b : bool) (σ : Engine) : Engine :=
  {| workerState := workerState σ; isSendingStats := isSendingStats σ;
     tracks := tracks σ; moqPublisherState := moqPublisherState σ;
     inFlightRequests := inFlightRequests σ; wt := wt σ;
     awaiting := awaiting σ; subscriptionLoop := subscriptionLoop σ;
     exiting := b;
     streams := streams σ; toMain := toMain σ; objects := objects σ;
     control := control σ |}.

Definition set_streams (n : nat) (σ : Engine) : Engine :=
  {| workerState := workerState σ; isSendingStats := isSendingStats σ;
     tracks := tracks σ; moqPublisherState := moqPublisherState σ;
     inFlightRequests := inFlightRequests σ; wt := wt σ;
     awaiting := awaiting σ; subscriptionLoop := subscriptionLoop σ;
     exiting := exiting σ;
     streams := n; toMain := toMain σ; objects := objects σ;
     control := control σ |}.

(** [sendMessageToMain] and [self.postMessage]. *)
Definition emit (ev : Event) (σ : Engine) : Engine :=
  {| workerState := workerState σ; isSendingStats := isSendingStats σ;
     tracks := tracks σ; moqPublisherState := moqPublisherState σ;
     inFlightRequests := inFlightRequests σ; wt := wt σ;
     awaiting := awaiting σ; subscriptionLoop := subscriptionLoop σ;
     exiting := exiting σ;
     streams := streams σ; toMain := toMain σ ++ [ev];
     objects := objects σ; control := control σ |}.

(** [moqSendObjectToWriter]. *)
Definition write_object (o : MoqObject) (σ : Engine) : Engine :=
  {| workerState := workerState σ; isSendingStats := isSendingStats σ;
     tracks := tracks σ; moqPublisherState := moqPublisherState σ;
     inFlightRequests := inFlightRequests σ; wt := wt σ;
     awaiting := awaiting σ; subscriptionLoop := subscriptionLoop σ;
     exiting := exiting σ;
     streams := streams σ; toMain := toMain σ;
     objects := objects σ ++ [o]; control := control σ |}.

(** A write on the control stream. *)
Definition write_control (ms : list ControlMsg) (σ : Engine) : Engine :=
  {| workerState := workerState σ; isSendingStats := isSendingStats σ;
     tracks := tracks σ; moqPublisherState := moqPublisherState σ;
     inFlightRequests := inFlightRequests σ; wt := wt σ;
     awaiting := awaiting σ; subscriptionLoop := subscriptionLoop σ;
     exiting := exiting σ;
     streams := streams σ; toMain := toMain σ;
     objects := objects σ; control := control σ ++ ms |}.


(** *** Track helpers *)

(** [createTrackState]. *)
Definition createTrackState : TrackState :=
  {| currentGroupSeq := 0; currentObjectSeq := 0 |}.

(** [getTrack]: the first entry with that namespace and name.  The caller
    mutates the object it gets, so the position of the entry in [tracks]
    comes with it. *)
Fixpoint getTrack (tracks : Tracks) (namespace trackName : string)
    : option (nat * Track.Data) :=
  match tracks with
  | [] => None
  | (_, trackData) :: rest =>
      if String.eqb (Track.namespace trackData) namespace
         && String.eqb (Track.name trackData) trackName
      then Some (0, trackData)
      else prod_map S id <$> getTrack rest namespace trackName
  end.

(** [checkTrackData]. *)
Definition checkTrackData (tracks : Tracks) : string :=
  if (length tracks <=? 0)%nat
  then "Number of Track Ids to announce needs to be > 0"
  else "".

(** [initInflightReqData]: an empty object per track key. *)
Definition initInflightReqData (tracks : Tracks)
    : gmap string (gmap string Promise) :=
  foldl (λ ret entry, <[entry.1 := ∅]> ret) ∅ tracks.

(** [moqCalculateSendOrder]; [None] is the [TypeError] of reading [isHipri]
    from a track that does not exist. *)
Definition moqCalculateSendOrder (tracks : Tracks) (packet : Packet)
    : option JS.Number :=
  let ret := seqId packet in
  if JS.ltb ret (JS.of_Z 0) then Some JS.MAX_SAFE_INTEGER
  else
    match tracks_get tracks (mediaType packet) with
    | None => None
    | Some track =>
        if Track.isHipri track
        then Some (JS.floor
                     (JS.add ret (JS.div JS.MAX_SAFE_INTEGER (JS.of_Z 2))))
        else Some ret
    end.

(** *** In-flight requests *)

(** [Object.keys(inFlightRequests).length] of one track's object. *)
Definition inflight_length (requests : gmap string Promise) : nat :=
  size requests.

(** [addToInflight], called with the key of a configured track; [None]
    is the [TypeError] of [in] applied to a track key that
    [inFlightRequests] does not have.  [p.id in obj] holds for the ids
    stored in [obj] and for the names [obj] inherits. *)
Definition addToInflight (mediaType : string) (p : Promise) (σ : Engine)
    : option Engine :=
  match inFlightRequests σ !! mediaType with
  | None => None
  | Some requests =>
      if bool_decide (is_Some (requests !! p_id p)) || inherited (p_id p)
      then
        Some (emit (Error "id already exists in inflight, this should never happen") σ)
      else
        Some (set_inFlightRequests
                (<[mediaType := <[p_id p := p]> requests]>
                   (inFlightRequests σ)) σ)
  end.

(** [removeFromInflight], run from [p.finally]. *)
Definition removeFromInflight (mediaType id : string) (σ : Engine) : Engine :=
  match inFlightRequests σ !! mediaType with
  | None => σ
  | Some requests =>
      match requests !! id with
      | Some _ =>
          set_inFlightRequests
            (<[mediaType := delete id requests]> (inFlightRequests σ)) σ
      | None => σ
      end
  end.

(** [Object.values] of one track's object.  The values come in the order
    of their keys, where JavaScript has the order of insertion; the
    statements about them speak of the elements and of how often they
    occur. *)
Definition object_values (requests : gmap string Promise) : list Promise :=
  (map_to_list requests).*2.

(** [Object.values(inFlightRequests[trackType])]: a [TypeError] ([None])
    when [inFlightRequests] has no such key, unless the key is an
    inherited name, whose value is a built-in without enumerable
    properties. *)
Definition track_values (requests : gmap string (gmap string Promise))
    (trackType : string) : option (list Promise) :=
  match requests !! trackType with
  | Some obj => Some (object_values obj)
  | None => if inherited trackType then Some [] else None
  end.

(** [getAllInflightRequestsArray]: [Array.prototype.concat] appends each of
    its arguments to a copy of the receiver.  [None] is the [TypeError]
    of [Object.values] for a track key that [inFlightRequests] does not
    have. *)
Definition getAllInflightRequestsArray (σ : Engine) : option (list Promise) :=
  foldl (λ ret entry,
           match ret, track_values (inFlightRequests σ) entry.1 with
           | Some ret, Some values => Some (ret ++ (ret ++ values))%list
           | _, _ => None
           end)
        (Some []) (tracks σ).

(** [getInflightRequestsReport]. *)
Definition getInflightRequestsReport (σ : Engine) : list (string * nat) :=
  (λ entry, (entry.1,
             inflight_length (default ∅ (inFlightRequests σ !! entry.1))))
    <$> tracks σ.

(** *** The dispatcher *)

(** [createRequest]: the RAW packager for the "data" track, always with
    chunk type "key"; the LOC packager otherwise, with the type of the
    encoded chunk. *)
Definition createRequest_packet (chunkData : ChunkData) : Packet :=
  if String.eqb (cd_mediaType chunkData) "data"
  then {| mediaType := cd_mediaType chunkData; chunkType := "key";
          seqId := cd_seqId chunkData;
          pId := chunk_pId (cd_chunk chunkData);
          dataStr := chunk_str (cd_chunk chunkData) |}
  else {| mediaType := cd_mediaType chunkData;
          chunkType := chunk_type (cd_chunk chunkData);
          seqId := cd_seqId chunkData;
          pId := chunk_pId (cd_chunk chunkData);
          dataStr := chunk_str (cd_chunk chunkData) |}.

(** [createSendPromise] up to [await createUnidirectionalStream].  The
    listener passes on only the types that [tracks] has as keys of its
    own, so [mediaType in tracks] is the lookup of such a key here. *)
Definition createSendPromise (packet : Packet) (σ : Engine)
    : Engine * SendResult :=
  if negb (wt σ)
  then (σ, Thrown ("request not send because transport is NOT open. For "
                     ++ mediaType packet))
  else
    match tracks_get (tracks σ) (mediaType packet) with
    | None =>
        (σ, Thrown ("OBJECT mediaType NOT supported (no track found), received "
                      ++ mediaType packet))
    | Some track =>
        let trackId := Track.id track in
        let known := bool_decide (is_Some (moqPublisherState σ !! trackId)) in
        if negb known && String.eqb (chunkType packet) "delta"
        then (σ, Dropped ("Dropped chunk because first object can not be delta, data: "
                            ++ dataStr packet))
        else
          let σ1 :=
            if known then σ
            else set_moqPublisherState
                   (<[trackId := createTrackState]> (moqPublisherState σ)) σ in
          match moqCalculateSendOrder (tracks σ1) packet with
          | None => (σ1, Thrown "TypeError")
          | Some sendOrder =>
              let call := {| s_packet := packet; s_trackId := trackId;
                             s_sendOrder := sendOrder |} in
              (set_awaiting (awaiting σ1 ++ [call])%list σ1, Awaiting call)
          end
    end.

(** [createRequest]. *)
Definition createRequest (chunkData : ChunkData) (σ : Engine)
    : Engine * SendResult :=
  createSendPromise (createRequest_packet chunkData) σ.

(** [sendChunkToTransport]; [chunkData] is [None] for [null]. *)
Definition sendChunkToTransport (chunkData : option ChunkData)
    (inFlightRequests : gmap string Promise) (maxFlightRequests : N)
    (σ : Engine) : Engine * SendResult :=
  match chunkData with
  | None => (σ, Dropped "chunkData is null")
  | Some chunkData =>
      if (maxFlightRequests <=? N.of_nat (inflight_length inFlightRequests))%N
      then (σ, Dropped "too many inflight requests")
      else createRequest chunkData σ
  end.

(** The group and object sequence numbers of the next object of a track:
    a chunk that is not a delta opens a new group. *)
Definition next_object_state (packet : Packet) (st : TrackState) : TrackState :=
  if negb (String.eqb (chunkType packet) "delta")
  then {| currentGroupSeq := currentGroupSeq st + 1; currentObjectSeq := 0 |}
  else st.

(** What the [catch] of the listener reports when a dispatch rejects. *)
Definition report_rejected (seqId : JS.Number) (message : string) (σ : Engine)
    : Engine :=
  emit (Error ("error sending chunk. Err:  " ++ message))
       (emit (DroppedChunk (Some seqId) message) σ).

(** [createSendPromise] from the moment the stream is open: a chunk that
    is not a delta moves the track to its next group, the object is
    written with the group and object sequence of the track, the object
    sequence goes up by one, and the close of the stream is registered. *)
Definition createSendPromise_resume (call : Suspended) (σ : Engine) : Engine :=
  let packet := s_packet call in
  let trackId := s_trackId call in
  match moqPublisherState σ !! trackId with
  | None => report_rejected (seqId packet) "TypeError" σ
  | Some st =>
      let st1 := next_object_state packet st in
      let σ1 := set_moqPublisherState
                  (<[trackId := st1]> (moqPublisherState σ)) σ in
      let groupSeq := currentGroupSeq st1 in
      let objSeq := currentObjectSeq st1 in
      let σ2 := emit (Debug ("Sending MOQT. Data: " ++ dataStr packet)) σ1 in
      let σ3 := write_object {| trackId := trackId; groupSeq := groupSeq;
                                objSeq := objSeq;
                                sendOrder := s_sendOrder call;
                                payload := packet |} σ2 in
      let σ4 := set_moqPublisherState
                  (<[trackId := {| currentGroupSeq := groupSeq;
                                   currentObjectSeq := objSeq + 1 |}]>
                     (moqPublisherState σ3)) σ3 in
      let p := {| p_id := pId packet; stream := streams σ4 |} in
      let σ5 := set_streams (S (streams σ4)) σ4 in
      match addToInflight (mediaType packet) p σ5 with
      | None => report_rejected (seqId packet) "TypeError" σ5
      | Some σ6 => σ6
      end
  end.

(** *** The subscription loop *)

(** A parsed SUBSCRIBE_REQUEST; [authInfo] is [None] when the request has
    no such parameter. *)
Record Subscribe := {
  sub_namespace : string;
  sub_trackName : string;
  sub_authInfo : option string
}.

(** [track.authInfo !== subscribe.parameters.authInfo]. *)
Definition authInfo_differs (track : Track.Data) (subscribe : Subscribe) : bool :=
  match sub_authInfo subscribe with
  | Some a => negb (String.eqb (Track.authInfo track) a)
  | None => true
  end.

(** The increment of [numSubscribers], or its creation. *)
Definition add_subscriber (track : Track.Data) : Track.Data :=
  Track.set_numSubscribers
    (match Track.numSubscribers track with
     | Some n => Some (n + 1)%N
     | None => Some 1%N
     end) track.

(** One turn of the [while] of [startLoopSubscriptionsLoop], from the
    moment [moqParseSubscribe] has returned. *)
Definition subscriptionLoop_body (subscribe : Subscribe) (σ : Engine) : Engine :=
  let namespace := sub_namespace subscribe in
  let trackName := sub_trackName subscribe in
  match getTrack (tracks σ) namespace trackName with
  | None =>
      emit (Error ("Invalid subscribe received " ++ namespace ++ "/"
                     ++ trackName ++ " is NOT in tracks")) σ
  | Some (i, track) =>
      if authInfo_differs track subscribe
      then emit (Error ("Invalid subscribe authInfo "
                          ++ default "undefined" (sub_authInfo subscribe)
                          ++ " does not match with ")) σ
      else
        let σ1 := set_tracks (alter (prod_map id add_subscriber) i (tracks σ)) σ in
        let σ2 := emit (Info ("New subscriber for track " ++ namespace ++ "/"
                                ++ trackName ++ ". AuthInfo MATCHED!")) σ1 in
        write_control
          [SUBSCRIBE_RESPONSE namespace trackName (Track.id track) 0] σ2
  end.

(** *** The publisher session *)

(** The ANNOUNCE loop of [moqCreatePublisherSession]: [announced] is
    [announcedNamespaces], [replies] the namespaces of the ANNOUNCE_OK
    messages the control stream will deliver.  The result is what was
    written, what was reported, and how the loop ended. *)
Fixpoint announce_loop (entries : Tracks) (announced : list string)
    (replies : list string) : list ControlMsg * list Event * SessionResult :=
  match entries with
  | [] => ([], [], SessionReady)
  | (trackType, trackData) :: rest =>
      let namespace := Track.namespace trackData in
      if existsb (String.eqb namespace) announced
      then announce_loop rest announced replies
      else
        let sent := ANNOUNCE namespace (Track.authInfo trackData) in
        match replies with
        | [] => ([sent], [], SessionWaits)
        | reply :: replies' =>
            let ev := Info ("Received ANNOUNCE response for " ++ trackType
                              ++ "-" ++ namespace) in
            if negb (String.eqb namespace reply)
            then ([sent], [ev], SessionThrows (UnexpectedNamespace namespace reply))
            else
              let '(ms, evs, res) :=
                announce_loop rest (announced ++ [namespace])%list replies' in
              (sent :: ms, ev :: evs, res)
        end
  end.

(** [moqCreatePublisherSession]: [role] is the role parameter of the
    SETUP_OK that answers the SETUP. *)
Definition moqCreatePublisherSession (tracks : Tracks) (role : option Z)
    (replies : list string) : list ControlMsg * list Event * SessionResult :=
  let sent := SETUP MOQ_PARAMETER_ROLE_PUBLISHER in
  let ev := Info "Received SETUP response" in
  if role_differs role MOQ_PARAMETER_ROLE_SUBSCRIBER
     && role_differs role MOQ_PARAMETER_ROLE_BOTH
  then ([sent], [ev], SessionThrows (RoleNotSupported role))
  else
    let '(ms, evs, res) := announce_loop tracks [] replies in
    (sent :: ms, ev :: evs, res).

(** *** The message listener *)

Record MuxerSenderConfig := {
  urlHostPort : option string;
  cfg_isSendingStats : option bool;
  moqTracks : option Tracks
}.

(** [e.data]. *)
Record MessageData := {
  type : string;
  msg_seqId : option JS.Number;
  chunk : Chunk;
  muxerSenderConfig : MuxerSenderConfig
}.

(** What the environment answers to the [await]s of an initialisation:
    whether the URL parses and the certificate fingerprint is fetched,
    whether the transport becomes ready and the control stream is created,
    and what the control stream delivers. *)
Record IniEnv := {
  fingerprint_ok : bool;
  transport_ready : bool;
  setup_role : option Z;
  announce_replies : list string
}.

Definition emit_all (evs : list Event) (σ : Engine) : Engine :=
  foldl (λ σ ev, emit ev σ) σ evs.

(** The 'muxersendini' branch.  Its [await]s are answered by [env]; the
    branch is taken as one step, that is, as an initialisation during
    which the worker handles nothing else. *)
Definition listener_ini (cfg : MuxerSenderConfig) (env : IniEnv) (σ : Engine)
    : Engine :=
  if negb (StateEnum_eqb (workerState σ) Instantiated)
  then emit (Error "received ini message in wrong state. State: ") σ
  else
    let urlHostPortEp := default "" (urlHostPort cfg) in
    let σ1 := match cfg_isSendingStats cfg with
              | Some b => set_isSendingStats b σ
              | None => σ
              end in
    let σ2 := match moqTracks cfg with
              | Some t => set_tracks t σ1
              | None => σ1
              end in
    if String.eqb urlHostPortEp "" then emit (Error "Empty host port") σ2
    else
      let errTrackStr := checkTrackData (tracks σ2) in
      if negb (String.eqb errTrackStr "") then emit (Error errTrackStr) σ2
      else
        let σ3 := set_wt false (set_moqPublisherState ∅ σ2) in
        if negb (fingerprint_ok env)
        then emit (Error "Initializing MOQ. Err: ") σ3
        else
          let σ4 := set_wt true σ3 in
          if negb (transport_ready env)
          then emit (Error "Initializing MOQ. Err: ") σ4
          else
            let '(ms, evs, res) :=
              moqCreatePublisherSession (tracks σ4) (setup_role env)
                (announce_replies env) in
            let σ5 := emit_all evs (write_control ms σ4) in
            match res with
            | SessionThrows _ => emit (Error "Initializing MOQ. Err: ") σ5
            | SessionWaits => σ5
            | SessionReady =>
                let σ6 := set_inFlightRequests
                            (initInflightReqData (tracks σ5)) σ5 in
                let σ7 := emit (Info "MOQ Initialized, waiting for subscriptions") σ6 in
                let σ8 := set_workerState Running σ7 in
                set_subscriptionLoop true
                  (emit (Info "Started subscription loop") σ8)
            end.

(** The chunk branch, up to the return of the listener and the
    micro-tasks that follow it at once. *)
Definition listener_chunk (e : MessageData) (σ : Engine) : Engine :=
  if negb (StateEnum_eqb (workerState σ) Running)
  then emit (DroppedChunk (msg_seqId e)
               "Dropped chunk because transport is NOT open yet") σ
  else
    match tracks_get (tracks σ) (type e) with
    | None =>
        (* [type in tracks] holds for an inherited name too, and
           [tracks[type]] is then a built-in without [numSubscribers] *)
        if inherited (type e)
        then emit (DroppedChunk (msg_seqId e)
                     ("Dropped chunk because there is NO subscribers for track "
                        ++ type e)) σ
        else emit (Error ("Invalid message received " ++ type e
                            ++ " is NOT in tracks")) σ
    | Some track =>
        if match Track.numSubscribers track with
           | None => true
           | Some n => (n <=? 0)%N
           end
        then emit (DroppedChunk (msg_seqId e)
                     ("Dropped chunk because there is NO subscribers for track "
                        ++ type e)) σ
        else
          let seqId := default (JS.of_Z 0) (msg_seqId e) in
          let chunkData := {| cd_mediaType := type e; cd_seqId := seqId;
                              cd_chunk := chunk e |} in
          let '(σ1, res) :=
            match inFlightRequests σ !! type e with
            | None => (σ, Thrown "TypeError")
            | Some requests =>
                sendChunkToTransport (Some chunkData) requests
                  (Track.maxInFlightRequests track) σ
            end in
          let σ2 := if isSendingStats σ1
                    then emit (SendStats (getInflightRequestsReport σ1)) σ1
                    else σ1 in
          match res with
          | Dropped message => emit (DroppedChunk (Some seqId) message) σ2
          | Thrown message => report_rejected seqId message σ2
          | Awaiting _ => σ2
          end
    end.

(** The 'stop' branch, up to the return of the listener and the
    micro-tasks that follow it at once.  When
    [getAllInflightRequestsArray] throws, the [catch] reports it and
    [moqClose] follows; when no close is pending, [Promise.all] is
    fulfilled at once and [moqClose] follows; otherwise the handler
    waits at [await Promise.all(...)]. *)
Definition listener_stop (σ : Engine) : Engine :=
  let σ1 := set_workerState Stopped σ in
  match getAllInflightRequestsArray σ1 with
  | None =>
      set_wt false
        (emit (Info "Aborting streams while exiting. Err: TypeError") σ1)
  | Some [] => set_wt false σ1
  | Some (_ :: _) => set_exiting true σ1
  end.

(** The listener of 'message' events. *)
Definition listener (e : MessageData) (env : IniEnv) (σ : Engine) : Engine :=
  let σ := if StateEnum_eqb (workerState σ) Created
           then set_workerState Instantiated σ else σ in
  if StateEnum_eqb (workerState σ) Stopped
  then emit (Info "Muxer-send is stopped it does not accept messages") σ
  else if String.eqb (type e) "stop"
  then listener_stop σ
  else if String.eqb (type e) "muxersendini"
  then listener_ini (muxerSenderConfig e) env σ
  else listener_chunk e σ.

(** *** The event loop *)

(** What can happen to the worker: a message of the host, the answer to
    the [i]-th pending [createUnidirectionalStream], the settlement of the
    close of a stream, a SUBSCRIBE_REQUEST on the control stream, or the
    settlement of the [Promise.all] that the 'stop' handler waits for:
    rejected with the first close that fails, fulfilled once every close
    is. *)
Inductive Input :=
| Message (e : MessageData) (env : IniEnv)
| StreamOpened (i : nat)
| StreamRefused (i : nat)
| CloseSettled (packet : Packet) (fulfilled : bool)
| SubscribeParsed (subscribe : Subscribe)
| ExitSettled (rejected : bool).

Definition step (σ : Engine) (input : Input) : Engine :=
  match input with
  | Message e env => listener e env σ
  | StreamOpened i =>
      match awaiting σ !! i with
      | None => σ
      | Some call =>
          createSendPromise_resume call (set_awaiting (delete i (awaiting σ)) σ)
      end
  | StreamRefused i =>
      match awaiting σ !! i with
      | None => σ
      | Some call =>
          report_rejected (seqId (s_packet call)) "stream refused"
            (set_awaiting (delete i (awaiting σ)) σ)
      end
  | CloseSettled packet fulfilled =>
      let σ1 := removeFromInflight (mediaType packet) (pId packet) σ in
      if fulfilled
      then emit (Debug ("SENT CHUNK " ++ mediaType packet)) σ1
      else report_rejected (seqId packet) "stream closed with an error" σ1
  | SubscribeParsed subscribe =>
      if subscriptionLoop σ
      then
        let σ1 := subscriptionLoop_body subscribe σ in
        if StateEnum_eqb (workerState σ1) Running then σ1
        else
          (* the [while] ends and the [then] of the listener reports it *)
          emit (Info "Exited receiving subscription loop in control stream")
            (set_subscriptionLoop false σ1)
      else σ
  | ExitSettled rejected =>
      if exiting σ
      then
        (* the [catch] and the [finally] of the 'stop' branch *)
        let σ1 := if rejected
                  then emit (Info "Aborting streams while exiting. Err: stream closed with an error") σ
                  else σ in
        set_wt false (set_exiting false σ1)
      else σ
  end.

Definition run (σ : Engine) (inputs : list Input) : Engine :=
  foldl step σ inputs.

(** *** Notions used by the statements about the dispatcher *)

(** The objects written for track id [t], and their sequence pairs. *)
Definition on_track (t : N) (objs : list MoqObject) : list MoqObject :=
  filter (λ o, trackId o = t) objs.

Definition pair_of (o : MoqObject) : N * N := (groupSeq o, objSeq o).

Definition emitted (t : N) (σ : Engine) : list (N * N) :=
  pair_of <$> on_track t (objects σ).

(** The lexicographic order on (group, object) pairs. *)
Definition lex_lt (a b : N * N) : Prop :=
  (a.1 < b.1)%N ∨ (a.1 = b.1 ∧ (a.2 < b.2)%N).

(** The last object written for track id [t]. *)
Definition prev_on (t : N) (objs : list MoqObject) : option MoqObject :=
  last (on_track t objs).

(** The track state that the last object of a track leaves behind, and
    the fresh state when there is none. *)
Definition state_after (prev : option MoqObject) : TrackState :=
  match prev with
  | Some o => {| currentGroupSeq := groupSeq o;
                 currentObjectSeq := objSeq o + 1 |}
  | None => createTrackState
  end.

(** Every object is numbered from the object written before it on the
    same track. *)
Definition numbered (objs : list MoqObject) : Prop :=
  ∀ pre o post, objs = (pre ++ o :: post)%list →
    let st := next_object_state (payload o)
                (state_after (prev_on (trackId o) pre)) in
    groupSeq o = currentGroupSeq st ∧ objSeq o = currentObjectSeq st.

(** The last data object among [objs]. *)
Definition prev_data (objs : list MoqObject) : option MoqObject :=
  last (filter (λ o, mediaType (payload o) = "data") objs).

(** What holds of the dispatcher in every state the worker reaches: while
    the worker is not yet running nothing is parked and nothing was
    written; the state of a track is the one its last object left behind
    (none or the fresh one before its first object); every parked call has
    a track state; the objects are numbered; and packets of the "data"
    track have chunk type "key". *)
Record Inv (σ : Engine) : Prop := {
  inv_idle :
    workerState σ = Created ∨ workerState σ = Instantiated →
    objects σ = [] ∧ awaiting σ = [];
  inv_state :
    ∀ t, match prev_on t (objects σ) with
         | Some o => moqPublisherState σ !! t = Some (state_after (Some o))
         | None => moqPublisherState σ !! t = None
                   ∨ moqPublisherState σ !! t = Some createTrackState
         end;
  inv_awaiting :
    ∀ call, call ∈ awaiting σ →
      is_Some (moqPublisherState σ !! s_trackId call)
      ∧ (mediaType (s_packet call) = "data" → chunkType (s_packet call) = "key");
  inv_numbered : numbered (objects σ);
  inv_data :
    ∀ o, o ∈ objects σ →
      mediaType (payload o) = "data" → chunkType (payload o) = "key"
}.

(** The track ids of a configuration. *)
Definition track_ids (t : Tracks) : list N := (Track.id ∘ snd) <$> t.

(** An input is well configured when the tracks it configures, if any,
    have pairwise different ids. *)
Definition distinct_ids (input : Input) : Prop :=
  match input with
  | Message e _ =>
      match moqTracks (muxerSenderConfig e) with
      | Some t => NoDup (track_ids t)
      | None => True
      end
  | _ => True
  end.

(** What well-configured inputs maintain: the tracks have pairwise
    different ids, and every parked call and every object written carries
    the id of the track of its packet. *)
Record WellTracked (σ : Engine) : Prop := {
  wt_ids : NoDup (track_ids (tracks σ));
  wt_awaiting :
    ∀ call, call ∈ awaiting σ →
      Track.id <$> tracks_get (tracks σ) (mediaType (s_packet call))
      = Some (s_trackId call);
  wt_objects :
    ∀ o, o ∈ objects σ →
      Track.id <$> tracks_get (tracks σ) (mediaType (payload o))
      = Some (trackId o)
}.

(** The in-flight bound: the object of every configured track holds at
    most [maxInFlightRequests] entries. *)
Definition bounded (σ : Engine) : Prop :=
  ∀ key track requests,
    tracks_get (tracks σ) key = Some track →
    inFlightRequests σ !! key = Some requests →
    (N.of_nat (inflight_length requests) ≤ Track.maxInFlightRequests track)%N.

(** The events that report a dropped chunk. *)
Definition is_dropped (ev : Event) : bool :=
  match ev with
  | DroppedChunk _ _ => true
  | _ => false
  end.

(** *** Sample configurations and messages *)

Definition sample_track (i : N) (trackName : string) (hipri : bool) (max : N)
    : Track.Data :=
  {| Track.id := i; Track.namespace := "vc"; Track.name := trackName;
     Track.authInfo := "secret"; Track.isHipri := hipri;
     Track.maxInFlightRequests := max; Track.numSubscribers := None |}.

Definition sample_chunk (chunkType pId : string) : Chunk :=
  {| chunk_type := chunkType; chunk_pId := pId; chunk_str := pId |}.

Definition no_config : MuxerSenderConfig :=
  {| urlHostPort := None; cfg_isSendingStats := None; moqTracks := None |}.

(** A 'muxersendini' message for the given tracks. *)
Definition ini_message (t : Tracks) : MessageData :=
  {| type := "muxersendini"; msg_seqId := None;
     chunk := sample_chunk "" "";
     muxerSenderConfig :=
       {| urlHostPort := Some "https://localhost:4433/moq";
          cfg_isSendingStats := Some false; moqTracks := Some t |} |}.

(** A chunk message for the track [key]. *)
Definition chunk_message (key : string) (seq : Z) (chunkType pId : string)
    : MessageData :=
  {| type := key; msg_seqId := Some (JS.of_Z seq);
     chunk := sample_chunk chunkType pId; muxerSenderConfig := no_config |}.

(** A relay that accepts the publisher and every announce of namespace
    "vc". *)
Definition relay : IniEnv :=
  {| fingerprint_ok := true; transport_ready := true;
     setup_role := Some MOQ_PARAMETER_ROLE_SUBSCRIBER;
     announce_replies := ["vc"] |}.

(** A subscription to the sample track [trackName]. *)
Definition sample_subscribe (trackName : string) : Subscribe :=
  {| sub_namespace := "vc"; sub_trackName := trackName;
     sub_authInfo := Some "secret" |}.

(** A packet of the sample tracks. *)
Definition sample_packet (key : string) (seq : Z) (chunkType pId : string)
    : Packet :=
  {| mediaType := key; chunkType := chunkType; seqId := JS.of_Z seq;
     pId := pId; dataStr := pId |}.

(** The sample tracks: a high-priority audio track and a video track
    that admits one request in flight. *)
Definition sample_tracks : Tracks :=
  [("audio", sample_track 0 "audio" true 100);
   ("video", sample_track 1 "video" false 1)].

(** The worker once it runs with the sample tracks and each of them has a
    subscriber. *)
Definition subscribed : Engine :=
  run init [Message (ini_message sample_tracks) relay;
            SubscribeParsed (sample_subscribe "audio");
            SubscribeParsed (sample_subscribe "video")].

(** Two video chunks that arrive one after the other, before the stream
    of the first is open; then both streams open. *)
Definition overlapping : list Input :=
  [Message (chunk_message "video" 0 "key" "a") relay;
   Message (chunk_message "video" 1 "delta" "b") relay;
   StreamOpened 0;
   StreamOpened 0].

(** One audio chunk whose stream is open and not yet closed. *)
Definition one_in_flight : list Input :=
  [Message (chunk_message "audio" 0 "key" "a") relay; StreamOpened 0].

(** A "data" track, and two data chunks of encoded type "delta" sent one
    after the other. *)
Definition data_tracks : Tracks := [("data", sample_track 2 "data" false 10)].

Definition two_data_chunks : list Input :=
  [Message (ini_message data_tracks) relay;
   SubscribeParsed (sample_subscribe "data");
   Message (chunk_message "data" 0 "delta" "a") relay;
   StreamOpened 0;
   Message (chunk_message "data" 1 "delta" "b") relay;
   StreamOpened 0].

(** A "video" and a "data" track configured with the same id, and a run
    in which a video chunk is sent between two data chunks. *)
Definition shared_id_tracks : Tracks :=
  [("video", sample_track 0 "video" false 10);
   ("data", sample_track 0 "data" false 10)].

Definition video_between_data_chunks : list Input :=
  [Message (ini_message shared_id_tracks) relay;
   SubscribeParsed (sample_subscribe "video");
   SubscribeParsed (sample_subscribe "data");
   Message (chunk_message "data" 0 "key" "a") relay;
   StreamOpened 0;
   Message (chunk_message "video" 1 "key" "b") relay;
   StreamOpened 0;
   Message (chunk_message "data" 2 "key" "c") relay;
   StreamOpened 0].

(** A key chunk and a delta chunk of the video track, each sent as soon
    as it arrives, and a third chunk still waiting for its stream. *)
Definition three_video_chunks : list Input :=
  [Message (ini_message sample_tracks) relay;
   SubscribeParsed (sample_subscribe "video");
   Message (chunk_message "video" 0 "key" "a") relay;
   StreamOpened 0;
   CloseSettled (sample_packet "video" 0 "key" "a") true;
   Message (chunk_message "video" 1 "delta" "b") relay;
   StreamOpened 0;
   CloseSettled (sample_packet "video" 1 "delta" "b") true;
   Message (chunk_message "video" 2 "key" "c") relay].

(** Following the specification ("for each distinct namespace across
    configured tracks, send ANNOUNCE(namespace, AUTH_INFO)"): the first
    track of every namespace that is not in [seen], in order. *)
Fixpoint distinct_namespaces (seen : list string) (entries : Tracks)
    : list Track.Data :=
  match entries with
  | [] => []
  | (_, trackData) :: rest =>
      if existsb (String.eqb (Track.namespace trackData)) seen
      then distinct_namespaces seen rest
      else trackData
             :: distinct_namespaces (seen ++ [Track.namespace trackData])%list rest
  end.

Definition announce_of (trackData : Track.Data) : ControlMsg :=
  ANNOUNCE (Track.namespace trackData) (Track.authInfo trackData).

(** *** Notions used by the statements about subscriptions and requests *)

(** [a <= b] on subscriber counts; a count that is not there yet is below
    every count. *)
Definition subscribers_le (a b : option N) : Prop :=
  match a, b with
  | None, _ => True
  | Some n, Some m => (n ≤ m)%N
  | Some _, None => False
  end.

(** An entry of [tracks] keeps its key and every field but
    [numSubscribers], which does not go down. *)
Definition same_track (e e' : string * Track.Data) : Prop :=
  e'.1 = e.1
  ∧ e'.2 = Track.set_numSubscribers (Track.numSubscribers e'.2) e.2
  ∧ subscribers_le (Track.numSubscribers e.2) (Track.numSubscribers e'.2).

(** The track [key] exists and has at least one subscriber. *)
Definition has_subscriber (tracks : Tracks) (key : string) : Prop :=
  ∃ track n,
    tracks_get tracks key = Some track
    ∧ Track.numSubscribers track = Some n ∧ (0 < n)%N.

(** What holds of the subscriptions in every state the worker reaches:
    the track of every parked call and of every object written has a
    subscriber. *)
Record Served (σ : Engine) : Prop := {
  served_awaiting :
    ∀ call, call ∈ awaiting σ →
      has_subscriber (tracks σ) (mediaType (s_packet call));
  served_objects :
    ∀ o, o ∈ objects σ → has_subscriber (tracks σ) (mediaType (payload o))
}.

(** The promise [p] is pending under [id] in the object of track [key]. *)
Definition pending (σ : Engine) (key id : string) (p : Promise) : Prop :=
  ∃ requests,
    inFlightRequests σ !! key = Some requests ∧ requests !! id = Some p.

(** What holds of the in-flight requests in every state the worker
    reaches: a pending promise is stored under its own id, belongs to a
    stream that was opened, and an object with that [pId] was written for
    that track; no two pending promises belong to the same stream. *)
Record Registered (σ : Engine) : Prop := {
  reg_id :
    ∀ key id p, pending σ key id p →
      p_id p = id ∧ stream p < streams σ
      ∧ ∃ o, o ∈ objects σ
             ∧ mediaType (payload o) = key ∧ pId (payload o) = id;
  reg_stream :
    ∀ key id p key' id' p',
      pending σ key id p → pending σ key' id' p' →
      stream p = stream p' → key = key' ∧ id = id'
}.

(** A run without overlap: the stream that a message asks for, if any,
    opens before anything else happens.  Every message of the host is
    followed at once by the answer to [createUnidirectionalStream];
    closes settle, subscriptions arrive and the 'stop' handler goes on
    in between. *)
Definition opened_at_once (input : Input) : list Input :=
  match input with
  | Message e env => [Message e env; StreamOpened 0]
  | StreamOpened _ | StreamRefused _ => []
  | CloseSettled _ _ | SubscribeParsed _ | ExitSettled _ => [input]
  end.

Definition without_overlap (inputs : list Input) : list Input :=
  concat (opened_at_once <$> inputs).

(** Every object of [inFlightRequests] is empty. *)
Definition nothing_in_flight (σ : Engine) : Prop :=
  ∀ key requests, inFlightRequests σ !! key = Some requests → requests = ∅.

(** What a run without overlap maintains: nothing is parked, the bound
    holds, and nothing is in flight before the session runs. *)
Definition settled (σ : Engine) : Prop :=
  awaiting σ = [] ∧ bounded σ
  ∧ (workerState σ = Created ∨ workerState σ = Instantiated →
     nothing_in_flight σ).

(** A 'muxersendini' message without [urlHostPort]. *)
Definition ini_without_host (t : Tracks) : MessageData :=
  {| type := "muxersendini"; msg_seqId := None;
     chunk := sample_chunk "" "";
     muxerSenderConfig :=
       {| urlHostPort := None; cfg_isSendingStats := None;
          moqTracks := Some t |} |}.

(** The worker once it runs with the sample tracks, before any
    subscription. *)
Definition running : Engine :=
  run init [Message (ini_message sample_tracks) relay].


(** A 'stop' message. *)
Definition stop_message : MessageData :=
  {| type := "stop"; msg_seqId := None; chunk := sample_chunk "" "";
     muxerSenderConfig := no_config |}.


End Sender.

(** ** The subscriber worker (the downloader) *)
Module Downloader.

Record DownloaderConfig := {
  urlHostPort : option string;
  urlPath : option string;
  cfg_isSendingStats : option bool;
  moqTracks : option Tracks
}.

(** [e.data]. *)
Record MessageData := {
  type : string;
  downloaderConfig : DownloaderConfig
}.

(** A parsed SUBSCRIBE_RESPONSE. *)
Record SubscribeResponse := {
  namespace : string;
  trackName : string;
  trackId : N
}.

(** What the environment answers to the [await]s of an initialisation. *)
Record IniEnv := {
  fingerprint_ok : bool;
  transport_ready : bool;
  setup_role : option Z;
  subscribe_replies : list SubscribeResponse
}.

(** The module-level bindings and what the worker has emitted so far. *)
Record Engine := {
  workerState : StateEnum;
  urlHostPortEp : string;
  isSendingStats : bool;
  tracks : Tracks;
  wt : bool;
  receiving : bool;
  toMain : list Event;
  control : list ControlMsg
}.

Definition init : Engine :=
  {| workerState := Created; urlHostPortEp := ""; isSendingStats := false;
     tracks := []; wt := false; receiving := false; toMain := [];
     control := [] |}.

Definition set_workerState (s : StateEnum) (σ : Engine) : Engine :=
  {| workerState := s; urlHostPortEp := urlHostPortEp σ;
     isSendingStats := isSendingStats σ; tracks := tracks σ; wt := wt σ;
     receiving := receiving σ; toMain := toMain σ; control := control σ |}.

Definition set_config (url : string) (stats : bool) (t : Tracks) (σ : Engine)
    : Engine :=
  {| workerState := workerState σ; urlHostPortEp := url;
     isSendingStats := stats; tracks := t; wt := wt σ;
     receiving := receiving σ; toMain := toMain σ; control := control σ |}.

Definition set_tracks (t : Tracks) (σ : Engine) : Engine :=
  set_config (urlHostPortEp σ) (isSendingStats σ) t σ.

Definition set_wt (b : bool) (σ : Engine) : Engine :=
  {| workerState := workerState σ; urlHostPortEp := urlHostPortEp σ;
     isSendingStats := isSendingStats σ; tracks := tracks σ; wt := b;
     receiving := receiving σ; toMain := toMain σ; control := control σ |}.

Definition set_receiving (b : bool) (σ : Engine) : Engine :=
  {| workerState := workerState σ; urlHostPortEp := urlHostPortEp σ;
     isSendingStats := isSendingStats σ; tracks := tracks σ; wt := wt σ;
     receiving := b; toMain := toMain σ; control := control σ |}.

Definition emit (ev : Event) (σ : Engine) : Engine :=
  {| workerState := workerState σ; urlHostPortEp := urlHostPortEp σ;
     isSendingStats := isSendingStats σ; tracks := tracks σ; wt := wt σ;
     receiving := receiving σ; toMain := toMain σ ++ [ev];
     control := control σ |}.

Definition write_control (ms : list ControlMsg) (σ : Engine) : Engine :=
  {| workerState := workerState σ; urlHostPortEp := urlHostPortEp σ;
     isSendingStats := isSendingStats σ; tracks := tracks σ; wt := wt σ;
     receiving := receiving σ; toMain := toMain σ;
     control := control σ ++ ms |}.

Definition emit_all (evs : list Event) (σ : Engine) : Engine :=
  foldl (λ σ ev, emit ev σ) σ evs.

(** [checkTrackData]. *)
Definition checkTrackData (tracks : Tracks) : string :=
  if (length tracks <=? 0)%nat
  then "Number of Track Ids to announce needs to be > 0"
  else "".

(** The SUBSCRIBE loop of [moqCreateSubscriberSession]; it stores the
    track id of each answer in the track, so the tracks come back too. *)
Fixpoint subscribe_loop (entries : Tracks) (replies : list SubscribeResponse)
    : Tracks * list ControlMsg * list Event * SessionResult :=
  match entries with
  | [] => ([], [], [], SessionReady)
  | (trackType, trackData) :: rest =>
      let sent := SUBSCRIBE (Track.namespace trackData) (Track.name trackData)
                    (Track.authInfo trackData) in
      match replies with
      | [] => (entries, [sent], [], SessionWaits)
      | subscribeResp :: replies' =>
          let ev := Info ("Received SUBSCRIBE response for "
                            ++ Track.namespace trackData ++ "/"
                            ++ Track.name trackData) in
          if negb (String.eqb (Track.namespace trackData) (namespace subscribeResp))
             || negb (String.eqb (Track.name trackData) (trackName subscribeResp))
          then (entries, [sent], [ev],
                SessionThrows
                  (UnexpectedTrack (Track.namespace trackData)
                     (Track.name trackData) (namespace subscribeResp)
                     (trackName subscribeResp)))
          else
            let '(rest', ms, evs, res) := subscribe_loop rest replies' in
            ((trackType, Track.set_id (trackId subscribeResp) trackData) :: rest',
             sent :: ms, ev :: evs, res)
      end
  end.

(** [moqCreateSubscriberSession]. *)
Definition moqCreateSubscriberSession (tracks : Tracks) (role : option Z)
    (replies : list SubscribeResponse)
    : Tracks * list ControlMsg * list Event * SessionResult :=
  let sent := SETUP MOQ_PARAMETER_ROLE_SUBSCRIBER in
  if role_differs role MOQ_PARAMETER_ROLE_PUBLISHER
     && role_differs role MOQ_PARAMETER_ROLE_BOTH
  then (tracks, [sent], [], SessionThrows (RoleNotSupported role))
  else
    let '(tracks', ms, evs, res) := subscribe_loop tracks replies in
    (tracks', sent :: ms, Info "Received SETUP response" :: evs, res).

(** The 'downloadersendini' branch, taken as one step, that is, as an
    initialisation during which the worker handles nothing else. *)
Definition listener_ini (cfg : DownloaderConfig) (env : IniEnv) (σ : Engine)
    : Engine :=
  if negb (StateEnum_eqb (workerState σ) Instantiated)
  then emit (Error "received ini message in wrong state. State: ") σ
  else
    match urlHostPort cfg, urlPath cfg with
    | Some url, Some _ =>
        let σ1 := set_config url
                    (default (isSendingStats σ) (cfg_isSendingStats cfg))
                    (default (tracks σ) (moqTracks cfg)) σ in
        let errTrackStr := checkTrackData (tracks σ1) in
        if negb (String.eqb errTrackStr "") then emit (Error errTrackStr) σ1
        else
          let σ2 := set_wt false σ1 in
          if negb (fingerprint_ok env)
          then emit (Error "Initializing MOQ. Err: ") σ2
          else
            let σ3 := set_wt true σ2 in
            if negb (transport_ready env)
            then emit (Error "Initializing MOQ. Err: ") σ3
            else
              let '(tracks', ms, evs, res) :=
                moqCreateSubscriberSession (tracks σ3) (setup_role env)
                  (subscribe_replies env) in
              let σ4 := emit_all evs (write_control ms (set_tracks tracks' σ3)) in
              match res with
              | SessionThrows _ => emit (Error "Initializing MOQ. Err: ") σ4
              | SessionWaits => σ4
              | SessionReady =>
                  set_receiving true
                    (set_workerState Running
                       (emit (Info "MOQ Initialized") σ4))
              end
    | _, _ => emit (Error "We need host, streamId to start playback") σ
    end.

(** The listener of 'message' events. *)
Definition listener (e : MessageData) (env : IniEnv) (σ : Engine) : Engine :=
  let σ := if StateEnum_eqb (workerState σ) Created
              || StateEnum_eqb (workerState σ) Stopped
           then set_workerState Instantiated σ else σ in
  if StateEnum_eqb (workerState σ) Stopped
  then emit (Info "downloader is stopped it does not accept messages") σ
  else if String.eqb (type e) "stop"
  then set_wt false (set_workerState Stopped σ)
  else if String.eqb (type e) "downloadersendini"
  then listener_ini (downloaderConfig e) env σ
  else σ.

(** *** Receiving objects *)

(** [getTrackTypeFromTrackId]: the key of the first track with that id;
    [None] is [undefined]. *)
Fixpoint getTrackTypeFromTrackId (tracks : Tracks) (trackId : N)
    : option string :=
  match tracks with
  | [] => None
  | (trackType, trackData) :: rest =>
      if (Track.id trackData =? trackId)%N then Some trackType
      else getTrackTypeFromTrackId rest trackId
  end.

(** Modelled from the spec: [moqParseObjectHeader] of [moqt.js], which is
    not among the sources, reads the four varints [trackId], [groupSeq],
    [objSeq] and [sendOrder] that start every object stream. *)
Record ObjectHeader := {
  h_trackId : N;
  h_groupSeq : N;
  h_objSeq : N;
  h_sendOrder : N
}.

(** Modelled from the spec: what [GetData] of the LOC packager returns
    once [ReadBytes] has read the envelope.  [mediaType] and [chunkType]
    are [undefined] ([None]) when the envelope does not give them. *)
Record LocData := {
  loc_mediaType : option string;
  loc_chunkType : option string;
  loc_seqId : JS.Number;
  loc_timestamp : JS.Number;
  loc_duration : JS.Number;
  loc_firstFrameClkms : JS.Number;
  loc_metadata : list Byte.byte;
  loc_data : list Byte.byte
}.

(** The dictionary handed to [new EncodedAudioChunk] and
    [new EncodedVideoChunk]. *)
Record EncodedChunkInit := {
  ec_timestamp : JS.Number;
  ec_type : string;
  ec_data : list Byte.byte;
  ec_duration : JS.Number
}.

Inductive EncodedChunk :=
| EncodedAudioChunk (init : EncodedChunkInit)
| EncodedVideoChunk (init : EncodedChunkInit).

(** What the receiving side hands to the host: a [sendMessageToMain] of
    the given kind ('debug', 'warning', 'error'), the 'downloaderstats'
    and 'dropped stream' reports, and the chunk messages posted with
    [self.postMessage].  Wall-clock stamps are left out. *)
Inductive Posted :=
| ToMain (kind text : string)
| DownloaderStats
| DroppedStream (seqId : Z) (msg : string)
| MediaChunk (type : string) (captureClkms seqId : JS.Number)
    (chunk : option EncodedChunk) (metadata : list Byte.byte)
| DataChunk (chunk : list Byte.byte).

(** What an incoming stream turns out to hold as the worker reads it: the
    object header, the rest of the stream as the LOC packager and as the
    RAW packager read it ([None] where the read throws), whether the
    WebCodecs constructor accepts the dictionary built from the envelope
    (it throws a [TypeError] otherwise), and the time in milliseconds
    that has passed since [startTime] when the latency is probed. *)
Record ObjectStream := {
  os_header : option ObjectHeader;
  os_loc : option LocData;
  os_raw : option (list Byte.byte);
  os_chunk_accepted : bool;
  os_latency : JS.Number
}.

(** The chunk a LOC envelope is turned into: none for a media type other
    than "audio" and "video"; the outer [None] is the [TypeError] of a
    constructor that does not accept its dictionary. *)
Definition encoded_chunk (mediaType chunkType : string) (chunkData : LocData)
    (accepted : bool) : option (option EncodedChunk) :=
  let init := {| ec_timestamp := loc_timestamp chunkData;
                 ec_type := chunkType;
                 ec_data := loc_data chunkData;
                 ec_duration := loc_duration chunkData |} in
  if String.eqb mediaType "audio"
  then if accepted then Some (Some (EncodedAudioChunk init)) else None
  else if String.eqb mediaType "video"
  then if accepted then Some (Some (EncodedVideoChunk init)) else None
  else Some None.

(** [moqReceiveProcessObjects], taken as one step: what it posts, and the
    error it throws, if any. *)
Definition moqReceiveProcessObjects (tracks : Tracks) (readerStream : ObjectStream)
    : list Posted * option string :=
  match os_header readerStream with
  | None => ([], Some "header")
  | Some moqObj =>
      let received := ToMain "debug" "Received MOQT obj: " in
      match getTrackTypeFromTrackId tracks (h_trackId moqObj) with
      | None => ([received], Some "Unexpected trackId received")
      | Some trackType =>
          if negb (String.eqb trackType "data")
          then
            match os_loc readerStream with
            | None => ([received], Some "ReadBytes")
            | Some chunkData =>
                match loc_chunkType chunkData, loc_mediaType chunkData with
                | Some chunkType, Some mediaType =>
                    let decoded := ToMain "debug" "Decoded MOQT-LOC: " in
                    match encoded_chunk mediaType chunkType chunkData
                            (os_chunk_accepted readerStream) with
                    | None => ([received; decoded], Some "TypeError")
                    | Some chunk =>
                        let late :=
                          JS.ltb (JS.div (loc_duration chunkData) (JS.of_Z 1000))
                                 (os_latency readerStream) in
                        ([received; decoded;
                          MediaChunk (mediaType ++ "chunk")
                            (loc_firstFrameClkms chunkData)
                            (loc_seqId chunkData) chunk
                            (loc_metadata chunkData);
                          ToMain (if late then "warning" else "debug")
                            ("response: 200. mediaType: " ++ mediaType)],
                         None)
                    end
                | _, _ =>
                    ([received],
                     Some "Corrupted headers, we can NOT parse the data, headers: ")
                end
            end
          else
            match os_raw readerStream with
            | None => ([received], Some "ReadBytes")
            | Some data =>
                ([received; ToMain "debug" "Decoded MOQT-RAW: ";
                  DataChunk data], None)
            end
      end
  end.

(** [reportStats]. *)
Definition reportStats (σ : Engine) : list Posted :=
  if isSendingStats σ then [DownloaderStats] else [].

(** One turn of the [while] of [moqReceiveObjects], from the moment
    [readableStream.read()] has returned; [stream] is [None] when the
    reader reports [done].  The loop goes on unless the worker is
    stopped. *)
Definition moqReceiveObjects_turn (stream : option ObjectStream) (σ : Engine)
    : Engine * list Posted :=
  if negb (receiving σ) then (σ, [])
  else
    let processed :=
      match stream with
      | None => []
      | Some readerStream =>
          let '(posted, err) := moqReceiveProcessObjects (tracks σ) readerStream in
          match err with
          | Some _ =>
              (posted ++ [DroppedStream (-1) "Dropped stream because WT error";
                          ToMain "error" "WT request. Err: "])%list
          | None => posted
          end
      end in
    (set_receiving (negb (StateEnum_eqb (workerState σ) Stopped)) σ,
     (reportStats σ ++ processed)%list).

(** The chunk messages among what is posted. *)
Definition is_chunk (m : Posted) : bool :=
  match m with
  | MediaChunk _ _ _ _ _ | DataChunk _ => true
  | _ => false
  end.

Definition is_dropped_stream (m : Posted) : bool :=
  match m with
  | DroppedStream _ _ => true
  | _ => false
  end.

(** The SUBSCRIBE that [moqCreateSubscriberSession] sends for a track, and
    the track with the id of the answer. *)
Definition subscribe_of (entry : string * Track.Data) : ControlMsg :=
  SUBSCRIBE (Track.namespace entry.2) (Track.name entry.2)
    (Track.authInfo entry.2).

Definition with_id (entry : string * Track.Data) (reply : SubscribeResponse)
    : string * Track.Data :=
  (entry.1, Track.set_id (trackId reply) entry.2).

(** A SUBSCRIBE_RESPONSE answers the subscription to a track when it names
    the namespace and the name of the track. *)
Definition answers (entry : string * Track.Data) (reply : SubscribeResponse)
    : Prop :=
  Track.namespace entry.2 = namespace reply
  ∧ Track.name entry.2 = trackName reply.

(** Sample messages: a 'stop', a message of no known type, and an
    initialisation against a relay that accepts the subscriber and answers
    the subscription to the sample video track. *)
Definition stop_message : MessageData :=
  {| type := "stop";
     downloaderConfig := {| urlHostPort := None; urlPath := None;
                            cfg_isSendingStats := None; moqTracks := None |} |}.

Definition other_message : MessageData :=
  {| type := "videochunk";
     downloaderConfig := {| urlHostPort := None; urlPath := None;
                            cfg_isSendingStats := None; moqTracks := None |} |}.

Definition sample_track : Track.Data :=
  {| Track.id := 0; Track.namespace := "vc"; Track.name := "video";
     Track.authInfo := "secret"; Track.isHipri := false;
     Track.maxInFlightRequests := 0; Track.numSubscribers := None |}.

Definition ini_message : MessageData :=
  {| type := "downloadersendini";
     downloaderConfig :=
       {| urlHostPort := Some "https://localhost:4433/moq";
          urlPath := Some "moq"; cfg_isSendingStats := Some false;
          moqTracks := Some [("video", sample_track)] |} |}.

Definition relay : IniEnv :=
  {| fingerprint_ok := true; transport_ready := true;
     setup_role := Some MOQ_PARAMETER_ROLE_PUBLISHER;
     subscribe_replies :=
       [{| namespace := "vc"; trackName := "video"; trackId := 7 |}] |}.

(** A 'downloadersendini' without [urlPath]. *)
Definition ini_without_path : MessageData :=
  {| type := "downloadersendini";
     downloaderConfig :=
       {| urlHostPort := Some "https://localhost:4433/moq";
          urlPath := None; cfg_isSendingStats := Some true;
          moqTracks := Some [("video", sample_track)] |} |}.

(** The worker once it receives: the relay has given the id 7 to the
    sample video track. *)
Definition running : Engine := listener ini_message relay init.

(** A stream that holds a video key frame for the track id [trackId]. *)
Definition sample_loc : LocData :=
  {| loc_mediaType := Some "video"; loc_chunkType := Some "key";
     loc_seqId := JS.of_Z 42; loc_timestamp := JS.of_Z 1000;
     loc_duration := JS.of_Z 20000; loc_firstFrameClkms := JS.of_Z 0;
     loc_metadata := []; loc_data := [Byte.xaa] |}.

Definition sample_stream (trackId : N) : ObjectStream :=
  {| os_header := Some {| h_trackId := trackId; h_groupSeq := 1;
                          h_objSeq := 0; h_sendOrder := 0 |};
     os_loc := Some sample_loc; os_raw := Some [Byte.xaa];
     os_chunk_accepted := true; os_latency := JS.of_Z 5 |}.

End Downloader.

(** * Properties *)

(** ** Rounding of JavaScript numbers

    The facts about binary64 arithmetic that the send order depends on:
    how a mantissa is shifted and rounded, the canonical form of the safe
    integers, and the value of [Math.floor(z + MAX_SAFE_INTEGER / 2)]. *)
Module JSFacts.

Local Open Scope Z_scope.

(** The number of binary digits of a mantissa brackets it between two
    powers of two, and is the only number that does. *)
Lemma digits2_pos_bounds (p : positive) :
  2 ^ (Zpos (digits2_pos p) - 1) <= Zpos p < 2 ^ Zpos (digits2_pos p).
Proof.
  induction p as [p IH | p IH |]; cbn [digits2_pos].
  - rewrite Pos2Z.inj_succ.
    replace (Z.succ (Zpos (digits2_pos p)) - 1)
      with (Z.succ (Zpos (digits2_pos p) - 1)) by lia.
    rewrite !Z.pow_succ_r by lia. lia.
  - rewrite Pos2Z.inj_succ.
    replace (Z.succ (Zpos (digits2_pos p)) - 1)
      with (Z.succ (Zpos (digits2_pos p) - 1)) by lia.
    rewrite !Z.pow_succ_r by lia. lia.
  - cbn. lia.
Qed.

Lemma digits2_pos_unique (p : positive) (d : Z) :
  2 ^ (d - 1) <= Zpos p < 2 ^ d -> Zpos (digits2_pos p) = d.
Proof.
  intros [Hlo Hhi].
  pose proof (digits2_pos_bounds p) as [Hlo' Hhi'].
  assert (0 < d).
  { destruct (Z_lt_le_dec 0 d); [done|]. 
    assert (2 ^ d <= 2 ^ 0) by (apply Z.pow_le_mono_r; lia). simpl in *. lia. }
  destruct (Z.lt_trichotomy (Zpos (digits2_pos p)) d) as [Hlt | [Heq | Hgt]]; [| done |].
  - assert (2 ^ Zpos (digits2_pos p) <= 2 ^ (d - 1)) by (apply Z.pow_le_mono_r; lia). lia.
  - assert (2 ^ d <= 2 ^ (Zpos (digits2_pos p) - 1)) by (apply Z.pow_le_mono_r; lia). lia.
Qed.

(** Shifting a mantissa right by [n] digits divides it by 2^n; the round
    digit is the last digit shifted out and the sticky digit tells whether
    any digit before it was set. *)
Lemma iter_pos_iter {A} (f : A -> A) (n : positive) (x : A) :
  SpecFloat.iter_pos f n x = Pos.iter f x n.
Proof.
  revert x. induction n as [n IH | n IH |]; intros x; cbn [SpecFloat.iter_pos Pos.iter].
  - rewrite !IH. rewrite <- !Pos.iter_swap. done.
  - rewrite !IH. done.
  - done.
Qed.

Lemma shr_1_nonneg (m : Z) (r s : bool) :
  0 <= m ->
  shr_1 {| shr_m := m; shr_r := r; shr_s := s |} =
  {| shr_m := m / 2; shr_r := Z.odd m; shr_s := r || s |}.
Proof.
  intros Hm. destruct m as [| p | p]; [done | | lia].
  destruct p as [p | p |]; cbn [shr_1].
  - f_equal. rewrite Pos2Z.inj_xI. apply (Z.div_unique _ 2 _ 1); lia.
  - f_equal. rewrite Pos2Z.inj_xO. apply (Z.div_unique _ 2 _ 0); lia.
  - done.
Qed.

Lemma testbit_odd_div (M n : Z) :
  0 <= n -> Z.testbit M n = Z.odd (M / 2 ^ n).
Proof.
  intros Hn. rewrite <- Z.shiftr_div_pow2 by done.
  rewrite <- Z.bit0_odd, Z.shiftr_spec by lia. done.
Qed.

Lemma sticky_step (M n : Z) :
  0 <= M -> 0 < n ->
  negb (M mod 2 ^ n =? 0) =
  Z.testbit M (n - 1) || negb (M mod 2 ^ (n - 1) =? 0).
Proof.
  intros HM Hn.
  assert (E : 2 ^ n = 2 ^ (n - 1) * 2).
  { replace n with (Z.succ (n - 1)) at 1 by lia.
    rewrite Z.pow_succ_r by lia. lia. }
  rewrite E. clear E.
  assert (0 < 2 ^ (n - 1)) by (apply Z.pow_pos_nonneg; lia).
  rewrite Z.rem_mul_r by lia.
  rewrite testbit_odd_div by lia.
  rewrite (Zmod_odd (M / 2 ^ (n - 1))).
  pose proof (Z.mod_pos_bound M (2 ^ (n - 1)) ltac:(lia)).
  destruct (Z.odd (M / 2 ^ (n - 1))); cbn [orb].
  - destruct (Z.eqb_spec (M mod 2 ^ (n - 1) + 2 ^ (n - 1) * 1) 0); [lia | done].
  - rewrite Z.mul_0_r, Z.add_0_r. done.
Qed.

Lemma shr_iter (M : Z) (n : positive) :
  0 <= M ->
  Pos.iter shr_1 {| shr_m := M; shr_r := false; shr_s := false |} n =
  {| shr_m := M / 2 ^ Zpos n;
     shr_r := Z.testbit M (Zpos n - 1);
     shr_s := negb (M mod 2 ^ (Zpos n - 1) =? 0) |}.
Proof.
  intros HM. induction n as [| n IH] using Pos.peano_ind.
  - cbn [Pos.iter]. rewrite shr_1_nonneg by done.
    change (Z.pos 1 - 1) with 0.
    rewrite Z.bit0_odd, Z.pow_0_r, Z.mod_1_r. done.
  - rewrite Pos.iter_succ, IH.
    assert (0 < 2 ^ Zpos n) by (apply Z.pow_pos_nonneg; lia).
    rewrite shr_1_nonneg by (apply Z.div_pos; lia).
    rewrite Pos2Z.inj_succ.
    replace (Z.succ (Zpos n) - 1) with (Zpos n) by lia.
    f_equal.
    + rewrite Z.pow_succ_r by lia. rewrite Z.div_div by lia. f_equal. lia.
    + symmetry. apply testbit_odd_div. lia.
    + symmetry. apply sticky_step; lia.
Qed.

(** Shifting a mantissa left. *)
Lemma iter_xO (p k : positive) :
  Zpos (Pos.iter xO p k) = Zpos p * 2 ^ Zpos k.
Proof.
  induction k as [| k IH] using Pos.peano_ind.
  - cbn [Pos.iter]. rewrite Pos2Z.inj_xO. lia.
  - rewrite Pos.iter_succ, Pos2Z.inj_xO, IH, Pos2Z.inj_succ.
    rewrite Z.pow_succ_r by lia. lia.
Qed.

(** The exponent of a normal number of magnitude 2^x. *)
Lemma fexp_normal (x : Z) : -1021 <= x -> fexp JS.prec JS.emax x = x - 53.
Proof. unfold fexp, emin, JS.prec, JS.emax. lia. Qed.

(** A mantissa of 53 digits is kept as it is. *)
Lemma shr_fexp_exact (M : positive) (e : Z) :
  2 ^ 52 <= Zpos M < 2 ^ 53 -> -1074 <= e ->
  shr_fexp JS.prec JS.emax (Zpos M) e loc_Exact
  = ({| shr_m := Zpos M; shr_r := false; shr_s := false |}, e).
Proof.
  intros HM He.
  assert (Hd : Zpos (digits2_pos M) = 53) by (apply digits2_pos_unique; lia).
  unfold shr_fexp. cbn [Zdigits2 shr_record_of_loc].
  rewrite Hd, fexp_normal by lia.
  replace (53 + e - 53 - e) with 0 by lia. done.
Qed.

Lemma round_aux_exact (s : bool) (M : positive) (e : Z) :
  2 ^ 52 <= Zpos M < 2 ^ 53 -> -1074 <= e <= 971 ->
  binary_round_aux JS.prec JS.emax s (Zpos M) e loc_Exact = S754_finite s M e.
Proof.
  intros HM He. unfold binary_round_aux.
  rewrite shr_fexp_exact by lia.
  cbn [shr_m loc_of_shr_record round_nearest_even].
  rewrite shr_fexp_exact by lia. cbn [shr_m].
  unfold JS.emax, JS.prec.
  destruct (Z.leb_spec e (1024 - 53)); [done | lia].
Qed.

(** A longer mantissa loses its [n] low digits; the lemma covers the case
    where rounding does not carry into a 54th digit. *)
Lemma round_aux_shift (M : positive) (e : Z) (n : positive) :
  2 ^ (52 + Zpos n) <= Zpos M < 2 ^ (53 + Zpos n) ->
  -1074 <= e + Zpos n <= 971 ->
  let R := round_nearest_even (Zpos M / 2 ^ Zpos n)
             (loc_of_shr_record
                {| shr_m := Zpos M / 2 ^ Zpos n;
                   shr_r := Z.testbit (Zpos M) (Zpos n - 1);
                   shr_s := negb (Zpos M mod 2 ^ (Zpos n - 1) =? 0) |}) in
  R < 2 ^ 53 ->
  binary_round_aux JS.prec JS.emax false (Zpos M) e loc_Exact
  = S754_finite false (Z.to_pos R) (e + Zpos n).
Proof.
  intros HM He R HR.
  assert (Hd : Zpos (digits2_pos M) = 53 + Zpos n).
  { apply digits2_pos_unique. replace (53 + Zpos n - 1) with (52 + Zpos n) by lia. done. }
  assert (Hq : 2 ^ 52 <= Zpos M / 2 ^ Zpos n).
  { apply Z.div_le_lower_bound; [apply Z.pow_pos_nonneg; lia|].
    rewrite <- Z.pow_add_r by lia. replace (Zpos n + 52) with (52 + Zpos n) by lia. lia. }
  assert (HR' : Zpos M / 2 ^ Zpos n <= R).
  { subst R. unfold round_nearest_even, loc_of_shr_record.
    destruct (Z.testbit _ _), (negb _); try lia.
    destruct (Z.even _); lia. }
  unfold binary_round_aux. unfold shr_fexp at 1. cbn [Zdigits2 shr_record_of_loc].
  rewrite Hd, fexp_normal by lia.
  replace (53 + Zpos n + e - 53 - e) with (Zpos n) by lia.
  cbn [shr]. rewrite iter_pos_iter, shr_iter by lia.
  cbn [shr_m]. fold R.
  destruct R as [| R' | R'] eqn:ER; [lia | | lia].
  rewrite shr_fexp_exact by lia. cbn [shr_m Z.to_pos].
  unfold JS.emax, JS.prec.
  destruct (Z.leb_spec (e + Zpos n) (1024 - 53)); [done | lia].
Qed.

(** Aligning a mantissa to a smaller exponent multiplies it by a power of
    two; to a larger one, it is left alone. *)
Lemma shl_align_spec (m : positive) (e e' : Z) :
  e' <= e ->
  exists m', shl_align m e e' = (m', e') /\ Zpos m' = Zpos m * 2 ^ (e - e').
Proof.
  intros He. unfold shl_align.
  destruct (e' - e) as [| k | k] eqn:E; [| lia |].
  - exists m. replace e' with e by lia. rewrite Z.sub_diag. split; [done | lia].
  - exists (Pos.iter xO m k). split; [done |].
    rewrite iter_xO. do 2 f_equal. lia.
Qed.

Lemma shl_align_none (m : positive) (e e' : Z) :
  e <= e' -> shl_align m e e' = (m, e).
Proof. intros He. unfold shl_align. destruct (e' - e) eqn:E; [done | done | lia]. Qed.

Lemma round_exact (s : bool) (M : positive) (e : Z) :
  2 ^ 52 <= Zpos M < 2 ^ 53 -> -1074 <= e <= 971 ->
  binary_round JS.prec JS.emax s M e = S754_finite s M e.
Proof.
  intros HM He. unfold binary_round.
  assert (Hd : Zpos (digits2_pos M) = 53) by (apply digits2_pos_unique; lia).
  rewrite Hd, fexp_normal by lia.
  rewrite shl_align_none by lia. apply round_aux_exact; done.
Qed.

Lemma round_shift (M : positive) (e : Z) (n : positive) :
  2 ^ (52 + Zpos n) <= Zpos M < 2 ^ (53 + Zpos n) ->
  -1074 <= e + Zpos n <= 971 ->
  let R := round_nearest_even (Zpos M / 2 ^ Zpos n)
             (loc_of_shr_record
                {| shr_m := Zpos M / 2 ^ Zpos n;
                   shr_r := Z.testbit (Zpos M) (Zpos n - 1);
                   shr_s := negb (Zpos M mod 2 ^ (Zpos n - 1) =? 0) |}) in
  R < 2 ^ 53 ->
  binary_round JS.prec JS.emax false M e
  = S754_finite false (Z.to_pos R) (e + Zpos n).
Proof.
  intros HM He R HR. unfold binary_round.
  assert (Hd : Zpos (digits2_pos M) = 53 + Zpos n).
  { apply digits2_pos_unique. replace (53 + Zpos n - 1) with (52 + Zpos n) by lia. done. }
  rewrite Hd, fexp_normal by lia.
  rewrite shl_align_none by lia. apply round_aux_shift; done.
Qed.

(** The canonical form of a positive integer of [d] binary digits. *)
Lemma of_Z_canonical (s : bool) (z d : Z) :
  1 <= d <= 53 -> 2 ^ (d - 1) <= z < 2 ^ d ->
  JS.of_Z (cond_Zopp s z) = S754_finite s (Z.to_pos (z * 2 ^ (53 - d))) (d - 53).
Proof.
  intros Hd Hz.
  assert (0 < 2 ^ (d - 1)) by (apply Z.pow_pos_nonneg; lia).
  destruct z as [| p | p]; [lia | | lia].
  assert (Hdig : Zpos (digits2_pos p) = d) by (apply digits2_pos_unique; done).
  assert (JS.of_Z (cond_Zopp s (Zpos p)) = binary_round JS.prec JS.emax s p 0) as ->.
  { destruct s; done. }
  unfold binary_round. rewrite Hdig, Z.add_0_r, fexp_normal by lia.
  destruct (shl_align_spec p 0 (d - 53) ltac:(lia)) as (m' & -> & Hm').
  replace (0 - (d - 53)) with (53 - d) in Hm' by lia.
  rewrite <- Hm'. cbn [Z.to_pos].
  apply round_aux_exact; [| lia].
  rewrite Hm'.
  assert (E52 : 2 ^ 52 = 2 ^ (d - 1) * 2 ^ (53 - d)).
  { rewrite <- Z.pow_add_r by lia. f_equal. lia. }
  assert (E53 : 2 ^ 53 = 2 ^ d * 2 ^ (53 - d)).
  { rewrite <- Z.pow_add_r by lia. f_equal. lia. }
  rewrite E52, E53.
  assert (0 < 2 ^ (53 - d)) by (apply Z.pow_pos_nonneg; lia).
  split.
  - apply Z.mul_le_mono_nonneg_r; lia.
  - apply Z.mul_lt_mono_pos_r; lia.
Qed.

(** The sum of two positive numbers is the rounding of the exact sum of
    their aligned mantissas. *)
Lemma add_finite (mx my : positive) (ex ey : Z) :
  JS.add (S754_finite false mx ex) (S754_finite false my ey)
  = binary_round JS.prec JS.emax false
      (Z.to_pos (Zpos mx * 2 ^ (ex - Z.min ex ey)
                 + Zpos my * 2 ^ (ey - Z.min ex ey)))
      (Z.min ex ey).
Proof.
  unfold JS.add, SFadd.
  destruct (shl_align_spec mx ex (Z.min ex ey) ltac:(lia)) as (mx' & -> & <-).
  destruct (shl_align_spec my ey (Z.min ex ey) ltac:(lia)) as (my' & -> & <-).
  cbn [fst cond_Zopp]. done.
Qed.

(** [Number.MAX_SAFE_INTEGER / 2] is 2^52 - 1/2, exactly. *)
Lemma half_max_safe :
  JS.div JS.MAX_SAFE_INTEGER (JS.of_Z 2) = S754_finite false (2 ^ 53 - 1) (-1).
Proof. vm_compute. reflexivity. Qed.

(** A tie goes to the even neighbour. *)
Lemma rne_tie (q : Z) :
  round_nearest_even q
    (loc_of_shr_record {| shr_m := q; shr_r := true; shr_s := false |})
  = if Z.even q then q else q + 1.
Proof. reflexivity. Qed.

Lemma round_shift_Z (M e n : Z) :
  0 < n ->
  2 ^ (52 + n) <= M < 2 ^ (53 + n) ->
  -1074 <= e + n <= 971 ->
  let R := round_nearest_even (M / 2 ^ n)
             (loc_of_shr_record
                {| shr_m := M / 2 ^ n;
                   shr_r := Z.testbit M (n - 1);
                   shr_s := negb (M mod 2 ^ (n - 1) =? 0) |}) in
  R < 2 ^ 53 ->
  binary_round JS.prec JS.emax false (Z.to_pos M) e
  = S754_finite false (Z.to_pos R) (e + n).
Proof.
  intros Hn HM He.
  assert (0 < 2 ^ (52 + n)) by (apply Z.pow_pos_nonneg; lia).
  destruct M as [| M | M]; [lia | | lia].
  destruct n as [| n | n]; [lia | | lia].
  cbn [Z.to_pos]. apply round_shift; done.
Qed.

(** Below 2^52 the sum [z + (2^52 - 1/2)] lies half-way between two
    numbers one apart, and goes to the even one. *)
Lemma add_half_small (z : Z) :
  1 <= z < 2 ^ 52 ->
  JS.add (JS.of_Z z) (S754_finite false (2 ^ 53 - 1) (-1))
  = S754_finite false (Z.to_pos (2 ^ 52 + 2 * (z / 2))) 0.
Proof.
  intros Hz.
  set (d := Z.log2 z + 1).
  assert (Hlog : 2 ^ (d - 1) <= z < 2 ^ d).
  { subst d. replace (Z.log2 z + 1 - 1) with (Z.log2 z) by lia.
    replace (Z.log2 z + 1) with (Z.succ (Z.log2 z)) by lia.
    apply Z.log2_spec. lia. }
  assert (Hd : 1 <= d <= 52).
  { subst d. pose proof (Z.log2_nonneg z).
    assert (Z.log2 z < 52) by (apply Z.log2_lt_pow2; lia). lia. }
  pose proof (of_Z_canonical false z d ltac:(lia) Hlog) as Hx. cbn [cond_Zopp] in Hx.
  rewrite Hx, add_finite.
  replace (Z.min (d - 53) (-1)) with (d - 53) by lia.
  replace (d - 53 - (d - 53)) with 0 by lia.
  replace (-1 - (d - 53)) with (52 - d) by lia.
  set (P := 2 ^ (52 - d)).
  assert (HP : 0 < P) by (apply Z.pow_pos_nonneg; lia).
  assert (E2P : 2 ^ (53 - d) = 2 * P).
  { subst P. replace (53 - d) with (Z.succ (52 - d)) by lia.
    rewrite Z.pow_succ_r by lia. done. }
  rewrite E2P, Z2Pos.id by lia.
  set (T := 2 * z + 2 ^ 53 - 1).
  replace (z * (2 * P) * 2 ^ 0 + Z.pos (2 ^ 53 - 1) * P) with (T * P).
  2:{ subst T. change (Z.pos (2 ^ 53 - 1)) with (2 ^ 53 - 1). lia. }
  assert (HT : 2 ^ 53 < T < 2 ^ 54) by (subst T; lia).
  assert (EP1 : 2 ^ (53 - d - 1) = P) by (subst P; f_equal; lia).
  assert (Ediv : T * P / 2 ^ (53 - d) = z + 2 ^ 52 - 1).
  { rewrite E2P, Z.div_mul_cancel_r by lia.
    subst T. symmetry. apply (Z.div_unique_pos _ 2 _ 1); lia. }
  assert (Ebit : Z.testbit (T * P) (53 - d - 1) = true).
  { rewrite testbit_odd_div, EP1, Z.div_mul by lia.
    subst T. replace (2 * z + 2 ^ 53 - 1) with (1 + 2 * (z + 2 ^ 52 - 1)) by lia.
    rewrite Z.odd_add_mul_2. done. }
  assert (Emod : T * P mod 2 ^ (53 - d - 1) = 0).
  { rewrite EP1. apply Z.mod_mul. lia. }
  pose proof (round_shift_Z (T * P) (d - 53) (53 - d) ltac:(lia)) as Hr.
  rewrite Ediv, Ebit, Emod in Hr. cbn [Z.eqb negb] in Hr. rewrite rne_tie in Hr.
  replace (d - 53 + (53 - d)) with 0 in Hr by lia.
  assert (Ev : (if Z.even (z + 2 ^ 52 - 1) then z + 2 ^ 52 - 1 else z + 2 ^ 52 - 1 + 1)
               = 2 ^ 52 + 2 * (z / 2)).
  { replace (z + 2 ^ 52 - 1) with (z + (2 ^ 52 - 1)) by lia.
    rewrite Z.even_add. change (Z.even (2 ^ 52 - 1)) with false.
    pose proof (Z.div_mod z 2 ltac:(lia)) as Hdm.
    rewrite Zmod_even in Hdm. destruct (Z.even z); cbn [Bool.eqb]; lia. }
  rewrite Ev in Hr. apply Hr.
  - replace (52 + (53 - d)) with (53 + (52 - d)) by lia.
    replace (53 + (53 - d)) with (54 + (52 - d)) by lia.
    rewrite !Z.pow_add_r by lia. fold P.
    split; [apply Z.mul_le_mono_nonneg_r | apply Z.mul_lt_mono_pos_r]; lia.
  - lia.
  - pose proof (Z.div_pos z 2 ltac:(lia) ltac:(lia)).
    assert (z / 2 < 2 ^ 51) by (apply Z.div_lt_upper_bound; lia). lia.
Qed.

(** From 2^52 on the sum lies between two numbers two apart. *)
Lemma add_half_large (z : Z) :
  2 ^ 52 < z < 2 ^ 53 ->
  JS.add (JS.of_Z z) (S754_finite false (2 ^ 53 - 1) (-1))
  = S754_finite false (Z.to_pos (2 ^ 51 + z / 2)) 1.
Proof.
  intros Hz.
  pose proof (of_Z_canonical false z 53 ltac:(lia) ltac:(lia)) as Hx.
  cbn [cond_Zopp] in Hx. rewrite Hx, add_finite.
  change (Z.min (53 - 53) (-1)) with (-1).
  change (53 - 53 - -1) with 1. change (-1 - -1) with 0.
  change (53 - 53) with 0.
  rewrite Z2Pos.id by lia.
  set (T := 2 * z + 2 ^ 53 - 1).
  replace (z * 2 ^ 0 * 2 ^ 1 + Z.pos (2 ^ 53 - 1) * 2 ^ 0) with T.
  2:{ subst T. change (Z.pos (2 ^ 53 - 1)) with (2 ^ 53 - 1). lia. }
  pose proof (Z.div_mod z 2 ltac:(lia)) as Hdm.
  assert (Ediv : T / 2 ^ 2 = 2 ^ 51 + z / 2 - Z.b2z (Z.even z)).
  { rewrite Zmod_even in Hdm. subst T. change (2 ^ 2) with 4.
    destruct (Z.even z); cbn [Z.b2z].
    - symmetry. apply (Z.div_unique_pos _ 4 _ 3); lia.
    - symmetry. apply (Z.div_unique_pos _ 4 _ 1); lia. }
  assert (Ebit : Z.testbit T (2 - 1) = Z.even z).
  { rewrite testbit_odd_div by lia. change (2 ^ (2 - 1)) with 2.
    replace (T / 2) with (z + (2 ^ 52 - 1)).
    2:{ subst T. apply (Z.div_unique_pos _ 2 _ 1); lia. }
    rewrite Z.odd_add. change (Z.odd (2 ^ 52 - 1)) with true.
    rewrite <- Z.negb_even. destruct (Z.even z); done. }
  assert (Emod : T mod 2 ^ (2 - 1) = 1).
  { change (2 ^ (2 - 1)) with 2. subst T. symmetry.
    apply (Z.mod_unique_pos _ 2 (z + 2 ^ 52 - 1)); lia. }
  pose proof (round_shift_Z T (-1) 2 ltac:(lia)) as Hr.
  rewrite Ediv, Ebit, Emod in Hr. cbn [Z.eqb negb] in Hr.
  change (-1 + 2) with 1 in Hr.
  assert (Ev : round_nearest_even (2 ^ 51 + z / 2 - Z.b2z (Z.even z))
                 (loc_of_shr_record
                    {| shr_m := 2 ^ 51 + z / 2 - Z.b2z (Z.even z);
                       shr_r := Z.even z; shr_s := true |})
               = 2 ^ 51 + z / 2).
  { destruct (Z.even z); cbn [loc_of_shr_record round_nearest_even Z.b2z]; lia. }
  rewrite Ev in Hr. apply Hr.
  - subst T. change (52 + 2) with 54. change (53 + 2) with 55. lia.
  - lia.
  - assert (z / 2 < 2 ^ 52) by (apply Z.div_lt_upper_bound; lia). lia.
Qed.

(** An even integer of 54 digits is a number. *)
Lemma of_Z_even_54 (v : Z) :
  2 ^ 52 <= v < 2 ^ 53 ->
  JS.of_Z (2 * v) = S754_finite false (Z.to_pos v) 1.
Proof.
  intros Hv. unfold JS.of_Z.
  destruct v as [| p | p]; [lia | | lia].
  change (2 * Z.pos p) with (Z.pos p~0). cbn [binary_normalize].
  pose proof (round_shift_Z (Z.pos p~0) 0 1 ltac:(lia)) as Hr.
  cbn [Z.to_pos] in Hr.
  change (1 - 1) with 0 in Hr. rewrite Z.pow_0_r, Z.mod_1_r in Hr.
  change (2 ^ 1) with 2 in Hr.
  replace (Z.pos p~0 / 2) with (Z.pos p) in Hr.
  2:{ apply (Z.div_unique_pos _ 2 _ 0); lia. }
  change (Z.testbit (Z.pos p~0) 0) with false in Hr.
  cbn in Hr. apply Hr; lia.
Qed.

(** What [Math.floor(seqId + Number.MAX_SAFE_INTEGER / 2)] evaluates to on
    the positive safe integers. *)
Lemma floor_add_half (z : Z) :
  1 <= z < 2 ^ 53 ->
  JS.floor (JS.add (JS.of_Z z) (JS.div JS.MAX_SAFE_INTEGER (JS.of_Z 2)))
  = JS.of_Z (2 ^ 52 + 2 * (z / 2)).
Proof.
  intros Hz. rewrite half_max_safe.
  destruct (Z.lt_trichotomy z (2 ^ 52)) as [Hlt | [-> | Hgt]].
  - rewrite add_half_small by lia. cbn [JS.floor Z.leb Z.compare].
    assert (z / 2 < 2 ^ 51) by (apply Z.div_lt_upper_bound; lia).
    pose proof (Z.div_pos z 2 ltac:(lia) ltac:(lia)).
    pose proof (of_Z_canonical false (2 ^ 52 + 2 * (z / 2)) 53 ltac:(lia) ltac:(lia)) as Hx.
    cbn [cond_Zopp] in Hx. rewrite Hx. change (53 - 53) with 0.
    rewrite Z.pow_0_r, Z.mul_1_r. done.
  - vm_compute. reflexivity.
  - rewrite add_half_large by lia. cbn [JS.floor Z.leb Z.compare].
    replace (2 ^ 52 + 2 * (z / 2)) with (2 * (2 ^ 51 + z / 2)) by lia.
    assert (z / 2 < 2 ^ 52) by (apply Z.div_lt_upper_bound; lia).
    assert (2 ^ 51 <= z / 2) by (apply Z.div_le_lower_bound; lia).
    rewrite of_Z_even_54 by lia. done.
Qed.

Lemma floor_add_half_0 :
  JS.floor (JS.add (JS.of_Z 0) (JS.div JS.MAX_SAFE_INTEGER (JS.of_Z 2)))
  = JS.of_Z (2 ^ 52 - 1).
Proof. vm_compute. reflexivity. Qed.

(** [ret < 0] on the safe integers. *)
Lemma ltb_of_Z_0 (z : Z) :
  - 2 ^ 53 < z < 2 ^ 53 -> JS.ltb (JS.of_Z z) (JS.of_Z 0) = (z <? 0).
Proof.
  intros Hz.
  destruct (Z.lt_trichotomy z 0) as [Hlt | [-> | Hgt]].
  - set (a := - z). set (d := Z.log2 a + 1).
    assert (Hlog : 2 ^ (d - 1) <= a < 2 ^ d).
    { subst d. replace (Z.log2 a + 1 - 1) with (Z.log2 a) by lia.
      replace (Z.log2 a + 1) with (Z.succ (Z.log2 a)) by lia.
      apply Z.log2_spec. lia. }
    assert (Hd : 1 <= d <= 53).
    { subst d. pose proof (Z.log2_nonneg a).
      assert (Z.log2 a < 53) by (apply Z.log2_lt_pow2; lia). lia. }
    pose proof (of_Z_canonical true a d Hd Hlog) as Hx. cbn [cond_Zopp] in Hx.
    replace (- a) with z in Hx by lia. rewrite Hx.
    destruct (Z.ltb_spec z 0); [done | lia].
  - done.
  - set (d := Z.log2 z + 1).
    assert (Hlog : 2 ^ (d - 1) <= z < 2 ^ d).
    { subst d. replace (Z.log2 z + 1 - 1) with (Z.log2 z) by lia.
      replace (Z.log2 z + 1) with (Z.succ (Z.log2 z)) by lia.
      apply Z.log2_spec. lia. }
    assert (Hd : 1 <= d <= 53).
    { subst d. pose proof (Z.log2_nonneg z).
      assert (Z.log2 z < 53) by (apply Z.log2_lt_pow2; lia). lia. }
    pose proof (of_Z_canonical false z d Hd Hlog) as Hx. cbn [cond_Zopp] in Hx.
    rewrite Hx. destruct (Z.ltb_spec z 0); [lia | done].
Qed.

(** The safe integers are represented exactly. *)
Lemma to_Z_of_Z (z : Z) :
  - 2 ^ 53 < z < 2 ^ 53 -> JS.to_Z (JS.of_Z z) = Some z.
Proof.
  intros Hz.
  assert (Hpos : forall (s : bool) (a : Z), 0 < a < 2 ^ 53 ->
            JS.to_Z (JS.of_Z (cond_Zopp s a)) = Some (cond_Zopp s a)).
  { intros s a Ha. set (d := Z.log2 a + 1).
    assert (Hlog : 2 ^ (d - 1) <= a < 2 ^ d).
    { subst d. replace (Z.log2 a + 1 - 1) with (Z.log2 a) by lia.
      replace (Z.log2 a + 1) with (Z.succ (Z.log2 a)) by lia.
      apply Z.log2_spec. lia. }
    assert (Hd : 1 <= d <= 53).
    { subst d. pose proof (Z.log2_nonneg a).
      assert (Z.log2 a < 53) by (apply Z.log2_lt_pow2; lia). lia. }
    rewrite (of_Z_canonical s a d Hd Hlog). unfold JS.to_Z.
    assert (HP : 0 < 2 ^ (53 - d)) by (apply Z.pow_pos_nonneg; lia).
    rewrite Z2Pos.id by lia.
    destruct (Z.leb_spec 0 (d - 53)) as [H0 | H0].
    - replace d with 53 by lia. change (2 ^ (53 - 53)) with 1.
      f_equal. destruct s; cbn [cond_Zopp]; lia.
    - replace (- (d - 53)) with (53 - d) by lia.
      rewrite Z.mod_mul by lia. cbn [Z.eqb]. f_equal.
      destruct s; cbn [cond_Zopp].
      + rewrite <- Z.mul_opp_l. apply Z.div_mul. lia.
      + apply Z.div_mul. lia. }
  destruct (Z.lt_trichotomy z 0) as [Hlt | [-> | Hgt]].
  - specialize (Hpos true (- z) ltac:(lia)). cbn [cond_Zopp] in Hpos.
    rewrite Z.opp_involutive in Hpos. done.
  - done.
  - exact (Hpos false z ltac:(lia)).
Qed.

(** So are the even integers of 54 digits. *)
Lemma to_Z_of_Z_even_54 (v : Z) :
  2 ^ 52 <= v < 2 ^ 53 -> JS.to_Z (JS.of_Z (2 * v)) = Some (2 * v).
Proof.
  intros Hv. rewrite of_Z_even_54 by done. unfold JS.to_Z.
  cbn [Z.leb Z.compare cond_Zopp]. rewrite Z2Pos.id by lia.
  f_equal. change (2 ^ 1) with 2. lia.
Qed.

End JSFacts.

(** ** The publisher worker *)
Module SenderFacts.

(** [id in obj] fails exactly for an id that [obj] neither has nor
    inherits. *)
Lemma not_in_object {A} (obj : gmap string A) (id : string) :
  bool_decide (is_Some (obj !! id)) || inherited id = false
  <-> obj !! id = None /\ inherited id = false.
Proof.
  rewrite orb_false_iff, bool_decide_eq_false, <- eq_None_not_Some. done.
Qed.

Import Sender.

(** *** The send order *)

Lemma moqCalculateSendOrder_negative (tracks : Tracks) (packet : Packet) (z : Z) :
  seqId packet = JS.of_Z z -> (- 2 ^ 53 < z < 0)%Z ->
  moqCalculateSendOrder tracks packet = Some JS.MAX_SAFE_INTEGER.
Proof.
  intros Hseq Hz. unfold moqCalculateSendOrder.
  rewrite Hseq, JSFacts.ltb_of_Z_0 by lia.
  destruct (Z.ltb_spec z 0); [done | lia].
Qed.

Lemma moqCalculateSendOrder_lopri (tracks : Tracks) (packet : Packet)
    (track : Track.Data) (z : Z) :
  seqId packet = JS.of_Z z -> (0 <= z < 2 ^ 53)%Z ->
  tracks_get tracks (mediaType packet) = Some track ->
  Track.isHipri track = false ->
  moqCalculateSendOrder tracks packet = Some (JS.of_Z z).
Proof.
  intros Hseq Hz Htrack Hpri. unfold moqCalculateSendOrder.
  rewrite Hseq, JSFacts.ltb_of_Z_0 by lia.
  destruct (Z.ltb_spec z 0); [lia |].
  rewrite Htrack, Hpri. done.
Qed.

(** On a high-priority track the sum is rounded to an even mantissa before
    [Math.floor] sees it: every positive [seqId] lands on 2^52 plus the
    even number at or just below it. *)
Lemma moqCalculateSendOrder_hipri (tracks : Tracks) (packet : Packet)
    (track : Track.Data) (z : Z) :
  seqId packet = JS.of_Z z -> (1 <= z < 2 ^ 53)%Z ->
  tracks_get tracks (mediaType packet) = Some track ->
  Track.isHipri track = true ->
  moqCalculateSendOrder tracks packet = Some (JS.of_Z (2 ^ 52 + 2 * (z / 2))).
Proof.
  intros Hseq Hz Htrack Hpri. unfold moqCalculateSendOrder.
  rewrite Hseq, JSFacts.ltb_of_Z_0 by lia.
  destruct (Z.ltb_spec z 0); [lia |].
  rewrite Htrack, Hpri, JSFacts.floor_add_half by lia. done.
Qed.

Lemma moqCalculateSendOrder_hipri_0 (tracks : Tracks) (packet : Packet)
    (track : Track.Data) :
  seqId packet = JS.of_Z 0 ->
  tracks_get tracks (mediaType packet) = Some track ->
  Track.isHipri track = true ->
  moqCalculateSendOrder tracks packet = Some (JS.of_Z (2 ^ 52 - 1)).
Proof.
  intros Hseq Htrack Hpri. unfold moqCalculateSendOrder.
  rewrite Hseq, Htrack, Hpri, JSFacts.floor_add_half_0. done.
Qed.

(** C3, as stated, fails: for a negative [seqId] the send order is
    [Number.MAX_SAFE_INTEGER], which does not denote U64_MAX. *)
Lemma sendOrder_negative_is_not_U64_MAX :
  ~ exists r,
      moqCalculateSendOrder sample_tracks (sample_packet "video" (-1) "key" "a")
      = Some r
      /\ JS.to_Z r = Some JS.U64_MAX.
Proof.
  intros (r & Hr & Hv). vm_compute in Hr. injection Hr as <-.
  vm_compute in Hv. discriminate Hv.
Qed.

(** C3 (amended).  For a packet whose [seqId] is the safe integer [z]:
    if [z < 0] the send order is [Number.MAX_SAFE_INTEGER] = 2^53 - 1;
    otherwise, on a track that is not high-priority it is [z]; and on a
    high-priority track it is [z + floor(MAX_SAFE/2)] when [z] is 0 or
    odd. *)
Theorem sendOrder_cases (tracks : Tracks) (packet : Packet)
    (track : Track.Data) (z : Z) :
  seqId packet = JS.of_Z z ->
  (- 2 ^ 53 < z < 2 ^ 53)%Z ->
  tracks_get tracks (mediaType packet) = Some track ->
  ((z < 0)%Z ->
     moqCalculateSendOrder tracks packet = Some (JS.of_Z JS.MAX_SAFE))
  /\ ((0 <= z)%Z -> Track.isHipri track = false ->
        moqCalculateSendOrder tracks packet = Some (JS.of_Z z))
  /\ ((0 <= z)%Z -> Track.isHipri track = true ->
        z = 0%Z \/ Z.odd z = true ->
        moqCalculateSendOrder tracks packet
        = Some (JS.of_Z (z + JS.MAX_SAFE / 2))).
Proof.
  intros Hseq Hz Htrack. repeat split.
  - intros Hneg. apply (moqCalculateSendOrder_negative _ _ z); [done | lia].
  - intros Hpos Hpri. apply (moqCalculateSendOrder_lopri _ _ track z); [done | lia | done..].
  - intros Hpos Hpri [-> | Hodd].
    + apply (moqCalculateSendOrder_hipri_0 _ _ track); done.
    + assert (z <> 0%Z) by (intros ->; discriminate Hodd).
      rewrite (moqCalculateSendOrder_hipri _ _ track z) by (done || lia).
      do 2 f_equal. change (JS.MAX_SAFE / 2)%Z with (2 ^ 52 - 1)%Z.
      pose proof (Z.div_mod z 2 ltac:(lia)) as Hdm.
      rewrite Zmod_odd, Hodd in Hdm. lia.
Qed.

Lemma sendOrder_cases_witness :
  moqCalculateSendOrder sample_tracks (sample_packet "audio" 1 "key" "a")
  = Some (JS.of_Z (1 + JS.MAX_SAFE / 2)).
Proof.
  apply (sendOrder_cases sample_tracks (sample_packet "audio" 1 "key" "a")
           (sample_track 0 "audio" true 100) 1);
    [reflexivity | lia | reflexivity | lia | reflexivity | right; reflexivity].
Defined.

(** The part of C4 that holds: at the same non-negative [seqId], the send
    order on a high-priority track denotes a greater integer than the one
    on a track that is not. *)
Lemma sendOrder_hipri_above_lopri (tracks : Tracks) (hi lo : Packet)
    (audio video : Track.Data) (z : Z) :
  seqId hi = JS.of_Z z -> seqId lo = JS.of_Z z -> (0 <= z < 2 ^ 53)%Z ->
  tracks_get tracks (mediaType hi) = Some audio -> Track.isHipri audio = true ->
  tracks_get tracks (mediaType lo) = Some video -> Track.isHipri video = false ->
  exists a v,
    JS.to_Z <$> moqCalculateSendOrder tracks hi = Some (Some a)
    /\ JS.to_Z <$> moqCalculateSendOrder tracks lo = Some (Some v)
    /\ (v < a)%Z.
Proof.
  intros Hhi Hlo Hz Haudio Hpri Hvideo Hnot.
  rewrite (moqCalculateSendOrder_lopri tracks lo video z) by done.
  cbn [fmap option_fmap option_map]. rewrite JSFacts.to_Z_of_Z by lia.
  destruct (Z.eq_dec z 0%Z) as [-> | Hnz].
  - rewrite (moqCalculateSendOrder_hipri_0 tracks hi audio) by done.
    cbn [fmap option_fmap option_map]. rewrite JSFacts.to_Z_of_Z by lia.
    eexists _, _. split; [done |]. split; [done |]. lia.
  - rewrite (moqCalculateSendOrder_hipri tracks hi audio z) by (done || lia).
    cbn [fmap option_fmap option_map].
    pose proof (Z.div_pos z 2 ltac:(lia) ltac:(lia)).
    assert (z / 2 < 2 ^ 52)%Z by (apply Z.div_lt_upper_bound; lia).
    assert (z <= 2 * (z / 2) + 1)%Z.
    { pose proof (Z.div_mod z 2 ltac:(lia)).
      pose proof (Z.mod_pos_bound z 2 ltac:(lia)). lia. }
    destruct (Z_lt_le_dec (2 ^ 52 + 2 * (z / 2)) (2 ^ 53)) as [Hsmall | Hlarge].
    + rewrite JSFacts.to_Z_of_Z by lia.
      eexists _, _. split; [done |]. split; [done |]. lia.
    + replace (2 ^ 52 + 2 * (z / 2))%Z with (2 * (2 ^ 51 + z / 2))%Z by lia.
      rewrite JSFacts.to_Z_of_Z_even_54 by lia.
      eexists _, _. split; [done |]. split; [done |]. lia.
Qed.

(** C4, evaluated where it fails: two consecutive chunks of the
    high-priority track, [seqId] 2 and 3, get the same send order
    4503599627370498, so the later one is not ranked above the earlier. *)
Lemma sendOrder_hipri_2_3_collide :
  moqCalculateSendOrder sample_tracks (sample_packet "audio" 2 "key" "a")
  = Some (JS.of_Z 4503599627370498)
  /\ moqCalculateSendOrder sample_tracks (sample_packet "audio" 3 "key" "b")
     = Some (JS.of_Z 4503599627370498)
  /\ JS.ltb (JS.of_Z 4503599627370498) (JS.of_Z 4503599627370498) = false.
Proof. vm_compute. repeat split. Qed.

(** *** The in-flight requests *)

(** A chunk that finds the object of its track full is dropped, nothing
    is registered and nothing else changes. *)
Lemma sendChunkToTransport_full (chunkData : ChunkData)
    (requests : gmap string Promise) (max : N) (σ : Engine) :
  (max <= N.of_nat (inflight_length requests))%N ->
  sendChunkToTransport (Some chunkData) requests max σ
  = (σ, Dropped "too many inflight requests").
Proof.
  intros Hfull. unfold sendChunkToTransport.
  destruct (N.leb_spec max (N.of_nat (inflight_length requests))); [done | lia].
Qed.

(** C1, evaluated where it fails.  The video track admits one request in
    flight.  Two video chunks arrive while the stream of the first is still
    being opened: both pass the check, since the object of the track is
    still empty, and once both streams are open the object holds two
    entries; no chunk was dropped. *)
Lemma inflight_bound_exceeded :
  let σ := run subscribed overlapping in
  Track.maxInFlightRequests <$> tracks_get (tracks σ) "video" = Some 1%N
  /\ inflight_length <$> inFlightRequests σ !! "video" = Some 2
  /\ filter is_dropped (toMain σ) = [].
Proof. vm_compute. repeat split. Qed.

(** C9, evaluated where it fails: with the tracks "audio" and "video" and
    one pending close on "audio", the array holds that promise twice. *)
Lemma getAllInflightRequestsArray_duplicates :
  let σ := run subscribed one_in_flight in
  object_values <$> inFlightRequests σ !! "audio"
  = Some [{| p_id := "a"; stream := 0 |}]
  /\ object_values <$> inFlightRequests σ !! "video" = Some []
  /\ getAllInflightRequestsArray σ
     = Some [{| p_id := "a"; stream := 0 |}; {| p_id := "a"; stream := 0 |}].
Proof. vm_compute. repeat split. Qed.

(** *** The first object of a track *)

Lemma moqCalculateSendOrder_defined (tracks : Tracks) (packet : Packet)
    (track : Track.Data) :
  tracks_get tracks (mediaType packet) = Some track ->
  is_Some (moqCalculateSendOrder tracks packet).
Proof.
  intros Htrack. unfold moqCalculateSendOrder. rewrite Htrack.
  destruct (JS.ltb _ _); [done |]. destruct (Track.isHipri track); done.
Qed.

Lemma createRequest_packet_mediaType (chunkData : ChunkData) :
  mediaType (createRequest_packet chunkData) = cd_mediaType chunkData.
Proof. unfold createRequest_packet. by destruct (String.eqb _ "data"). Qed.

Lemma createRequest_packet_chunkType (chunkData : ChunkData) :
  chunkType (createRequest_packet chunkData)
  = if String.eqb (cd_mediaType chunkData) "data" then "key"
    else chunk_type (cd_chunk chunkData).
Proof. unfold createRequest_packet. by destruct (String.eqb _ "data"). Qed.

Lemma createRequest_packet_dataStr (chunkData : ChunkData) :
  dataStr (createRequest_packet chunkData) = chunk_str (cd_chunk chunkData).
Proof. unfold createRequest_packet. by destruct (String.eqb _ "data"). Qed.

(** C5.  When the transport is open and the track of the packet has no
    publisher state: a delta packet is dropped because the first object can
    not be a delta, and the worker is left as it was (no state is created,
    no stream is asked for); any other packet creates the state
    [{currentGroupSeq: 0, currentObjectSeq: 0}] and goes on to open its
    stream.  The last part reads the same off the worker after the
    listener has handled the message of the chunk: the packet is that of
    the chunk, of type "key" on the "data" track and of the type of the
    chunk elsewhere; for a delta the host is told of the drop, the track
    still has no state and no call waits for a stream; otherwise the
    state of the track reads [{0, 0}] and one call waits. *)
Theorem first_object_must_be_key (packet : Packet) (σ : Engine)
    (track : Track.Data) :
  wt σ = true ->
  tracks_get (tracks σ) (mediaType packet) = Some track ->
  moqPublisherState σ !! Track.id track = None ->
  (chunkType packet = "delta" ->
     createSendPromise packet σ
     = (σ, Dropped ("Dropped chunk because first object can not be delta, data: "
                      ++ dataStr packet)))
  /\ (chunkType packet <> "delta" ->
        exists call,
          s_packet call = packet /\ s_trackId call = Track.id track
          /\ createSendPromise packet σ
             = (set_awaiting (awaiting σ ++ [call])%list
                  (set_moqPublisherState
                     (<[Track.id track := {| currentGroupSeq := 0;
                                            currentObjectSeq := 0 |}]>
                        (moqPublisherState σ)) σ),
                Awaiting call))
  /\ (chunkType packet = "delta" ->
        moqPublisherState (createSendPromise packet σ).1 !! Track.id track = None
        /\ moqPublisherState (createSendPromise packet σ).1 = moqPublisherState σ
        /\ awaiting (createSendPromise packet σ).1 = awaiting σ
        /\ streams (createSendPromise packet σ).1 = streams σ
        /\ objects (createSendPromise packet σ).1 = objects σ)
  /\ (chunkType packet <> "delta" ->
        moqPublisherState (createSendPromise packet σ).1 !! Track.id track
        = Some {| currentGroupSeq := 0; currentObjectSeq := 0 |}
        /\ (forall i, i <> Track.id track ->
              moqPublisherState (createSendPromise packet σ).1 !! i
              = moqPublisherState σ !! i)
        /\ (exists call,
              (createSendPromise packet σ).2 = Awaiting call
              /\ s_packet call = packet /\ s_trackId call = Track.id track
              /\ awaiting (createSendPromise packet σ).1
                 = (awaiting σ ++ [call])%list)
        /\ streams (createSendPromise packet σ).1 = streams σ
        /\ objects (createSendPromise packet σ).1 = objects σ)
  /\ (forall (e : MessageData) (env : IniEnv) (requests : gmap string Promise)
             (n : N),
        packet = createRequest_packet
                   {| cd_mediaType := type e;
                      cd_seqId := default (JS.of_Z 0) (msg_seqId e);
                      cd_chunk := chunk e |} ->
        workerState σ = Running ->
        type e <> "stop" -> type e <> "muxersendini" ->
        Track.numSubscribers track = Some n -> (0 < n)%N ->
        inFlightRequests σ !! type e = Some requests ->
        (N.of_nat (inflight_length requests) < Track.maxInFlightRequests track)%N ->
        let σ' := listener e env σ in
        let stats := if isSendingStats σ
                     then [SendStats (getInflightRequestsReport σ)] else [] in
        mediaType packet = type e
        /\ chunkType packet = (if String.eqb (type e) "data" then "key"
                               else chunk_type (chunk e))
        /\ (chunkType packet = "delta" ->
              moqPublisherState σ' !! Track.id track = None
              /\ awaiting σ' = awaiting σ
              /\ streams σ' = streams σ /\ objects σ' = objects σ
              /\ toMain σ'
                 = (toMain σ ++ stats
                      ++ [DroppedChunk (Some (default (JS.of_Z 0) (msg_seqId e)))
                            ("Dropped chunk because first object can not be delta, data: "
                               ++ chunk_str (chunk e))])%list)
        /\ (chunkType packet <> "delta" ->
              moqPublisherState σ' !! Track.id track
              = Some {| currentGroupSeq := 0; currentObjectSeq := 0 |}
              /\ (exists call,
                    s_packet call = packet /\ s_trackId call = Track.id track
                    /\ awaiting σ' = (awaiting σ ++ [call])%list)
              /\ streams σ' = streams σ /\ objects σ' = objects σ
              /\ toMain σ' = (toMain σ ++ stats)%list)).
Proof.
  intros Hwt Htrack Hstate.
  assert (Hdelta : chunkType packet = "delta" ->
            createSendPromise packet σ
            = (σ, Dropped ("Dropped chunk because first object can not be delta, data: "
                             ++ dataStr packet))).
  { intros E. unfold createSendPromise.
    rewrite Hwt, Htrack, Hstate, E. cbn [negb].
    rewrite bool_decide_eq_false_2 by (intros [? ?]; done). done. }
  assert (Hkey : chunkType packet <> "delta" ->
            exists call,
              s_packet call = packet /\ s_trackId call = Track.id track
              /\ createSendPromise packet σ
                 = (set_awaiting (awaiting σ ++ [call])%list
                      (set_moqPublisherState
                         (<[Track.id track := {| currentGroupSeq := 0;
                                                currentObjectSeq := 0 |}]>
                            (moqPublisherState σ)) σ),
                    Awaiting call)).
  { intros E. unfold createSendPromise.
    rewrite Hwt, Htrack, Hstate. cbn [negb].
    rewrite bool_decide_eq_false_2 by (intros [? ?]; done). cbn [negb andb].
    destruct (String.eqb_spec (chunkType packet) "delta") as [E' | _]; [done |].
    cbn [tracks set_moqPublisherState].
    destruct (moqCalculateSendOrder_defined (tracks σ) packet track Htrack)
      as [sendOrder ->].
    eexists. split; [| split]; [| | reflexivity]; done. }
  split; [exact Hdelta |]. split; [exact Hkey |]. split; [| split].
  - intros E. rewrite (Hdelta E). cbn [fst]. done.
  - intros E. destruct (Hkey E) as (call & Hp & Hi & ->). cbn.
    split; [by rewrite lookup_insert_eq |].
    split; [intros i Hi'; by rewrite lookup_insert_ne |].
    split; [| done]. by exists call.
  - intros e env requests n Hpacket Hrun Hstop Hini Hsubs Hn Hreq Hroom. cbv zeta.
    assert (Hmedia : mediaType packet = type e)
      by (by rewrite Hpacket, createRequest_packet_mediaType).
    assert (Hstr : dataStr packet = chunk_str (chunk e))
      by (by rewrite Hpacket, createRequest_packet_dataStr).
    split; [exact Hmedia |].
    split; [by rewrite Hpacket, createRequest_packet_chunkType |].
    apply String.eqb_neq in Hstop, Hini.
    assert (Hlistener :
              listener e env σ
              = let '(σ1, res) := createSendPromise packet σ in
                let σ2 := if isSendingStats σ1
                          then emit (SendStats (getInflightRequestsReport σ1)) σ1
                          else σ1 in
                match res with
                | Dropped message =>
                    emit (DroppedChunk (Some (default (JS.of_Z 0) (msg_seqId e)))
                            message) σ2
                | Thrown message =>
                    report_rejected (default (JS.of_Z 0) (msg_seqId e)) message σ2
                | Awaiting _ => σ2
                end).
    { unfold listener. rewrite Hrun. cbn [StateEnum_eqb].
      rewrite Hrun. cbn [StateEnum_eqb]. rewrite Hstop, Hini.
      unfold listener_chunk. rewrite Hrun. cbn [StateEnum_eqb negb].
      rewrite <- Hmedia, Htrack, Hsubs.
      replace (n <=? 0)%N with false by (symmetry; apply N.leb_gt; lia).
      rewrite Hmedia, Hreq. unfold sendChunkToTransport.
      replace (Track.maxInFlightRequests track
               <=? N.of_nat (inflight_length requests))%N
        with false by (symmetry; apply N.leb_gt; lia).
      unfold createRequest. by rewrite <- Hpacket. }
    split.
    + intros E. rewrite Hlistener, (Hdelta E), Hstr.
      destruct (isSendingStats σ); cbn; rewrite <- ?(assoc_L (++)); done.
    + intros E. rewrite Hlistener. destruct (Hkey E) as (call & Hp & Hi & ->).
      cbn [isSendingStats set_awaiting set_moqPublisherState].
      destruct (isSendingStats σ); cbn.
      * split; [by rewrite lookup_insert_eq |].
        split; [by exists call |]. done.
      * split; [by rewrite lookup_insert_eq |].
        split; [by exists call |]. rewrite ?app_nil_r. done.
Qed.

Lemma first_object_must_be_key_witness :
  createSendPromise (sample_packet "video" 0 "delta" "a") subscribed
  = (subscribed,
     Dropped "Dropped chunk because first object can not be delta, data: a")
  /\ moqPublisherState
       (listener (chunk_message "video" 0 "delta" "a") relay subscribed) !! 1%N
     = None
  /\ toMain (listener (chunk_message "video" 0 "delta" "a") relay subscribed)
     = (toMain subscribed
          ++ [DroppedChunk (Some (JS.of_Z 0))
                "Dropped chunk because first object can not be delta, data: a"])%list.
Proof.
  assert (Hwt : wt subscribed = true) by (vm_compute; reflexivity).
  assert (Htrack : tracks_get (tracks subscribed)
                     (mediaType (sample_packet "video" 0 "delta" "a"))
                   = Some (Track.set_numSubscribers (Some 1%N)
                             (sample_track 1 "video" false 1)))
    by (vm_compute; reflexivity).
  assert (Hstate : moqPublisherState subscribed
                     !! Track.id (Track.set_numSubscribers (Some 1%N)
                                    (sample_track 1 "video" false 1))
                   = None)
    by (vm_compute; reflexivity).
  destruct (first_object_must_be_key (sample_packet "video" 0 "delta" "a")
              subscribed
              (Track.set_numSubscribers (Some 1%N)
                 (sample_track 1 "video" false 1))
              Hwt Htrack Hstate)
    as (Hdelta & _ & _ & _ & Hmessage).
  split; [exact (Hdelta eq_refl) |].
  assert (Hrun : workerState subscribed = Running) by (vm_compute; reflexivity).
  assert (Hreq : inFlightRequests subscribed
                   !! type (chunk_message "video" 0 "delta" "a") = Some ∅)
    by (vm_compute; reflexivity).
  destruct (Hmessage (chunk_message "video" 0 "delta" "a") relay ∅ 1%N
              eq_refl Hrun ltac:(discriminate) ltac:(discriminate)
              eq_refl ltac:(lia) Hreq ltac:(vm_compute; reflexivity))
    as (_ & _ & Hdropped & _).
  destruct (Hdropped eq_refl) as (Hnone & _ & _ & _ & Hmain).
  split; [exact Hnone | exact Hmain].
Defined.

(** *** The subscription loop *)

Lemma getTrack_spec (tracks : Tracks) (namespace trackName : string)
    (i : nat) (track : Track.Data) :
  getTrack tracks namespace trackName = Some (i, track) ->
  Track.namespace track = namespace /\ Track.name track = trackName
  /\ exists key, tracks !! i = Some (key, track).
Proof.
  revert i. induction tracks as [| [key td] rest IH]; intros i; cbn [getTrack].
  - done.
  - destruct (String.eqb_spec (Track.namespace td) namespace) as [E1 | E1];
      [destruct (String.eqb_spec (Track.name td) trackName) as [E2 | E2] |];
      cbn [andb].
    + intros [= <- <-]. eauto.
    + destruct (getTrack rest namespace trackName) as [[j t] |] eqn:E; [| done].
      cbn. intros [= <- <-]. destruct (IH j eq_refl) as (? & ? & k & ?). eauto.
    + destruct (getTrack rest namespace trackName) as [[j t] |] eqn:E; [| done].
      cbn. intros [= <- <-]. destruct (IH j eq_refl) as (? & ? & k & ?). eauto.
Qed.

Lemma authInfo_differs_false (track : Track.Data) (subscribe : Subscribe) :
  authInfo_differs track subscribe = false
  <-> sub_authInfo subscribe = Some (Track.authInfo track).
Proof.
  unfold authInfo_differs. destruct (sub_authInfo subscribe) as [a |]; [| done].
  destruct (String.eqb_spec (Track.authInfo track) a) as [-> | Hne]; cbn.
  - done.
  - split; [done | intros [= ->]; done].
Qed.

(** The entry that [getTrack] finds is found again once a subscriber was
    added to it. *)
Lemma getTrack_add_subscriber (tracks : Tracks) (namespace trackName : string)
    (i : nat) (track : Track.Data) :
  getTrack tracks namespace trackName = Some (i, track) ->
  getTrack (alter (prod_map id add_subscriber) i tracks) namespace trackName
  = Some (i, add_subscriber track).
Proof.
  revert i. induction tracks as [| [key td] rest IH]; intros i; cbn [getTrack].
  - done.
  - destruct (String.eqb (Track.namespace td) namespace
              && String.eqb (Track.name td) trackName) eqn:E.
    + intros [= <- <-]. cbn. by rewrite E.
    + destruct (getTrack rest namespace trackName) as [[j t] |] eqn:Eg; [| done].
      cbn. intros [= <- <-]. cbn. rewrite E, (IH j eq_refl). done.
Qed.

(** C6.  For a SUBSCRIBE_REQUEST whose namespace and name select a
    configured track: if its authInfo is not the track's, the tracks and
    the control stream are left as they were and one error event is
    emitted; if it is, [numSubscribers] of that track goes up by one (to 1
    if it was absent), no other track changes, and the response written is
    SUBSCRIBE_RESPONSE(namespace, trackName, track.id, expires = 0).  The
    last two parts read the same off the tracks of the worker after the
    request: what [getTrack] finds then, its [numSubscribers] and its
    other fields. *)
Theorem subscribe_request_handling (subscribe : Subscribe) (σ : Engine)
    (i : nat) (track : Track.Data) :
  getTrack (tracks σ) (sub_namespace subscribe) (sub_trackName subscribe)
  = Some (i, track) ->
  let σ' := subscriptionLoop_body subscribe σ in
  (sub_authInfo subscribe <> Some (Track.authInfo track) ->
     tracks σ' = tracks σ /\ control σ' = control σ
     /\ exists text, toMain σ' = (toMain σ ++ [Error text])%list)
  /\ (sub_authInfo subscribe = Some (Track.authInfo track) ->
        (exists key,
            tracks σ !! i = Some (key, track)
            /\ tracks σ'
               = <[i := (key,
                         Track.set_numSubscribers
                           (Some (match Track.numSubscribers track with
                                  | Some n => n + 1
                                  | None => 1
                                  end)%N) track)]> (tracks σ))
        /\ control σ'
           = (control σ
                ++ [SUBSCRIBE_RESPONSE (sub_namespace subscribe)
                      (sub_trackName subscribe) (Track.id track) 0])%list)
  /\ (sub_authInfo subscribe <> Some (Track.authInfo track) ->
        getTrack (tracks σ') (sub_namespace subscribe) (sub_trackName subscribe)
        = Some (i, track)
        /\ (forall j, tracks σ' !! j = tracks σ !! j)
        /\ toMain σ'
           = (toMain σ
                ++ [Error ("Invalid subscribe authInfo "
                             ++ default "undefined" (sub_authInfo subscribe)
                             ++ " does not match with ")])%list)
  /\ (sub_authInfo subscribe = Some (Track.authInfo track) ->
        (exists key track',
            tracks σ !! i = Some (key, track)
            /\ tracks σ' !! i = Some (key, track')
            /\ getTrack (tracks σ') (sub_namespace subscribe)
                 (sub_trackName subscribe)
               = Some (i, track')
            /\ (forall n, Track.numSubscribers track = Some n ->
                  Track.numSubscribers track' = Some (n + 1)%N)
            /\ (Track.numSubscribers track = None ->
                  Track.numSubscribers track' = Some 1%N)
            /\ Track.id track' = Track.id track
            /\ Track.namespace track' = Track.namespace track
            /\ Track.name track' = Track.name track
            /\ Track.authInfo track' = Track.authInfo track
            /\ Track.isHipri track' = Track.isHipri track
            /\ Track.maxInFlightRequests track'
               = Track.maxInFlightRequests track)
        /\ (forall j, j <> i -> tracks σ' !! j = tracks σ !! j)
        /\ length (tracks σ') = length (tracks σ)
        /\ toMain σ'
           = (toMain σ
                ++ [Info ("New subscriber for track " ++ sub_namespace subscribe
                            ++ "/" ++ sub_trackName subscribe
                            ++ ". AuthInfo MATCHED!")])%list).
Proof.
  intros Hget σ'. subst σ'. unfold subscriptionLoop_body. rewrite Hget.
  destruct (getTrack_spec _ _ _ _ _ Hget) as (_ & _ & key & Hkey).
  split; [| split; [| split]].
  - intros Hne.
    destruct (authInfo_differs track subscribe) eqn:E.
    + cbn. eauto.
    + apply authInfo_differs_false in E. done.
  - intros Heq. apply authInfo_differs_false in Heq as E. rewrite E.
    cbn [tracks control write_control emit set_tracks]. split; [| done].
    exists key. split; [done |].
    apply list_eq. intros j. destruct (decide (j = i)) as [-> | Hji].
    + rewrite list_lookup_alter, Hkey.
      rewrite list_lookup_insert_eq by (eapply lookup_lt_Some; done).
      unfold add_subscriber. cbn. rewrite decide_True by done.
      destruct (Track.numSubscribers track); done.
    + rewrite list_lookup_alter_ne, list_lookup_insert_ne by done. done.
  - intros Hne.
    destruct (authInfo_differs track subscribe) eqn:E.
    + cbn. done.
    + apply authInfo_differs_false in E. done.
  - intros Heq. apply authInfo_differs_false in Heq as E. rewrite E.
    cbn [tracks toMain write_control emit set_tracks].
    split; [| split; [| split]].
    + exists key, (add_subscriber track).
      split; [done |].
      split; [rewrite list_lookup_alter, Hkey; cbn;
              by rewrite decide_True by done |].
      split; [by apply getTrack_add_subscriber |].
      unfold add_subscriber. cbn.
      split; [by intros n -> |]. split; [by intros -> |]. done.
    + intros j Hj. by rewrite list_lookup_alter_ne.
    + by rewrite length_alter.
    + done.
Qed.

Lemma subscribe_request_handling_witness :
  let σ := run init [Message (ini_message sample_tracks) relay] in
  tracks (subscriptionLoop_body (sample_subscribe "video") σ)
  = <[1%nat := ("video",
                Track.set_numSubscribers (Some 1%N)
                  (sample_track 1 "video" false 1))]> (tracks σ)
  /\ control (subscriptionLoop_body (sample_subscribe "video") σ)
     = (control σ ++ [SUBSCRIBE_RESPONSE "vc" "video" 1 0])%list
  /\ exists track',
       getTrack (tracks (subscriptionLoop_body (sample_subscribe "video") σ))
         "vc" "video"
       = Some (1%nat, track')
       /\ Track.numSubscribers track' = Some 1%N.
Proof.
  intros σ.
  destruct (subscribe_request_handling (sample_subscribe "video") σ 1%nat
              (sample_track 1 "video" false 1) eq_refl)
    as (_ & Hmatch & _ & Hread).
  destruct (Hmatch eq_refl) as [(key & Hkey & Htracks) Hcontrol].
  injection Hkey as <-. split; [exact Htracks |]. split; [exact Hcontrol |].
  destruct (Hread eq_refl)
    as ((key & track' & _ & _ & Hfound & _ & Hone & _) & _).
  exists track'. split; [exact Hfound | exact (Hone eq_refl)].
Defined.

End SenderFacts.

(** ** The handshake of both workers *)
Module HandshakeFacts.

Local Open Scope list_scope.

Lemma existsb_eqb_elem (ns : string) (seen : list string) :
  existsb (String.eqb ns) seen = true <-> ns ∈ seen.
Proof.
  rewrite existsb_exists, list_elem_of_In. split.
  - intros (x & Hin & Heq). apply String.eqb_eq in Heq. by subst.
  - intros Hin. exists ns. split; [done | apply String.eqb_refl].
Qed.

(** [distinct_namespaces] keeps one track per namespace: the namespaces it
    returns are pairwise different, none was seen before, and every
    namespace of the tracks that was not seen before is among them. *)
Lemma distinct_namespaces_spec (entries : Tracks) (seen : list string) :
  NoDup (Track.namespace <$> Sender.distinct_namespaces seen entries)
  /\ forall ns,
       ns ∈ Track.namespace <$> Sender.distinct_namespaces seen entries
       <-> ns ∈ (Track.namespace ∘ snd) <$> entries /\ ns ∉ seen.
Proof.
  revert seen. induction entries as [| [key td] rest IH]; intros seen;
    cbn [Sender.distinct_namespaces].
  - split; [constructor |]. intros ns. cbn. rewrite elem_of_nil. tauto.
  - destruct (existsb (String.eqb (Track.namespace td)) seen) eqn:E.
    + apply existsb_eqb_elem in E. destruct (IH seen) as [Hnd Hmem].
      split; [done |]. intros ns. rewrite Hmem, fmap_cons, elem_of_cons. cbn.
      split; [tauto |]. intros [[-> | ?] ?]; [done | tauto].
    + assert (Hnew : Track.namespace td ∉ seen).
      { intros Hin. apply existsb_eqb_elem in Hin. congruence. }
      destruct (IH (seen ++ [Track.namespace td])) as [Hnd Hmem].
      split.
      * rewrite fmap_cons. constructor; [| done].
        rewrite Hmem, elem_of_app, list_elem_of_singleton. tauto.
      * intros ns. rewrite !fmap_cons, !elem_of_cons, Hmem. cbn.
        rewrite elem_of_app, list_elem_of_singleton.
        destruct (decide (ns = Track.namespace td)) as [-> | Hne]; tauto.
Qed.

(** When every ANNOUNCE_OK carries the namespace that was announced, the
    loop completes, having announced each distinct namespace once. *)
Lemma announce_loop_ready (entries : Tracks) (seen extra : list string) :
  let firsts := Sender.distinct_namespaces seen entries in
  let out := Sender.announce_loop entries seen
               ((Track.namespace <$> firsts) ++ extra) in
  out.1.1 = Sender.announce_of <$> firsts /\ out.2 = SessionReady.
Proof.
  revert seen. induction entries as [| [key td] rest IH]; intros seen;
    cbn [Sender.distinct_namespaces Sender.announce_loop].
  - done.
  - destruct (existsb (String.eqb (Track.namespace td)) seen) eqn:E.
    + apply IH.
    + cbn [fmap list_fmap app]. rewrite String.eqb_refl. cbn [negb].
      specialize (IH (seen ++ [Track.namespace td])). cbn zeta in IH.
      destruct (Sender.announce_loop rest _ _) as [[ms evs] res].
      cbn in *. destruct IH as [-> ->]. done.
Qed.

(** The first ANNOUNCE_OK that carries another namespace ends the loop
    with an error, right after the announce it was meant to answer. *)
Lemma announce_loop_mismatch (entries : Tracks) (seen : list string)
    (k : nat) (track : Track.Data) (reply : string) (later : list string) :
  let firsts := Sender.distinct_namespaces seen entries in
  firsts !! k = Some track ->
  reply <> Track.namespace track ->
  let out := Sender.announce_loop entries seen
               ((Track.namespace <$> take k firsts) ++ reply :: later) in
  out.1.1 = Sender.announce_of <$> take (S k) firsts
  /\ out.2 = SessionThrows (UnexpectedNamespace (Track.namespace track) reply).
Proof.
  revert seen k. induction entries as [| [key td] rest IH]; intros seen k;
    cbn [Sender.distinct_namespaces Sender.announce_loop].
  - done.
  - destruct (existsb (String.eqb (Track.namespace td)) seen) eqn:E.
    + apply IH.
    + destruct k as [| k]; cbn [lookup list_lookup take fmap list_fmap app].
      * intros [= <-] Hne.
        destruct (String.eqb_spec (Track.namespace td) reply) as [Heq | _];
          [congruence |].
        cbn [negb take fmap list_fmap]. done.
      * intros Hk Hne. rewrite String.eqb_refl. cbn [negb].
        specialize (IH (seen ++ [Track.namespace td]) k Hk Hne).
        cbn zeta in IH.
        destruct (Sender.announce_loop rest _ _) as [[ms evs] res].
        cbn in *. destruct IH as [-> ->]. done.
Qed.

Lemma announce_loop_no_role_error (entries : Tracks) (seen replies : list string)
    (role : option Z) :
  (Sender.announce_loop entries seen replies).2
  <> SessionThrows (RoleNotSupported role).
Proof.
  revert seen replies. induction entries as [| [key td] rest IH];
    intros seen replies; cbn [Sender.announce_loop].
  - done.
  - destruct (existsb _ seen); [apply IH |].
    destruct replies as [| reply replies']; [done |].
    destruct (negb _); [done |].
    specialize (IH (seen ++ [Track.namespace td]) replies').
    destruct (Sender.announce_loop rest _ _) as [[ms evs] res]. done.
Qed.

Lemma subscribe_loop_no_role_error (entries : Tracks)
    (replies : list Downloader.SubscribeResponse) (role : option Z) :
  (Downloader.subscribe_loop entries replies).2
  <> SessionThrows (RoleNotSupported role).
Proof.
  revert replies. induction entries as [| [key td] rest IH];
    intros replies; cbn [Downloader.subscribe_loop].
  - done.
  - destruct replies as [| reply replies']; [done |].
    destruct (_ || _); [done |].
    specialize (IH replies').
    destruct (Downloader.subscribe_loop rest _) as [[[t ms] evs] res]. done.
Qed.

Lemma role_differs_spec (role : option Z) (c : Z) :
  role_differs role c = true <-> role <> Some c.
Proof.
  unfold role_differs. destruct role as [r |]; [| done].
  destruct (Z.eqb_spec r c) as [-> | Hne]; cbn; split; try done.
  intros _ [= ->]. done.
Qed.

Lemma role_accepted (role : option Z) (a b : Z) :
  role_differs role a && role_differs role b = false
  <-> role = Some a \/ role = Some b.
Proof.
  unfold role_differs. destruct role as [r |]; cbn.
  - destruct (Z.eqb_spec r a) as [Ha | Ha], (Z.eqb_spec r b) as [Hb | Hb]; cbn;
      split; try done; try (subst; eauto; fail).
    intros [[= ?] | [= ?]]; done.
  - split; [done | intros [? | ?]; done].
Qed.

Lemma sender_workerState_emit_all (evs : list Event) (σ : Sender.Engine) :
  Sender.workerState (Sender.emit_all evs σ) = Sender.workerState σ.
Proof.
  revert σ. induction evs as [| ev evs IH]; intros σ; [done |].
  unfold Sender.emit_all in *. cbn [foldl]. rewrite IH. done.
Qed.

Lemma downloader_workerState_emit_all (evs : list Event) (σ : Downloader.Engine) :
  Downloader.workerState (Downloader.emit_all evs σ) = Downloader.workerState σ.
Proof.
  revert σ. induction evs as [| ev evs IH]; intros σ; [done |].
  unfold Downloader.emit_all in *. cbn [foldl]. rewrite IH. done.
Qed.

(** An initialisation of the publisher leaves the worker [Instantiated]
    unless the session was set up, in which case it is [Running]. *)
Lemma sender_ini_running (cfg : Sender.MuxerSenderConfig) (env : Sender.IniEnv)
    (σ : Sender.Engine) :
  Sender.workerState σ = Instantiated ->
  Sender.workerState (Sender.listener_ini cfg env σ) = Instantiated
  \/ (Sender.workerState (Sender.listener_ini cfg env σ) = Running
      /\ (Sender.moqCreatePublisherSession
            (default (Sender.tracks σ) (Sender.moqTracks cfg))
            (Sender.setup_role env) (Sender.announce_replies env)).2
         = SessionReady).
Proof.
  intros Hst. unfold Sender.listener_ini. rewrite Hst. cbn [StateEnum_eqb negb].
  assert (Ht : Sender.tracks
                 match Sender.moqTracks cfg with
                 | Some t =>
                     Sender.set_tracks t
                       match Sender.cfg_isSendingStats cfg with
                       | Some b => Sender.set_isSendingStats b σ
                       | None => σ
                       end
                 | None =>
                     match Sender.cfg_isSendingStats cfg with
                     | Some b => Sender.set_isSendingStats b σ
                     | None => σ
                     end
                 end = default (Sender.tracks σ) (Sender.moqTracks cfg)).
  { destruct (Sender.moqTracks cfg), (Sender.cfg_isSendingStats cfg); done. }
  assert (Hw : Sender.workerState
                 match Sender.moqTracks cfg with
                 | Some t =>
                     Sender.set_tracks t
                       match Sender.cfg_isSendingStats cfg with
                       | Some b => Sender.set_isSendingStats b σ
                       | None => σ
                       end
                 | None =>
                     match Sender.cfg_isSendingStats cfg with
                     | Some b => Sender.set_isSendingStats b σ
                     | None => σ
                     end
                 end = Instantiated).
  { destruct (Sender.moqTracks cfg), (Sender.cfg_isSendingStats cfg); done. }
  set (σ2 := match Sender.moqTracks cfg with Some t => _ | None => _ end) in *.
  destruct (String.eqb _ ""); [left; done |].
  destruct (negb (String.eqb _ "")); [left; done |].
  destruct (negb (Sender.fingerprint_ok env)); [left; done |].
  destruct (negb (Sender.transport_ready env)); [left; done |].
  cbn [Sender.tracks Sender.set_wt Sender.set_moqPublisherState]. rewrite Ht.
  destruct (Sender.moqCreatePublisherSession _ _ _) as [[ms evs] res].
  destruct res; [right; done | left | left];
    cbn; rewrite sender_workerState_emit_all; done.
Qed.

(** The same for the subscriber. *)
Lemma downloader_ini_running (cfg : Downloader.DownloaderConfig)
    (env : Downloader.IniEnv) (σ : Downloader.Engine) :
  Downloader.workerState σ = Instantiated ->
  Downloader.workerState (Downloader.listener_ini cfg env σ) = Instantiated
  \/ (Downloader.workerState (Downloader.listener_ini cfg env σ) = Running
      /\ (Downloader.moqCreateSubscriberSession
            (default (Downloader.tracks σ) (Downloader.moqTracks cfg))
            (Downloader.setup_role env) (Downloader.subscribe_replies env)).2
         = SessionReady).
Proof.
  intros Hst. unfold Downloader.listener_ini. rewrite Hst.
  cbn [StateEnum_eqb negb].
  destruct (Downloader.urlHostPort cfg) as [url |]; [| left; done].
  destruct (Downloader.urlPath cfg) as [path |]; [| left; done].
  cbn [Downloader.tracks Downloader.set_config].
  destruct (negb (String.eqb _ "")); [left; done |].
  destruct (negb (Downloader.fingerprint_ok env)); [left; done |].
  destruct (negb (Downloader.transport_ready env)); [left; done |].
  cbn [Downloader.tracks Downloader.set_wt].
  destruct (Downloader.moqCreateSubscriberSession _ _ _) as [[[t ms] evs] res].
  destruct res; [right; done | left | left];
    cbn; rewrite downloader_workerState_emit_all; done.
Qed.

Lemma publisher_role_error (tracks : Tracks) (role : option Z)
    (replies : list string) :
  (Sender.moqCreatePublisherSession tracks role replies).2
  = SessionThrows (RoleNotSupported role)
  <-> role <> Some MOQ_PARAMETER_ROLE_SUBSCRIBER
      /\ role <> Some MOQ_PARAMETER_ROLE_BOTH.
Proof.
  unfold Sender.moqCreatePublisherSession.
  destruct (role_differs role MOQ_PARAMETER_ROLE_SUBSCRIBER
            && role_differs role MOQ_PARAMETER_ROLE_BOTH) eqn:E.
  - apply andb_true_iff in E as [E1 E2].
    apply role_differs_spec in E1, E2. done.
  - apply role_accepted in E.
    pose proof (announce_loop_no_role_error tracks [] replies role) as Hno.
    destruct (Sender.announce_loop tracks [] replies) as [[ms evs] res].
    cbn in *. split; [done |]. intros [? ?]. destruct E; done.
Qed.

Lemma subscriber_role_error (tracks : Tracks) (role : option Z)
    (replies : list Downloader.SubscribeResponse) :
  (Downloader.moqCreateSubscriberSession tracks role replies).2
  = SessionThrows (RoleNotSupported role)
  <-> role <> Some MOQ_PARAMETER_ROLE_PUBLISHER
      /\ role <> Some MOQ_PARAMETER_ROLE_BOTH.
Proof.
  unfold Downloader.moqCreateSubscriberSession.
  destruct (role_differs role MOQ_PARAMETER_ROLE_PUBLISHER
            && role_differs role MOQ_PARAMETER_ROLE_BOTH) eqn:E.
  - apply andb_true_iff in E as [E1 E2].
    apply role_differs_spec in E1, E2. done.
  - apply role_accepted in E.
    pose proof (subscribe_loop_no_role_error tracks replies role) as Hno.
    destruct (Downloader.subscribe_loop tracks replies) as [[[t ms] evs] res].
    cbn in *. split; [done |]. intros [? ?]. destruct E; done.
Qed.

(** C8.  The publisher session throws the role error exactly when the
    role of the SETUP_OK is neither SUBSCRIBER nor BOTH, the subscriber
    session exactly when it is neither PUBLISHER nor BOTH, and a worker
    whose session throws it stays [Instantiated].  With an accepted role
    the publisher announces the first track of each distinct namespace,
    each namespace once: when every ANNOUNCE_OK names the namespace that
    was announced the session is set up, and the first one that names
    another namespace makes it throw, right after that announce. *)
Theorem handshake_roles_and_announces (tracks : Tracks) (role : option Z) :
  (forall replies,
      (Sender.moqCreatePublisherSession tracks role replies).2
      = SessionThrows (RoleNotSupported role)
      <-> role <> Some MOQ_PARAMETER_ROLE_SUBSCRIBER
          /\ role <> Some MOQ_PARAMETER_ROLE_BOTH)
  /\ (forall replies,
         (Downloader.moqCreateSubscriberSession tracks role replies).2
         = SessionThrows (RoleNotSupported role)
         <-> role <> Some MOQ_PARAMETER_ROLE_PUBLISHER
             /\ role <> Some MOQ_PARAMETER_ROLE_BOTH)
  /\ (forall cfg env σ,
         Sender.workerState σ = Instantiated ->
         Sender.setup_role env = role ->
         role <> Some MOQ_PARAMETER_ROLE_SUBSCRIBER ->
         role <> Some MOQ_PARAMETER_ROLE_BOTH ->
         Sender.workerState (Sender.listener_ini cfg env σ) = Instantiated)
  /\ (forall cfg env σ,
         Downloader.workerState σ = Instantiated ->
         Downloader.setup_role env = role ->
         role <> Some MOQ_PARAMETER_ROLE_PUBLISHER ->
         role <> Some MOQ_PARAMETER_ROLE_BOTH ->
         Downloader.workerState (Downloader.listener_ini cfg env σ)
         = Instantiated)
  /\ let firsts := Sender.distinct_namespaces [] tracks in
     NoDup (Track.namespace <$> firsts)
     /\ (forall ns,
            ns ∈ Track.namespace <$> firsts
            <-> ns ∈ (Track.namespace ∘ snd) <$> tracks)
     /\ (role = Some MOQ_PARAMETER_ROLE_SUBSCRIBER
         \/ role = Some MOQ_PARAMETER_ROLE_BOTH ->
         (forall extra,
             let out := Sender.moqCreatePublisherSession tracks role
                          ((Track.namespace <$> firsts) ++ extra) in
             out.1.1 = SETUP MOQ_PARAMETER_ROLE_PUBLISHER
                         :: (Sender.announce_of <$> firsts)
             /\ out.2 = SessionReady)
         /\ (forall k track reply later,
                firsts !! k = Some track ->
                reply <> Track.namespace track ->
                let out := Sender.moqCreatePublisherSession tracks role
                             ((Track.namespace <$> take k firsts)
                                ++ reply :: later) in
                out.1.1 = SETUP MOQ_PARAMETER_ROLE_PUBLISHER
                            :: (Sender.announce_of <$> take (S k) firsts)
                /\ out.2 = SessionThrows
                             (UnexpectedNamespace (Track.namespace track) reply)
                /\ forall cfg env σ,
                     Sender.workerState σ = Instantiated ->
                     Sender.moqTracks cfg = Some tracks ->
                     Sender.setup_role env = role ->
                     Sender.announce_replies env
                     = (Track.namespace <$> take k firsts) ++ reply :: later ->
                     Sender.workerState (Sender.listener_ini cfg env σ)
                     = Instantiated)).
Proof.
  split; [intros replies; apply publisher_role_error |].
  split; [intros replies; apply subscriber_role_error |].
  split.
  { intros cfg env σ Hst <- H1 H2.
    destruct (sender_ini_running cfg env σ Hst) as [? | [_ Hready]]; [done |].
    pose proof (proj2 (publisher_role_error
                         (default (Sender.tracks σ) (Sender.moqTracks cfg))
                         (Sender.setup_role env) (Sender.announce_replies env))
                  (conj H1 H2)) as Hthrow.
    congruence. }
  split.
  { intros cfg env σ Hst <- H1 H2.
    destruct (downloader_ini_running cfg env σ Hst) as [? | [_ Hready]]; [done |].
    pose proof (proj2 (subscriber_role_error
                         (default (Downloader.tracks σ) (Downloader.moqTracks cfg))
                         (Downloader.setup_role env)
                         (Downloader.subscribe_replies env))
                  (conj H1 H2)) as Hthrow.
    congruence. }
  intros firsts. destruct (distinct_namespaces_spec tracks []) as [Hnd Hmem].
  split; [done |]. split.
  { intros ns. subst firsts. destruct (Hmem ns) as [H1 H2].
    split; [intros H; apply H1 in H; tauto |].
    intros H. apply H2. split; [done | apply not_elem_of_nil]. }
  intros Hrole. apply role_accepted in Hrole.
  split.
  - intros extra out. subst out. unfold Sender.moqCreatePublisherSession.
    rewrite Hrole.
    pose proof (announce_loop_ready tracks [] extra) as Hloop. cbn zeta in Hloop.
    fold firsts in Hloop.
    destruct (Sender.announce_loop tracks [] _) as [[ms evs] res].
    cbn in *. destruct Hloop as [-> ->]. done.
  - intros k track reply later Hk Hne out.
    assert (Hout : out.1.1 = SETUP MOQ_PARAMETER_ROLE_PUBLISHER
                               :: (Sender.announce_of <$> take (S k) firsts)
                   /\ out.2 = SessionThrows
                                (UnexpectedNamespace (Track.namespace track) reply)).
    { subst out. unfold Sender.moqCreatePublisherSession. rewrite Hrole.
      pose proof (announce_loop_mismatch tracks [] k track reply later Hk Hne)
        as Hloop. cbn zeta in Hloop. fold firsts in Hloop.
      destruct (Sender.announce_loop tracks [] _) as [[ms evs] res].
      cbn in *. destruct Hloop as [-> ->]. done. }
    destruct Hout as [Hms Hres]. split; [done |]. split; [done |].
    intros cfg env σ Hst Hcfg Henv Hreplies.
    destruct (sender_ini_running cfg env σ Hst) as [? | [_ Hready]]; [done |].
    rewrite Hcfg, Henv, Hreplies in Hready. cbn [default] in Hready.
    unfold id in Hready. subst out. congruence.
Qed.

Lemma handshake_roles_and_announces_witness :
  (Sender.moqCreatePublisherSession Sender.sample_tracks
     (Some MOQ_PARAMETER_ROLE_PUBLISHER) ["vc"]).2
  = SessionThrows (RoleNotSupported (Some MOQ_PARAMETER_ROLE_PUBLISHER))
  /\ (Sender.moqCreatePublisherSession Sender.sample_tracks
        (Some MOQ_PARAMETER_ROLE_SUBSCRIBER) ["moq"]).2
     = SessionThrows (UnexpectedNamespace "vc" "moq").
Proof.
  split.
  - apply (proj1 (handshake_roles_and_announces Sender.sample_tracks
                    (Some MOQ_PARAMETER_ROLE_PUBLISHER))).
    split; intros H; discriminate H.
  - destruct (handshake_roles_and_announces Sender.sample_tracks
                (Some MOQ_PARAMETER_ROLE_SUBSCRIBER))
      as (_ & _ & _ & _ & _ & _ & Hannounce).
    destruct (Hannounce (or_introl eq_refl)) as [_ Hmismatch].
    apply (Hmismatch 0%nat (Sender.sample_track 0 "audio" true 100) "moq" []);
      [reflexivity | intros H; discriminate H].
Defined.

End HandshakeFacts.

(** ** The worker state machine *)
Module StateMachineFacts.

(** Once the publisher is stopped, every message is answered by the info
    event and changes nothing else. *)
Lemma sender_stopped_ignores (e : Sender.MessageData) (env : Sender.IniEnv)
    (σ : Sender.Engine) :
  Sender.workerState σ = Stopped ->
  Sender.listener e env σ
  = Sender.emit (Info "Muxer-send is stopped it does not accept messages") σ.
Proof.
  intros Hst. unfold Sender.listener. rewrite Hst.
  cbn [StateEnum_eqb]. rewrite Hst. done.
Qed.

(** A stopped subscriber handles every message as an instantiated one
    does. *)
Lemma downloader_stopped_restarts (e : Downloader.MessageData)
    (env : Downloader.IniEnv) (σ : Downloader.Engine) :
  Downloader.workerState σ = Stopped ->
  Downloader.listener e env σ
  = Downloader.listener e env (Downloader.set_workerState Instantiated σ).
Proof. intros Hst. unfold Downloader.listener. rewrite Hst. done. Qed.

(** C7, evaluated where it fails: the subscriber.  After a 'stop' has set
    its state to [Stopped], a message of no known type moves it to
    [Instantiated] and emits nothing, and an initialisation is carried out
    and brings it to [Running]. *)
Lemma downloader_leaves_Stopped :
  let σ := Downloader.listener Downloader.stop_message Downloader.relay
             Downloader.init in
  Downloader.workerState σ = Stopped
  /\ Downloader.workerState
       (Downloader.listener Downloader.other_message Downloader.relay σ)
     = Instantiated
  /\ Downloader.toMain
       (Downloader.listener Downloader.other_message Downloader.relay σ)
     = []
  /\ Downloader.workerState
       (Downloader.listener Downloader.ini_message Downloader.relay σ)
     = Running
  /\ Downloader.toMain
       (Downloader.listener Downloader.ini_message Downloader.relay σ)
     = [Info "Received SETUP response";
        Info "Received SUBSCRIBE response for vc/video";
        Info "MOQ Initialized"].
Proof. vm_compute. repeat split. Qed.

End StateMachineFacts.

(** ** The object dispatcher *)
Module DispatcherFacts.

Import Sender.

Local Open Scope list_scope.

(** *** Lists of objects *)

Lemma on_track_app (t : N) (l1 l2 : list MoqObject) :
  on_track t (l1 ++ l2) = on_track t l1 ++ on_track t l2.
Proof. apply filter_app. Qed.

Lemma prev_on_snoc_same (objs : list MoqObject) (o : MoqObject) :
  prev_on (trackId o) (objs ++ [o]) = Some o.
Proof.
  unfold prev_on. rewrite on_track_app. unfold on_track at 2.
  rewrite filter_cons_True by done. rewrite filter_nil, last_snoc. done.
Qed.

Lemma prev_on_snoc_other (t : N) (objs : list MoqObject) (o : MoqObject) :
  trackId o <> t -> prev_on t (objs ++ [o]) = prev_on t objs.
Proof.
  intros Hne. unfold prev_on. rewrite on_track_app. unfold on_track at 2.
  rewrite filter_cons_False by done. rewrite filter_nil, app_nil_r. done.
Qed.

Lemma numbered_nil : numbered [].
Proof. intros pre o post H. destruct pre; discriminate H. Qed.

Lemma snoc_split {A} (l pre post : list A) (x o : A) :
  l ++ [x] = pre ++ o :: post ->
  (post = [] /\ pre = l /\ o = x)
  \/ exists post', post = post' ++ [x] /\ l = pre ++ o :: post'.
Proof.
  intros H. destruct post as [| y post' _] using rev_ind.
  - left. apply app_inj_tail in H as [-> ->]. done.
  - right. exists post'.
    change (pre ++ o :: post' ++ [y]) with (pre ++ (o :: post') ++ [y]) in H.
    rewrite app_assoc in H. apply app_inj_tail in H as [-> ->]. done.
Qed.

Lemma numbered_snoc (objs : list MoqObject) (o : MoqObject) :
  numbered objs ->
  (let st := next_object_state (payload o)
               (state_after (prev_on (trackId o) objs)) in
   groupSeq o = currentGroupSeq st /\ objSeq o = currentObjectSeq st) ->
  numbered (objs ++ [o]).
Proof.
  intros Hnum Ho pre o' post Hsplit.
  apply snoc_split in Hsplit as [(-> & -> & ->) | (post' & -> & ->)].
  - exact Ho.
  - apply (Hnum pre o' post'). done.
Qed.

Lemma numbered_snoc_inv (objs : list MoqObject) (o : MoqObject) :
  numbered (objs ++ [o]) ->
  numbered objs
  /\ (let st := next_object_state (payload o)
                  (state_after (prev_on (trackId o) objs)) in
      groupSeq o = currentGroupSeq st /\ objSeq o = currentObjectSeq st).
Proof.
  intros Hnum. split.
  - intros pre o' post ->. apply (Hnum pre o' (post ++ [o])).
    rewrite <- app_assoc. done.
  - apply (Hnum objs o []). done.
Qed.

(** *** The order of sequence pairs *)

Lemma lex_lt_trans (a b c : N * N) : lex_lt a b -> lex_lt b c -> lex_lt a c.
Proof. unfold lex_lt. lia. Qed.

Lemma next_pair_above (o p : MoqObject) :
  (let st := next_object_state (payload o) (state_after (Some p)) in
   groupSeq o = currentGroupSeq st /\ objSeq o = currentObjectSeq st) ->
  lex_lt (pair_of p) (pair_of o).
Proof.
  unfold next_object_state, state_after, lex_lt, pair_of. cbn.
  destruct (negb _); cbn; lia.
Qed.

Lemma sorted_snoc {A} (R : A -> A -> Prop) (l : list A) (x : A) :
  (forall a b c, R a b -> R b c -> R a c) ->
  StronglySorted R l ->
  match last l with Some p => R p x | None => True end ->
  StronglySorted R (l ++ [x]).
Proof.
  intros Htrans Hsorted. induction Hsorted as [| a l Hl IH Hall]; intros Hlast.
  - repeat constructor.
  - cbn [app]. constructor.
    + apply IH. destruct l as [| b l']; [done |]. exact Hlast.
    + apply Forall_app. split; [done |]. constructor; [| constructor].
      destruct l as [| b l' _] using rev_ind; [exact Hlast |].
      rewrite last_cons, last_snoc in Hlast.
      apply Forall_app in Hall as [_ Hb]. inversion_clear Hb. eauto.
Qed.

Lemma numbered_sorted (objs : list MoqObject) (t : N) :
  numbered objs ->
  StronglySorted lex_lt (pair_of <$> on_track t objs).
Proof.
  induction objs as [| o objs IH] using rev_ind; intros Hnum.
  - constructor.
  - apply numbered_snoc_inv in Hnum as [Hnum Ho].
    rewrite on_track_app, fmap_app. unfold on_track at 2.
    destruct (decide (trackId o = t)) as [<- | Hne].
    + rewrite filter_cons_True by done. rewrite filter_nil. cbn [fmap list_fmap].
      apply sorted_snoc; [apply lex_lt_trans | apply IH; done |].
      rewrite fmap_last. fold (prev_on (trackId o) objs).
      destruct (prev_on (trackId o) objs) as [p |]; [| done].
      cbn. apply next_pair_above. exact Ho.
    + rewrite filter_cons_False by done. rewrite filter_nil, app_nil_r.
      apply IH. done.
Qed.

(** *** The invariant of the dispatcher *)

Lemma StateEnum_eqb_eq (a b : StateEnum) : StateEnum_eqb a b = true <-> a = b.
Proof. destruct a, b; cbn; split; done. Qed.

(** The invariant reads four fields of the worker only. *)
Lemma Inv_ext (σ σ' : Engine) :
  workerState σ' = workerState σ ->
  moqPublisherState σ' = moqPublisherState σ ->
  awaiting σ' = awaiting σ ->
  objects σ' = objects σ ->
  Inv σ -> Inv σ'.
Proof.
  intros Hw Hs Ha Ho [H1 H2 H3 H4 H5].
  constructor; rewrite ?Hw, ?Hs, ?Ha, ?Ho; done.
Qed.

Lemma Inv_init : Inv init.
Proof.
  constructor; cbn -[prev_on state_after].
  - done.
  - intros t. left. apply lookup_empty.
  - intros call Hin. apply elem_of_nil in Hin. done.
  - apply numbered_nil.
  - intros o Hin. apply elem_of_nil in Hin. done.
Qed.

(** A worker that has written nothing and has nothing parked keeps the
    invariant when its track states are kept or forgotten. *)
Lemma Inv_reset (σ σ' : Engine) :
  Inv σ -> objects σ = [] ->
  objects σ' = [] -> awaiting σ' = [] ->
  moqPublisherState σ' = moqPublisherState σ \/ moqPublisherState σ' = ∅ ->
  Inv σ'.
Proof.
  intros [H1 H2 H3 H4 H5] Ho Ho' Ha' Hs. constructor; rewrite ?Ho', ?Ha'.
  - done.
  - intros t. cbn. specialize (H2 t). rewrite Ho in H2. cbn in H2.
    destruct Hs as [-> | ->]; [done | left; apply lookup_empty].
  - intros call Hin. apply elem_of_nil in Hin. done.
  - apply numbered_nil.
  - intros o Hin. apply elem_of_nil in Hin. done.
Qed.

Lemma emit_all_fields (evs : list Event) (σ : Engine) :
  workerState (emit_all evs σ) = workerState σ
  /\ moqPublisherState (emit_all evs σ) = moqPublisherState σ
  /\ awaiting (emit_all evs σ) = awaiting σ
  /\ objects (emit_all evs σ) = objects σ
  /\ tracks (emit_all evs σ) = tracks σ.
Proof.
  revert σ. induction evs as [| ev evs IH]; intros σ; [done |].
  unfold emit_all in *. cbn [foldl].
  destruct (IH (emit ev σ)) as (-> & -> & -> & -> & ->). done.
Qed.

Lemma listener_ini_Inv (cfg : MuxerSenderConfig) (env : IniEnv) (σ : Engine) :
  Inv σ -> Inv (listener_ini cfg env σ).
Proof.
  intros HI. unfold listener_ini.
  destruct (StateEnum_eqb (workerState σ) Instantiated) eqn:Est; cbn [negb];
    [| by apply (Inv_ext σ)].
  apply StateEnum_eqb_eq in Est.
  destruct (inv_idle σ HI (or_intror Est)) as [Hobj Haw].
  set (σ1 := match cfg_isSendingStats cfg with Some b => _ | None => σ end).
  set (σ2 := match moqTracks cfg with Some t => _ | None => σ1 end).
  assert (H2 : moqPublisherState σ2 = moqPublisherState σ
               /\ awaiting σ2 = awaiting σ /\ objects σ2 = objects σ).
  { subst σ2 σ1. destruct (moqTracks cfg), (cfg_isSendingStats cfg); done. }
  destruct H2 as (Hs2 & Ha2 & Ho2).
  assert (Hkeep : forall σ', objects σ' = objects σ2 -> awaiting σ' = awaiting σ2 ->
            moqPublisherState σ' = moqPublisherState σ2 \/ moqPublisherState σ' = ∅ ->
            Inv σ').
  { intros σ' Ho' Ha' Hs'. apply (Inv_reset σ); [done | done | congruence | congruence |].
    rewrite <- Hs2. done. }
  destruct (String.eqb _ ""); [apply Hkeep; auto |].
  destruct (negb (String.eqb _ "")); [apply Hkeep; auto |].
  destruct (negb (fingerprint_ok env)); [apply Hkeep; cbn; auto |].
  destruct (negb (transport_ready env)); [apply Hkeep; cbn; auto |].
  destruct (moqCreatePublisherSession _ _ _) as [[ms evs] res].
  match goal with |- context [emit_all evs ?s] =>
    destruct (emit_all_fields evs s) as (Ew & Es & Ea & Eo & _) end.
  destruct res; apply Hkeep; cbn; rewrite ?Es, ?Ea, ?Eo; cbn; auto.
Qed.

Lemma createSendPromise_Inv (packet : Packet) (σ : Engine) :
  workerState σ = Running ->
  (mediaType packet = "data" -> chunkType packet = "key") ->
  Inv σ -> Inv (createSendPromise packet σ).1.
Proof.
  intros Hrun Hdata HI. unfold createSendPromise.
  destruct (negb (wt σ)); [done |].
  destruct (tracks_get (tracks σ) (mediaType packet)) as [track |]; [| done].
  set (t := Track.id track).
  destruct (moqPublisherState σ !! t) as [st |] eqn:Est.
  - rewrite bool_decide_eq_true_2 by eauto. cbn [negb andb].
    destruct (moqCalculateSendOrder _ _) as [sendOrder |]; [| done].
    cbv zeta. cbn [fst]. destruct HI as [H1 H2 H3 H4 H5]. constructor; cbn -[prev_on state_after].
    + rewrite Hrun. intros [? | ?]; done.
    + done.
    + intros call [Hin | Hin]%elem_of_app; [auto |].
      apply list_elem_of_singleton in Hin as ->. cbn. rewrite Est. eauto.
    + done.
    + done.
  - rewrite bool_decide_eq_false_2 by (intros [? ?]; done). cbn [negb andb].
    destruct (String.eqb (chunkType packet) "delta"); [done |].
    assert (HI' : Inv (set_moqPublisherState
                         (<[t := createTrackState]> (moqPublisherState σ)) σ)).
    { destruct HI as [H1 H2 H3 H4 H5]. constructor; cbn -[prev_on state_after].
      - done.
      - intros t'. specialize (H2 t'). destruct (decide (t' = t)) as [-> | Hne].
        + rewrite Est in H2. rewrite lookup_insert_eq.
          destruct (prev_on t (objects σ)); [done | by right].
        + rewrite lookup_insert_ne by done. done.
      - intros call Hin. destruct (H3 call Hin) as [Hs Hk]. split; [| done].
        destruct (decide (s_trackId call = t)) as [-> | Hne].
        + rewrite lookup_insert_eq. eauto.
        + rewrite lookup_insert_ne by done. done.
      - done.
      - done. }
    cbn [tracks set_moqPublisherState].
    destruct (moqCalculateSendOrder _ _) as [sendOrder |]; [| done].
    cbv zeta. cbn [fst]. destruct HI' as [H1 H2 H3 H4 H5]. constructor; cbn -[prev_on state_after] in *.
    + rewrite Hrun. intros [? | ?]; done.
    + done.
    + intros call [Hin | Hin]%elem_of_app; [auto |].
      apply list_elem_of_singleton in Hin as ->. cbn.
      rewrite lookup_insert_eq. eauto.
    + done.
    + done.
Qed.

(** [createRequest] packages every "data" chunk as a "key" chunk. *)
Lemma createRequest_packet_data (chunkData : ChunkData) :
  mediaType (createRequest_packet chunkData) = "data" ->
  chunkType (createRequest_packet chunkData) = "key".
Proof.
  unfold createRequest_packet.
  destruct (String.eqb_spec (cd_mediaType chunkData) "data") as [E | E]; cbn; done.
Qed.

Lemma sendChunkToTransport_Inv (chunkData : option ChunkData)
    (requests : gmap string Promise) (max : N) (σ : Engine) :
  workerState σ = Running ->
  Inv σ -> Inv (sendChunkToTransport chunkData requests max σ).1.
Proof.
  intros Hrun HI. unfold sendChunkToTransport.
  destruct chunkData as [chunkData |]; [| done].
  destruct (_ <=? _)%N; [done |].
  apply createSendPromise_Inv; [done | apply createRequest_packet_data | done].
Qed.

Lemma listener_chunk_Inv (e : MessageData) (σ : Engine) :
  Inv σ -> Inv (listener_chunk e σ).
Proof.
  intros HI. unfold listener_chunk.
  destruct (StateEnum_eqb (workerState σ) Running) eqn:Est; cbn [negb];
    [| by apply (Inv_ext σ)].
  apply StateEnum_eqb_eq in Est.
  destruct (tracks_get (tracks σ) (type e)) as [track |];
    [| destruct (inherited (type e)); by apply (Inv_ext σ)].
  destruct (match Track.numSubscribers track with
            | Some n => (n <=? 0)%N
            | None => true
            end); [by apply (Inv_ext σ) |].
  set (call := match inFlightRequests σ !! type e with
               | Some requests => _
               | None => _
               end).
  assert (HI1 : Inv call.1).
  { subst call. destruct (inFlightRequests σ !! type e); [| done].
    apply sendChunkToTransport_Inv; done. }
  destruct call as [σ1 res]. cbn [fst] in HI1.
  destruct res, (isSendingStats σ1); by apply (Inv_ext σ1).
Qed.

(** The 'stop' branch stops the worker and drops the transport; it may
    report, and leaves everything else as it is. *)
Lemma listener_stop_fields (σ : Engine) :
  workerState (listener_stop σ) = Stopped
  /\ tracks (listener_stop σ) = tracks σ
  /\ moqPublisherState (listener_stop σ) = moqPublisherState σ
  /\ inFlightRequests (listener_stop σ) = inFlightRequests σ
  /\ awaiting (listener_stop σ) = awaiting σ
  /\ objects (listener_stop σ) = objects σ
  /\ streams (listener_stop σ) = streams σ
  /\ control (listener_stop σ) = control σ
  /\ subscriptionLoop (listener_stop σ) = subscriptionLoop σ
  /\ isSendingStats (listener_stop σ) = isSendingStats σ.
Proof.
  unfold listener_stop. by destruct (getAllInflightRequestsArray _) as [[|] |].
Qed.

(** What the end of the wait of the 'stop' handler leaves as it is. *)
Lemma exit_settled_fields (σ : Engine) (rejected : bool) :
  workerState (step σ (ExitSettled rejected)) = workerState σ
  /\ tracks (step σ (ExitSettled rejected)) = tracks σ
  /\ moqPublisherState (step σ (ExitSettled rejected)) = moqPublisherState σ
  /\ inFlightRequests (step σ (ExitSettled rejected)) = inFlightRequests σ
  /\ awaiting (step σ (ExitSettled rejected)) = awaiting σ
  /\ objects (step σ (ExitSettled rejected)) = objects σ
  /\ streams (step σ (ExitSettled rejected)) = streams σ
  /\ control (step σ (ExitSettled rejected)) = control σ
  /\ subscriptionLoop (step σ (ExitSettled rejected)) = subscriptionLoop σ
  /\ isSendingStats (step σ (ExitSettled rejected)) = isSendingStats σ.
Proof. cbn [step]. by destruct (exiting σ), rejected. Qed.

Lemma listener_Inv (e : MessageData) (env : IniEnv) (σ : Engine) :
  Inv σ -> Inv (listener e env σ).
Proof.
  intros HI. unfold listener.
  set (σ0 := if StateEnum_eqb (workerState σ) Created then _ else σ).
  assert (HI0 : Inv σ0).
  { subst σ0. destruct (StateEnum_eqb (workerState σ) Created) eqn:Est; [| done].
    apply StateEnum_eqb_eq in Est.
    destruct (inv_idle σ HI (or_introl Est)) as [Hobj Haw].
    apply (Inv_reset σ); auto. }
  destruct (StateEnum_eqb (workerState σ0) Stopped); [by apply (Inv_ext σ0) |].
  destruct (String.eqb (type e) "stop").
  { destruct (listener_stop_fields σ0)
      as (Hw & _ & Hm & _ & Ha & Ho & _).
    destruct HI0 as [H1 H2 H3 H4 H5].
    constructor; rewrite ?Hw, ?Hm, ?Ha, ?Ho; try done.
    intros [? | ?]; done. }
  destruct (String.eqb (type e) "muxersendini").
  - by apply listener_ini_Inv.
  - by apply listener_chunk_Inv.
Qed.

Lemma addToInflight_fields (key : string) (p : Promise) (σ σ' : Engine) :
  addToInflight key p σ = Some σ' ->
  workerState σ' = workerState σ
  /\ moqPublisherState σ' = moqPublisherState σ
  /\ awaiting σ' = awaiting σ
  /\ objects σ' = objects σ.
Proof.
  unfold addToInflight.
  destruct (inFlightRequests σ !! key) as [requests |]; [| done].
  destruct (bool_decide _ || inherited _); intros [= <-]; done.
Qed.

(** What the resumption of a parked call writes and leaves behind. *)
Lemma createSendPromise_resume_fields (call : Suspended) (st : TrackState)
    (σ : Engine) :
  moqPublisherState σ !! s_trackId call = Some st ->
  let st1 := next_object_state (s_packet call) st in
  let σ' := createSendPromise_resume call σ in
  workerState σ' = workerState σ
  /\ awaiting σ' = awaiting σ
  /\ objects σ'
     = objects σ
         ++ [{| trackId := s_trackId call;
                groupSeq := currentGroupSeq st1;
                objSeq := currentObjectSeq st1;
                sendOrder := s_sendOrder call;
                payload := s_packet call |}]
  /\ moqPublisherState σ'
     = <[s_trackId call := {| currentGroupSeq := currentGroupSeq st1;
                              currentObjectSeq := currentObjectSeq st1 + 1 |}]>
         (moqPublisherState σ).
Proof.
  intros Hst st1 σ'. subst σ'. unfold createSendPromise_resume. rewrite Hst.
  fold st1. cbv zeta.
  match goal with |- context [addToInflight ?k ?p ?s] =>
    destruct (addToInflight k p s) as [σ5 |] eqn:E end.
  - apply addToInflight_fields in E as (-> & -> & -> & ->).
    cbn. rewrite insert_insert_eq. done.
  - cbn. rewrite insert_insert_eq. done.
Qed.

Lemma createSendPromise_resume_Inv (call : Suspended) (σ : Engine) :
  workerState σ <> Created -> workerState σ <> Instantiated ->
  is_Some (moqPublisherState σ !! s_trackId call) ->
  (mediaType (s_packet call) = "data" -> chunkType (s_packet call) = "key") ->
  Inv σ -> Inv (createSendPromise_resume call σ).
Proof.
  intros Hc Hi [st Hst] Hdata [H1 H2 H3 H4 H5].
  destruct (createSendPromise_resume_fields call st σ Hst)
    as (Ew & Ea & Eo & Es).
  set (o := {| trackId := s_trackId call;
               groupSeq := currentGroupSeq (next_object_state (s_packet call) st);
               objSeq := currentObjectSeq (next_object_state (s_packet call) st);
               sendOrder := s_sendOrder call; payload := s_packet call |}) in *.
  constructor; rewrite ?Ew, ?Ea, ?Eo, ?Es.
  - intros [? | ?]; done.
  - intros t. destruct (decide (t = s_trackId call)) as [-> | Hne].
    + change (s_trackId call) with (trackId o) at 1.
      rewrite prev_on_snoc_same, lookup_insert_eq. done.
    + rewrite prev_on_snoc_other by (cbn; done).
      rewrite lookup_insert_ne by done. apply H2.
  - intros c Hin. destruct (H3 c Hin) as [Hs Hk]. split; [| done].
    destruct (decide (s_trackId c = s_trackId call)) as [-> | Hne].
    + rewrite lookup_insert_eq. eauto.
    + rewrite lookup_insert_ne by done. done.
  - apply numbered_snoc; [done |]. cbn [trackId payload groupSeq objSeq o].
    specialize (H2 (s_trackId call)). rewrite Hst in H2.
    destruct (prev_on (s_trackId call) (objects σ)) as [p |].
    + injection H2 as ->. done.
    + destruct H2 as [H2 | H2]; [done |]. injection H2 as ->. done.
  - intros o' [Hin | Hin]%elem_of_app; [auto |].
    apply list_elem_of_singleton in Hin as ->. exact Hdata.
Qed.

Lemma removeFromInflight_fields (key id : string) (σ : Engine) :
  workerState (removeFromInflight key id σ) = workerState σ
  /\ moqPublisherState (removeFromInflight key id σ) = moqPublisherState σ
  /\ awaiting (removeFromInflight key id σ) = awaiting σ
  /\ objects (removeFromInflight key id σ) = objects σ.
Proof.
  unfold removeFromInflight.
  destruct (inFlightRequests σ !! key) as [requests |]; [| done].
  destruct (requests !! id); done.
Qed.

Lemma subscriptionLoop_body_fields (subscribe : Subscribe) (σ : Engine) :
  workerState (subscriptionLoop_body subscribe σ) = workerState σ
  /\ moqPublisherState (subscriptionLoop_body subscribe σ) = moqPublisherState σ
  /\ awaiting (subscriptionLoop_body subscribe σ) = awaiting σ
  /\ objects (subscriptionLoop_body subscribe σ) = objects σ.
Proof.
  unfold subscriptionLoop_body.
  destruct (getTrack _ _ _) as [[i track] |]; [| done].
  destruct (authInfo_differs track subscribe); done.
Qed.

Lemma Inv_remove_awaiting (i : nat) (σ : Engine) :
  Inv σ -> Inv (set_awaiting (delete i (awaiting σ)) σ).
Proof.
  intros [H1 H2 H3 H4 H5]. constructor; cbn -[prev_on state_after]; try done.
  - intros Hidle. destruct (H1 Hidle) as [-> ->]. done.
  - intros call Hin. apply H3.
    eapply list_elem_of_delete_inv. exact Hin.
Qed.

(** Every step of the worker keeps the invariant. *)
Lemma step_Inv (σ : Engine) (input : Input) : Inv σ -> Inv (step σ input).
Proof.
  intros HI. destruct input as [e env | i | i | packet ok | subscribe | rejected]; cbn [step].
  - by apply listener_Inv.
  - destruct (awaiting σ !! i) as [call |] eqn:Ei; [| done].
    assert (Hin : call ∈ awaiting σ) by (eapply list_elem_of_lookup_2; done).
    destruct (inv_awaiting σ HI call Hin) as [Hs Hk].
    apply createSendPromise_resume_Inv; cbn; try done.
    + intros Hc. destruct (inv_idle σ HI (or_introl Hc)) as [_ Hnil].
      rewrite Hnil in Hin. by apply elem_of_nil in Hin.
    + intros Hc. destruct (inv_idle σ HI (or_intror Hc)) as [_ Hnil].
      rewrite Hnil in Hin. by apply elem_of_nil in Hin.
    + by apply Inv_remove_awaiting.
  - destruct (awaiting σ !! i) as [call |] eqn:Ei; [| done].
    apply (Inv_ext (set_awaiting (delete i (awaiting σ)) σ)); try done.
    by apply Inv_remove_awaiting.
  - destruct (removeFromInflight_fields (mediaType packet) (pId packet) σ)
      as (Ew & Es & Ea & Eo).
    destruct ok; by apply (Inv_ext σ).
  - destruct (subscriptionLoop σ); [| done].
    destruct (subscriptionLoop_body_fields subscribe σ) as (Ew & Es & Ea & Eo).
    destruct (StateEnum_eqb _ Running); by apply (Inv_ext σ).
  - destruct (exit_settled_fields σ rejected)
      as (Sw & St & Sm & Si & Sa & So & Ss & Sc & Sl & Sst).
    by apply (Inv_ext σ).
Qed.

Lemma run_Inv (σ : Engine) (inputs : list Input) : Inv σ -> Inv (run σ inputs).
Proof.
  revert σ. induction inputs as [| input inputs IH]; intros σ HI; [done |].
  apply IH, step_Inv, HI.
Qed.

(** *** Track ids *)

Lemma tracks_get_id_in (tracks : Tracks) (key : string) (track : Track.Data) :
  tracks_get tracks key = Some track -> Track.id track ∈ track_ids tracks.
Proof.
  induction tracks as [| [k t] rest IH]; cbn [tracks_get]; [done |].
  unfold track_ids. rewrite fmap_cons. cbn.
  destruct (String.eqb k key).
  - intros [= ->]. left.
  - intros H. right. by apply IH.
Qed.

(** With pairwise different ids, the id tells the track key. *)
Lemma tracks_get_id_inj (tracks : Tracks) (k1 k2 : string) (t1 t2 : Track.Data) :
  NoDup (track_ids tracks) ->
  tracks_get tracks k1 = Some t1 -> tracks_get tracks k2 = Some t2 ->
  Track.id t1 = Track.id t2 -> k1 = k2.
Proof.
  induction tracks as [| [k t] rest IH]; cbn [tracks_get]; [done |].
  unfold track_ids. rewrite fmap_cons. cbn. intros [Hnew Hnd]%NoDup_cons.
  destruct (String.eqb_spec k k1) as [<- | H1], (String.eqb_spec k k2) as [<- | H2].
  - done.
  - intros [= <-] Hget Hid. apply tracks_get_id_in in Hget.
    rewrite <- Hid in Hget. done.
  - intros Hget [= <-] Hid. apply tracks_get_id_in in Hget.
    rewrite Hid in Hget. done.
  - by apply IH.
Qed.

Lemma alter_subscriber_ids (tracks : Tracks) (i : nat) :
  track_ids (alter (prod_map id add_subscriber) i tracks) = track_ids tracks.
Proof.
  revert i. induction tracks as [| [k t] rest IH]; intros i; [done |].
  destruct i as [| i]; unfold track_ids in *; cbn; [done |].
  f_equal. apply IH.
Qed.

Lemma alter_subscriber_get (tracks : Tracks) (i : nat) (key : string) :
  Track.id <$> tracks_get (alter (prod_map id add_subscriber) i tracks) key
  = Track.id <$> tracks_get tracks key.
Proof.
  revert i. induction tracks as [| [k t] rest IH]; intros i; [done |].
  destruct i as [| i]; cbn.
  - destruct (String.eqb k key); done.
  - destruct (String.eqb k key); [done | apply IH].
Qed.

Lemma WellTracked_ext (σ σ' : Engine) :
  tracks σ' = tracks σ -> awaiting σ' = awaiting σ -> objects σ' = objects σ ->
  WellTracked σ -> WellTracked σ'.
Proof.
  intros Ht Ha Ho [H1 H2 H3]. constructor; rewrite ?Ht, ?Ha, ?Ho; done.
Qed.

Lemma WellTracked_init : WellTracked init.
Proof.
  constructor; cbn.
  - constructor.
  - intros call Hin. by apply elem_of_nil in Hin.
  - intros o Hin. by apply elem_of_nil in Hin.
Qed.

Lemma WellTracked_fresh (σ' : Engine) :
  NoDup (track_ids (tracks σ')) -> awaiting σ' = [] -> objects σ' = [] ->
  WellTracked σ'.
Proof.
  intros Hnd Ha Ho. constructor; rewrite ?Ha, ?Ho; [done | |].
  - intros call Hin. by apply elem_of_nil in Hin.
  - intros o Hin. by apply elem_of_nil in Hin.
Qed.

Lemma listener_ini_WellTracked (cfg : MuxerSenderConfig) (env : IniEnv)
    (σ : Engine) :
  match moqTracks cfg with Some t => NoDup (track_ids t) | None => True end ->
  Inv σ -> WellTracked σ -> WellTracked (listener_ini cfg env σ).
Proof.
  intros Hcfg HI HW. unfold listener_ini.
  destruct (StateEnum_eqb (workerState σ) Instantiated) eqn:Est; cbn [negb];
    [| by apply (WellTracked_ext σ)].
  apply StateEnum_eqb_eq in Est.
  destruct (inv_idle σ HI (or_intror Est)) as [Hobj Haw].
  set (σ1 := match cfg_isSendingStats cfg with Some b => _ | None => σ end).
  set (σ2 := match moqTracks cfg with Some t => _ | None => σ1 end).
  assert (H2 : NoDup (track_ids (tracks σ2))
               /\ awaiting σ2 = [] /\ objects σ2 = []).
  { subst σ2 σ1. destruct HW as [Hnd _ _].
    destruct (moqTracks cfg), (cfg_isSendingStats cfg); done. }
  destruct H2 as (Hnd2 & Ha2 & Ho2).
  assert (Hkeep : forall σ', tracks σ' = tracks σ2 -> awaiting σ' = awaiting σ2 ->
            objects σ' = objects σ2 -> WellTracked σ').
  { intros σ' Ht' Ha' Ho'. apply WellTracked_fresh; congruence. }
  destruct (String.eqb _ ""); [apply Hkeep; auto |].
  destruct (negb (String.eqb _ "")); [apply Hkeep; auto |].
  destruct (negb (fingerprint_ok env)); [apply Hkeep; cbn; auto |].
  destruct (negb (transport_ready env)); [apply Hkeep; cbn; auto |].
  destruct (moqCreatePublisherSession _ _ _) as [[ms evs] res].
  match goal with |- context [emit_all evs ?s] =>
    destruct (emit_all_fields evs s) as (Ew & Es & Ea & Eo & Et) end.
  destruct res; apply Hkeep; cbn; rewrite ?Es, ?Ea, ?Eo, ?Et; cbn; auto.
Qed.

Lemma createSendPromise_WellTracked (packet : Packet) (σ : Engine) :
  WellTracked σ -> WellTracked (createSendPromise packet σ).1.
Proof.
  intros HW. unfold createSendPromise.
  destruct (negb (wt σ)); [done |].
  destruct (tracks_get (tracks σ) (mediaType packet)) as [track |] eqn:Et; [| done].
  destruct (negb _ && _); [done |].
  set (σ1 := if bool_decide _ then σ else _).
  assert (HW1 : WellTracked σ1).
  { subst σ1. destruct (bool_decide _); [done |]. by apply (WellTracked_ext σ). }
  assert (Ht1 : tracks σ1 = tracks σ).
  { subst σ1. destruct (bool_decide _); done. }
  destruct (moqCalculateSendOrder _ _) as [sendOrder |]; [| done].
  cbv zeta. cbn [fst]. destruct HW1 as [H1 H2 H3].
  constructor; cbn; [done | | done].
  intros call [Hin | Hin]%elem_of_app; [auto |].
  apply list_elem_of_singleton in Hin as ->. cbn. rewrite Ht1, Et. done.
Qed.

Lemma listener_chunk_WellTracked (e : MessageData) (σ : Engine) :
  WellTracked σ -> WellTracked (listener_chunk e σ).
Proof.
  intros HW. unfold listener_chunk.
  destruct (negb _); [by apply (WellTracked_ext σ) |].
  destruct (tracks_get (tracks σ) (type e)) as [track |];
    [| destruct (inherited (type e)); by apply (WellTracked_ext σ)].
  destruct (match Track.numSubscribers track with
            | Some n => (n <=? 0)%N
            | None => true
            end); [by apply (WellTracked_ext σ) |].
  set (call := match inFlightRequests σ !! type e with
               | Some requests => _
               | None => _
               end).
  assert (HW1 : WellTracked call.1).
  { subst call. destruct (inFlightRequests σ !! type e); [| done].
    unfold sendChunkToTransport. destruct (_ <=? _)%N; [done |].
    apply createSendPromise_WellTracked. done. }
  destruct call as [σ1 res]. cbn [fst] in HW1.
  destruct res, (isSendingStats σ1); by apply (WellTracked_ext σ1).
Qed.

Lemma createSendPromise_resume_tracks (call : Suspended) (σ : Engine) :
  tracks (createSendPromise_resume call σ) = tracks σ.
Proof.
  unfold createSendPromise_resume.
  destruct (moqPublisherState σ !! s_trackId call); [| done]. cbv zeta.
  match goal with |- context [addToInflight ?k ?p ?s] =>
    destruct (addToInflight k p s) as [σ5 |] eqn:E end; [| done].
  unfold addToInflight in E. cbn in E.
  destruct (inFlightRequests σ !! _) as [requests |]; [| done].
  destruct (bool_decide _ || inherited _); injection E as <-; done.
Qed.

Lemma step_WellTracked (σ : Engine) (input : Input) :
  distinct_ids input -> Inv σ -> WellTracked σ -> WellTracked (step σ input).
Proof.
  intros Hcfg HI HW.
  destruct input as [e env | i | i | packet ok | subscribe | rejected]; cbn [step].
  - unfold listener.
    set (σ0 := if StateEnum_eqb (workerState σ) Created then _ else σ).
    assert (HW0 : WellTracked σ0).
    { subst σ0. destruct (StateEnum_eqb _ _); [| done]. by apply (WellTracked_ext σ). }
    assert (HI0 : Inv σ0).
    { subst σ0. destruct (StateEnum_eqb (workerState σ) Created) eqn:Est; [| done].
      apply StateEnum_eqb_eq in Est.
      destruct (inv_idle σ HI (or_introl Est)) as [Hobj Haw].
      apply (Inv_reset σ); auto. }
    destruct (StateEnum_eqb (workerState σ0) Stopped);
      [by apply (WellTracked_ext σ0) |].
    destruct (String.eqb (type e) "stop").
    { destruct (listener_stop_fields σ0) as (Sw & St & Sm & Si & Sa & So & Ss & Sc & Sl & Sst).
      by apply (WellTracked_ext σ0). }
    destruct (String.eqb (type e) "muxersendini").
    + by apply listener_ini_WellTracked.
    + by apply listener_chunk_WellTracked.
  - destruct (awaiting σ !! i) as [call |] eqn:Ei; [| done].
    assert (Hin : call ∈ awaiting σ) by (eapply list_elem_of_lookup_2; done).
    destruct (inv_awaiting σ HI call Hin) as [[st Hst] _].
    destruct (createSendPromise_resume_fields call st
                (set_awaiting (delete i (awaiting σ)) σ) Hst)
      as (_ & Ea & Eo & _).
    destruct HW as [H1 H2 H3].
    constructor; rewrite ?createSendPromise_resume_tracks, ?Ea, ?Eo; cbn.
    + done.
    + intros c Hc. apply H2. eapply list_elem_of_delete_inv. exact Hc.
    + intros o [Ho | Ho]%elem_of_app; [auto |].
      apply list_elem_of_singleton in Ho as ->. cbn. auto.
  - destruct (awaiting σ !! i) as [call |] eqn:Ei; [| done].
    destruct HW as [H1 H2 H3]. constructor; cbn; [done | | done].
    intros c Hc. apply H2. eapply list_elem_of_delete_inv. exact Hc.
  - assert (Ht : tracks (removeFromInflight (mediaType packet) (pId packet) σ)
                 = tracks σ).
    { unfold removeFromInflight.
      destruct (inFlightRequests σ !! _) as [requests |]; [| done].
      destruct (requests !! _); done. }
    destruct (removeFromInflight_fields (mediaType packet) (pId packet) σ)
      as (_ & _ & Ea & Eo).
    destruct ok; by apply (WellTracked_ext σ).
  - destruct (subscriptionLoop σ); [| done].
    assert (Hbody : WellTracked (subscriptionLoop_body subscribe σ)).
    { unfold subscriptionLoop_body.
      destruct (getTrack _ _ _) as [[j track] |]; [| by apply (WellTracked_ext σ)].
      destruct (authInfo_differs track subscribe); [by apply (WellTracked_ext σ) |].
      destruct HW as [H1 H2 H3]. constructor; cbn.
      + rewrite alter_subscriber_ids. done.
      + intros c Hc. rewrite alter_subscriber_get. auto.
      + intros o Ho. rewrite alter_subscriber_get. auto. }
    destruct (StateEnum_eqb _ Running); [done |].
    by apply (WellTracked_ext (subscriptionLoop_body subscribe σ)).
  - destruct (exit_settled_fields σ rejected)
      as (Sw & St & Sm & Si & Sa & So & Ss & Sc & Sl & Sst).
    by apply (WellTracked_ext σ).
Qed.

Lemma run_WellTracked (σ : Engine) (inputs : list Input) :
  Forall distinct_ids inputs -> Inv σ -> WellTracked σ ->
  WellTracked (run σ inputs).
Proof.
  revert σ. induction inputs as [| input inputs IH]; intros σ Hcfg HI HW; [done |].
  inversion_clear Hcfg. cbn. apply IH; [done | by apply step_Inv |].
  by apply step_WellTracked.
Qed.

(** With pairwise different ids, two objects written are on the same
    track id exactly when their packets are of the same track. *)
Lemma WellTracked_same_track (σ : Engine) (o o' : MoqObject) :
  WellTracked σ -> o ∈ objects σ -> o' ∈ objects σ ->
  trackId o' = trackId o <-> mediaType (payload o') = mediaType (payload o).
Proof.
  intros [Hnd _ Hobj] Ho Ho'.
  pose proof (Hobj o Ho) as Hid. pose proof (Hobj o' Ho') as Hid'.
  destruct (tracks_get (tracks σ) (mediaType (payload o))) as [t |] eqn:Et;
    [| done].
  destruct (tracks_get (tracks σ) (mediaType (payload o'))) as [t' |] eqn:Et';
    [| done].
  cbn in Hid, Hid'. injection Hid as Hid. injection Hid' as Hid'. split.
  - intros Heq. apply (tracks_get_id_inj (tracks σ) _ _ t' t); try done. congruence.
  - intros Heq. rewrite Heq in Et'. congruence.
Qed.

(** *** The sequence numbers of the objects *)

(** C2.  In every state the worker reaches, the (group, object) pairs
    written for a track are strictly increasing in the lexicographic
    order; and when the stream of a parked chunk opens, a chunk that is
    not a delta takes the next group and object 0, a delta keeps the
    current group and object, the object written carries that pair, and the
    object sequence of the track is one more afterwards. *)
Theorem object_sequence_increasing (inputs : list Input) :
  let σ := run init inputs in
  (forall t, StronglySorted lex_lt (emitted t σ))
  /\ (forall i call,
         awaiting σ !! i = Some call ->
         exists st,
           moqPublisherState σ !! s_trackId call = Some st
           /\ let key := negb (String.eqb (chunkType (s_packet call)) "delta") in
              let g := if key then (currentGroupSeq st + 1)%N
                       else currentGroupSeq st in
              let o := if key then 0%N else currentObjectSeq st in
              objects (step σ (StreamOpened i))
              = objects σ
                  ++ [{| trackId := s_trackId call; groupSeq := g; objSeq := o;
                         sendOrder := s_sendOrder call;
                         payload := s_packet call |}]
              /\ moqPublisherState (step σ (StreamOpened i)) !! s_trackId call
                 = Some {| currentGroupSeq := g;
                           currentObjectSeq := (o + 1)%N |}).
Proof.
  intros σ. pose proof (run_Inv init inputs Inv_init) as HI. fold σ in HI.
  split.
  - intros t. apply numbered_sorted, (inv_numbered σ HI).
  - intros i call Hi.
    assert (Hin : call ∈ awaiting σ) by (eapply list_elem_of_lookup_2; done).
    destruct (inv_awaiting σ HI call Hin) as [[st Hst] _].
    exists st. split; [done |]. cbn [step]. rewrite Hi.
    destruct (createSendPromise_resume_fields call st
                (set_awaiting (delete i (awaiting σ)) σ) Hst)
      as (_ & _ & Hobj & Hstate).
    rewrite Hobj, Hstate, lookup_insert_eq. unfold next_object_state.
    destruct (negb _); done.
Qed.

Lemma object_sequence_increasing_witness :
  let σ := run init three_video_chunks in
  emitted 1 σ = [(1, 0); (1, 1)]%N
  /\ StronglySorted lex_lt (emitted 1 σ)
  /\ (groupSeq <$> objects (step σ (StreamOpened 0))) = [1; 1; 2]%N
  /\ (objSeq <$> objects (step σ (StreamOpened 0))) = [0; 1; 0]%N.
Proof.
  intros σ.
  destruct (object_sequence_increasing three_video_chunks) as [Hsorted Hopen].
  fold σ in Hsorted, Hopen.
  split; [vm_compute; reflexivity |]. split; [apply Hsorted |].
  assert (Hcall : awaiting σ !! 0%nat
                  = Some {| s_packet := sample_packet "video" 2 "key" "c";
                            s_trackId := 1; s_sendOrder := JS.of_Z 2 |})
    by (vm_compute; reflexivity).
  destruct (Hopen 0%nat _ Hcall) as (st & Hst & Hobj & _).
  assert (Hst' : moqPublisherState σ !! 1%N
                 = Some {| currentGroupSeq := 1; currentObjectSeq := 2 |})
    by (vm_compute; reflexivity).
  cbn [s_trackId] in Hst. rewrite Hst' in Hst. injection Hst as <-.
  rewrite Hobj, !fmap_app. split; vm_compute; reflexivity.
Defined.

Lemma filter_agree {A} (P Q : A -> Prop) `{!forall x, Decision (P x)}
    `{!forall x, Decision (Q x)} (l : list A) :
  (forall x, x ∈ l -> (P x <-> Q x)) -> filter P l = filter Q l.
Proof.
  induction l as [| a l IH]; intros Hagree; [done |].
  assert (Ha : P a <-> Q a) by (apply Hagree; left).
  assert (Hl : filter P l = filter Q l)
    by (apply IH; intros x Hx; apply Hagree; by right).
  destruct (decide (P a)) as [Hp | Hp].
  - rewrite !filter_cons_True by tauto. by f_equal.
  - rewrite !filter_cons_False by tauto. done.
Qed.

Lemma createRequest_data_not_dropped (chunkData : ChunkData) (σ : Engine)
    (message : string) :
  cd_mediaType chunkData = "data" ->
  (createRequest chunkData σ).2 <> Dropped message.
Proof.
  intros Hdata. unfold createRequest, createSendPromise.
  assert (Hkey : chunkType (createRequest_packet chunkData) = "key").
  { apply createRequest_packet_data. unfold createRequest_packet.
    rewrite Hdata. done. }
  destruct (negb (wt σ)); [done |].
  destruct (tracks_get _ _) as [track |]; [| done].
  rewrite Hkey. change (String.eqb "key" "delta") with false.
  rewrite andb_false_r.
  destruct (bool_decide _); cbn [tracks set_moqPublisherState];
    destruct (moqCalculateSendOrder _ _); done.
Qed.

(** When the "data" track shares its id with another track, a data
    object does not follow the previous data object: with a video object
    written in between, the two data objects have group sequences 1 and
    3. *)
Lemma data_group_not_next_with_shared_id :
  ((λ o, (mediaType (payload o), trackId o, groupSeq o, objSeq o))
     <$> objects (run init video_between_data_chunks)
   = [("data", 0%N, 1%N, 0%N); ("video", 0%N, 2%N, 0%N);
      ("data", 0%N, 3%N, 0%N)])
  /\ exists pre o post p,
       objects (run init video_between_data_chunks) = pre ++ o :: post
       /\ mediaType (payload o) = "data"
       /\ prev_data pre = Some p
       /\ groupSeq p = 1%N /\ groupSeq o = 3%N
       /\ groupSeq o <> (groupSeq p + 1)%N.
Proof.
  assert (E : objects (run init video_between_data_chunks)
              = [{| trackId := 0; groupSeq := 1; objSeq := 0;
                    sendOrder := JS.of_Z 0;
                    payload := sample_packet "data" 0 "key" "a" |};
                 {| trackId := 0; groupSeq := 2; objSeq := 0;
                    sendOrder := JS.of_Z 1;
                    payload := sample_packet "video" 1 "key" "b" |};
                 {| trackId := 0; groupSeq := 3; objSeq := 0;
                    sendOrder := JS.of_Z 2;
                    payload := sample_packet "data" 2 "key" "c" |}])
    by (vm_compute; reflexivity).
  rewrite E. split; [reflexivity |].
  eexists [_; _], _, [], _.
  split; [reflexivity |]. split; [reflexivity |].
  split; [vm_compute; reflexivity |]. cbn. split; [done |]. split; [done |]. lia.
Qed.

(** C10.  A chunk of the "data" track is packaged with chunk type "key"
    whatever the type of the inbound chunk, so its dispatch is never
    dropped; and in every state the worker reaches, every data object
    written has object sequence 0 and the group sequence that follows the
    one of the object written before it under the same track id (1 if
    there is none).  When the tracks are configured with pairwise
    different ids, that object is the previous data object. *)
Theorem data_objects_open_groups (inputs : list Input) :
  let σ := run init inputs in
  (forall chunkData,
      cd_mediaType chunkData = "data" ->
      chunkType (createRequest_packet chunkData) = "key")
  /\ (forall chunkData σ0 message,
         cd_mediaType chunkData = "data" ->
         (createRequest chunkData σ0).2 <> Dropped message)
  /\ (forall pre o post,
         objects σ = pre ++ o :: post ->
         mediaType (payload o) = "data" ->
         objSeq o = 0%N
         /\ groupSeq o = match prev_on (trackId o) pre with
                         | Some p => (groupSeq p + 1)%N
                         | None => 1%N
                         end)
  /\ (Forall distinct_ids inputs ->
      forall pre o post,
        objects σ = pre ++ o :: post ->
        mediaType (payload o) = "data" ->
        objSeq o = 0%N
        /\ groupSeq o = match prev_data pre with
                        | Some p => (groupSeq p + 1)%N
                        | None => 1%N
                        end).
Proof.
  intros σ. pose proof (run_Inv init inputs Inv_init) as HI. fold σ in HI.
  assert (Hobj : forall pre o post,
             objects σ = pre ++ o :: post ->
             mediaType (payload o) = "data" ->
             objSeq o = 0%N
             /\ groupSeq o = match prev_on (trackId o) pre with
                             | Some p => (groupSeq p + 1)%N
                             | None => 1%N
                             end).
  { intros pre o post Hsplit Hdata.
    assert (Hkey : chunkType (payload o) = "key").
    { apply (inv_data σ HI); [| done]. rewrite Hsplit.
      apply elem_of_app. right. left. }
    destruct (inv_numbered σ HI pre o post Hsplit) as [Hg Ho].
    unfold next_object_state in Hg, Ho. rewrite Hkey in Hg, Ho.
    cbn in Hg, Ho. split; [done |].
    destruct (prev_on (trackId o) pre); cbn in Hg; done. }
  split.
  { intros chunkData Hdata. apply createRequest_packet_data.
    unfold createRequest_packet. rewrite Hdata. done. }
  split; [intros; by apply createRequest_data_not_dropped |].
  split; [exact Hobj |].
  intros Hcfg pre o post Hsplit Hdata.
  pose proof (run_WellTracked init inputs Hcfg Inv_init WellTracked_init) as HW.
  fold σ in HW.
  destruct (Hobj pre o post Hsplit Hdata) as [Ho Hg]. split; [done |].
  rewrite Hg. unfold prev_on, prev_data, on_track.
  rewrite (filter_agree (λ o', trackId o' = trackId o)
             (λ o', mediaType (payload o') = "data") pre); [done |].
  intros o' Hin. rewrite <- Hdata.
  apply (WellTracked_same_track σ); [done | |].
  - rewrite Hsplit. apply elem_of_app. right. left.
  - rewrite Hsplit. apply elem_of_app. by left.
Qed.

Lemma data_objects_open_groups_witness :
  Forall distinct_ids two_data_chunks
  /\ match objects (run init two_data_chunks) with
     | [o1; o2] =>
         chunkType (payload o1) = "key" /\ chunkType (payload o2) = "key"
         /\ objSeq o2 = 0%N /\ groupSeq o2 = (groupSeq o1 + 1)%N
     | _ => False
     end.
Proof.
  assert (Hcfg : Forall distinct_ids two_data_chunks).
  { repeat (constructor; [cbn; try exact I; try apply NoDup_singleton |]).
    constructor. }
  split; [exact Hcfg |].
  destruct (data_objects_open_groups two_data_chunks) as (_ & _ & _ & Hdata).
  specialize (Hdata Hcfg).
  assert (E : objects (run init two_data_chunks)
              = [{| trackId := 2; groupSeq := 1; objSeq := 0;
                    sendOrder := JS.of_Z 0;
                    payload := sample_packet "data" 0 "key" "a" |};
                 {| trackId := 2; groupSeq := 2; objSeq := 0;
                    sendOrder := JS.of_Z 1;
                    payload := sample_packet "data" 1 "key" "b" |}])
    by (vm_compute; reflexivity).
  rewrite E in Hdata |- *.
  split; [reflexivity |]. split; [reflexivity |].
  exact (Hdata [_] _ [] eq_refl eq_refl).
Defined.

(** *** The in-flight bound without overlapping dispatches *)

Lemma bounded_ext (σ σ' : Engine) :
  tracks σ' = tracks σ -> inFlightRequests σ' = inFlightRequests σ ->
  bounded σ -> bounded σ'.
Proof. intros Ht Hi Hb key track requests. rewrite Ht, Hi. apply Hb. Qed.

(** What [createSendPromise] does up to its [await], as far as the
    in-flight bound is concerned: it parks at most one call, for the
    packet it was given. *)
Lemma createSendPromise_parks (packet : Packet) (σ : Engine) :
  let out := createSendPromise packet σ in
  tracks out.1 = tracks σ
  /\ inFlightRequests out.1 = inFlightRequests σ
  /\ (awaiting out.1 = awaiting σ
      \/ exists call, awaiting out.1 = awaiting σ ++ [call]
                      /\ s_packet call = packet
                      /\ is_Some (moqPublisherState out.1 !! s_trackId call)).
Proof.
  unfold createSendPromise.
  destruct (negb (wt σ)); [cbn; auto |].
  destruct (tracks_get (tracks σ) (mediaType packet)) as [track |]; [| cbn; auto].
  destruct (negb _ && _) eqn:Edrop; [cbn; auto |].
  set (t := Track.id track).
  set (σ1 := if bool_decide _ then σ else _).
  assert (H1 : tracks σ1 = tracks σ /\ inFlightRequests σ1 = inFlightRequests σ
               /\ awaiting σ1 = awaiting σ /\ is_Some (moqPublisherState σ1 !! t)).
  { subst σ1. destruct (bool_decide_reflect (is_Some (moqPublisherState σ !! t))).
    - done.
    - cbn. rewrite lookup_insert_eq. eauto. }
  destruct H1 as (Ht & Hi & Ha & Hs).
  destruct (moqCalculateSendOrder _ _) as [sendOrder |]; cbv zeta; cbn [fst].
  - split; [done |]. split; [done |]. right. eexists. cbn. rewrite Ha. eauto.
  - auto.
Qed.

Lemma addToInflight_bounded (key : string) (p : Promise) (σ σ' : Engine)
    (track : Track.Data) (requests : gmap string Promise) :
  addToInflight key p σ = Some σ' ->
  tracks_get (tracks σ) key = Some track ->
  inFlightRequests σ !! key = Some requests ->
  (N.of_nat (inflight_length requests) < Track.maxInFlightRequests track)%N ->
  bounded σ -> bounded σ'.
Proof.
  intros Hadd Htrack Hreq Hroom Hb. unfold addToInflight in Hadd.
  rewrite Hreq in Hadd.
  destruct (bool_decide _ || inherited _) eqn:Ein; injection Hadd as <-.
  - by apply (bounded_ext σ).
  - apply SenderFacts.not_in_object in Ein as [Ep _].
    intros key' track' requests'. cbn.
    destruct (decide (key' = key)) as [-> | Hne].
    + rewrite lookup_insert_eq, Htrack. intros [= <-] [= <-].
      unfold inflight_length in *. rewrite map_size_insert_None by done. lia.
    + rewrite lookup_insert_ne by done. apply Hb.
Qed.

Lemma createSendPromise_resume_bounded (call : Suspended) (σ : Engine)
    (track : Track.Data) (requests : gmap string Promise) :
  tracks_get (tracks σ) (mediaType (s_packet call)) = Some track ->
  inFlightRequests σ !! mediaType (s_packet call) = Some requests ->
  (N.of_nat (inflight_length requests) < Track.maxInFlightRequests track)%N ->
  bounded σ -> bounded (createSendPromise_resume call σ).
Proof.
  intros Htrack Hreq Hroom Hb. unfold createSendPromise_resume.
  destruct (moqPublisherState σ !! s_trackId call) as [st |];
    [| by apply (bounded_ext σ)].
  cbv zeta.
  match goal with |- context [addToInflight ?k ?p ?s] =>
    destruct (addToInflight k p s) as [σ5 |] eqn:E end.
  - eapply (addToInflight_bounded _ _ _ _ track requests E); try done.
  - by apply (bounded_ext σ).
Qed.

(** A message that finds the worker running with nothing parked, followed
    by the opening of the stream it asked for, if any, keeps the bound and
    leaves nothing parked. *)
Lemma inflight_bound_without_overlap (e : MessageData) (env : IniEnv)
    (σ : Engine) :
  workerState σ = Running -> awaiting σ = [] -> bounded σ ->
  let σ' := step (step σ (Message e env)) (StreamOpened 0) in
  bounded σ' /\ awaiting σ' = [].
Proof.
  intros Hrun Hnone Hb. cbn [step]. unfold listener. rewrite Hrun.
  cbn [StateEnum_eqb]. rewrite Hrun. cbn [StateEnum_eqb].
  destruct (String.eqb (type e) "stop").
  { destruct (listener_stop_fields σ) as (Sw & St & Sm & Si & Sa & So & Ss & Sc & Sl & Sst).
    rewrite Sa, Hnone. cbn. split; [by apply (bounded_ext σ) | by rewrite Sa]. }
  destruct (String.eqb (type e) "muxersendini").
  { unfold listener_ini. rewrite Hrun. cbn. rewrite Hnone. cbn.
    split; [by apply (bounded_ext σ) | done]. }
  unfold listener_chunk. rewrite Hrun. cbn [StateEnum_eqb negb].
  assert (Hquiet : forall σ1, tracks σ1 = tracks σ ->
            inFlightRequests σ1 = inFlightRequests σ -> awaiting σ1 = [] ->
            bounded match awaiting σ1 !! 0%nat with
                    | Some call =>
                        createSendPromise_resume call
                          (set_awaiting (delete 0%nat (awaiting σ1)) σ1)
                    | None => σ1
                    end
            /\ awaiting match awaiting σ1 !! 0%nat with
                        | Some call =>
                            createSendPromise_resume call
                              (set_awaiting (delete 0%nat (awaiting σ1)) σ1)
                        | None => σ1
                        end = []).
  { intros σ1 Ht Hi Ha. rewrite Ha. cbn. split; [by apply (bounded_ext σ) | done]. }
  destruct (tracks_get (tracks σ) (type e)) as [track |] eqn:Etrack;
    [| destruct (inherited (type e)); apply Hquiet; done].
  destruct (match Track.numSubscribers track with
            | Some n => (n <=? 0)%N
            | None => true
            end); [apply Hquiet; done |].
  destruct (inFlightRequests σ !! type e) as [requests |] eqn:Ereq.
  2:{ destruct (isSendingStats σ); apply Hquiet; done. }
  unfold sendChunkToTransport.
  destruct (N.leb_spec (Track.maxInFlightRequests track)
              (N.of_nat (inflight_length requests))) as [Hfull | Hroom].
  { destruct (isSendingStats σ); apply Hquiet; done. }
  unfold createRequest.
  set (packet := createRequest_packet _).
  assert (Hmedia : mediaType packet = type e).
  { subst packet. unfold createRequest_packet. destruct (String.eqb _ "data"); done. }
  destruct (createSendPromise_parks packet σ) as (Ht & Hi & Ha).
  destruct (createSendPromise packet σ) as [σ1 res]. cbn [fst] in Ht, Hi, Ha.
  rewrite Hnone in Ha.
  assert (Hb1 : bounded σ1) by (by apply (bounded_ext σ)).
  assert (Hgoal : forall σ2, tracks σ2 = tracks σ1 ->
            inFlightRequests σ2 = inFlightRequests σ1 ->
            awaiting σ2 = awaiting σ1 ->
            moqPublisherState σ2 = moqPublisherState σ1 ->
            bounded match awaiting σ2 !! 0%nat with
                    | Some call =>
                        createSendPromise_resume call
                          (set_awaiting (delete 0%nat (awaiting σ2)) σ2)
                    | None => σ2
                    end
            /\ awaiting match awaiting σ2 !! 0%nat with
                        | Some call =>
                            createSendPromise_resume call
                              (set_awaiting (delete 0%nat (awaiting σ2)) σ2)
                        | None => σ2
                        end = []).
  { intros σ2 Ht2 Hi2 Ha2 Hs2.
    destruct Ha as [Ha | (call & Ha & Hp & [st Hst])]; rewrite Ha2, Ha.
    - cbn. split; [apply (bounded_ext σ1); done | congruence].
    - cbn [app lookup list_lookup delete list_delete].
      assert (Hst2 : moqPublisherState
                       (set_awaiting [] σ2) !! s_trackId call = Some st)
        by (cbn; congruence).
      destruct (createSendPromise_resume_fields call st (set_awaiting [] σ2) Hst2)
        as (_ & Ea & _ & _).
      split; [| exact Ea].
      apply (createSendPromise_resume_bounded call _ track requests).
      + cbn. rewrite Hp, Hmedia, Ht2, Ht. done.
      + cbn. rewrite Hp, Hmedia, Hi2, Hi. done.
      + done.
      + apply (bounded_ext σ1); done. }
  destruct res, (isSendingStats σ1); apply Hgoal; done.
Qed.

(** The settlement of a close and a subscription keep the bound. *)
Lemma inflight_bound_other_inputs (σ : Engine) (input : Input) :
  match input with
  | CloseSettled _ _ | SubscribeParsed _ | ExitSettled _ => True
  | _ => False
  end ->
  bounded σ -> bounded (step σ input).
Proof.
  destruct input as [e env | i | i | packet ok | subscribe | rejected]; try done; intros _ Hb.
  - cbn [step].
    assert (Hrem : bounded (removeFromInflight (mediaType packet) (pId packet) σ)).
    { unfold removeFromInflight.
      destruct (inFlightRequests σ !! mediaType packet) as [requests |] eqn:Ereq;
        [| done].
      destruct (requests !! pId packet) eqn:Ep; [| done].
      intros key track requests'. cbn.
      destruct (decide (key = mediaType packet)) as [-> | Hne].
      - rewrite lookup_insert_eq. intros Htrack [= <-].
        specialize (Hb _ _ _ Htrack Ereq). unfold inflight_length in *.
        pose proof (map_size_delete (pId packet) requests) as Hsz.
        rewrite Ep in Hsz. cbn in Hsz. lia.
      - rewrite lookup_insert_ne by done. apply Hb. }
    destruct ok;
      by apply (bounded_ext (removeFromInflight (mediaType packet) (pId packet) σ)).
  - cbn [step]. destruct (subscriptionLoop σ); [| done].
    assert (Hbody : bounded (subscriptionLoop_body subscribe σ)).
    { unfold subscriptionLoop_body.
      destruct (getTrack _ _ _) as [[j track] |]; [| by apply (bounded_ext σ)].
      destruct (authInfo_differs track subscribe); [by apply (bounded_ext σ) |].
      intros key track' requests. cbn. intros Htrack Hreq.
      assert (Hmax : exists track0, tracks_get (tracks σ) key = Some track0
                       /\ Track.maxInFlightRequests track0
                          = Track.maxInFlightRequests track').
      { clear -Htrack. revert j Htrack.
        induction (tracks σ) as [| [k t] rest IH]; intros j; [by destruct j |].
        destruct j as [| j]; cbn.
        - destruct (String.eqb k key); [intros [= <-]; eauto | eauto].
        - destruct (String.eqb k key); [eauto | apply IH]. }
      destruct Hmax as (track0 & Htrack0 & <-). by apply (Hb key). }
    destruct (StateEnum_eqb _ Running); [done |].
    by apply (bounded_ext (subscriptionLoop_body subscribe σ)).
  - destruct (exit_settled_fields σ rejected)
      as (Sw & St & Sm & Si & Sa & So & Ss & Sc & Sl & Sst).
    by apply (bounded_ext σ).
Qed.

(** When the worker starts running, every track has an empty object. *)
Lemma initInflightReqData_empty (tracks : Tracks) (key : string)
    (requests : gmap string Promise) :
  initInflightReqData tracks !! key = Some requests -> requests = ∅.
Proof.
  unfold initInflightReqData.
  assert (Hgen : forall acc : gmap string (gmap string Promise),
            (forall k r, acc !! k = Some r -> r = ∅) ->
            foldl (λ ret entry, <[entry.1 := ∅]> ret) acc tracks !! key
            = Some requests -> requests = ∅).
  { induction tracks as [| [k t] rest IH]; intros acc Hacc; cbn [foldl].
    - apply Hacc.
    - apply IH. intros k' r. cbn. destruct (decide (k' = k)) as [-> | Hne].
      + rewrite lookup_insert_eq. by intros [= <-].
      + rewrite lookup_insert_ne by done. apply Hacc. }
  apply Hgen. intros k r. rewrite lookup_empty. done.
Qed.

End DispatcherFacts.

(** ** Tracks and their configuration *)
Module TrackFacts.

Local Open Scope list_scope.

(** [getTrack] finds nothing exactly when no track has that namespace and
    name. *)
Lemma getTrack_None (tracks : Tracks) (namespace trackName : string) :
  Sender.getTrack tracks namespace trackName = None
  <-> forall key track, (key, track) ∈ tracks ->
        ~ (Track.namespace track = namespace /\ Track.name track = trackName).
Proof.
  induction tracks as [| [k t] rest IH]; cbn [Sender.getTrack].
  - split; [intros _ key track Hin; inversion Hin | done].
  - destruct (String.eqb (Track.namespace t) namespace) eqn:Ens;
      destruct (String.eqb (Track.name t) trackName) eqn:Enm; cbn [andb].
    + apply String.eqb_eq in Ens, Enm. split; [done |].
      intros H. exfalso. apply (H k t); [apply list_elem_of_here | done].
    + apply String.eqb_neq in Enm. rewrite fmap_None, IH. split.
      * intros H key track [[= -> ->] | Hin]%elem_of_cons; [tauto | eauto].
      * intros H key track Hin. apply (H key track). by apply list_elem_of_further.
    + apply String.eqb_neq in Ens. rewrite fmap_None, IH. split.
      * intros H key track [[= -> ->] | Hin]%elem_of_cons; [tauto | eauto].
      * intros H key track Hin. apply (H key track). by apply list_elem_of_further.
    + apply String.eqb_neq in Ens. rewrite fmap_None, IH. split.
      * intros H key track [[= -> ->] | Hin]%elem_of_cons; [tauto | eauto].
      * intros H key track Hin. apply (H key track). by apply list_elem_of_further.
Qed.

(** X1.  [getTrack] returns the first track, in the order of
    [Object.entries], whose namespace and name are the ones asked for:
    the entry it returns matches and no entry before it does; it returns
    [null] exactly when no entry matches. *)
Theorem getTrack_first_match (tracks : Tracks) (namespace trackName : string) :
  match Sender.getTrack tracks namespace trackName with
  | Some (i, track) =>
      (exists key, tracks !! i = Some (key, track))
      /\ Track.namespace track = namespace /\ Track.name track = trackName
      /\ forall j key other,
           (j < i)%nat -> tracks !! j = Some (key, other) ->
           ~ (Track.namespace other = namespace
              /\ Track.name other = trackName)
  | None =>
      forall key other, (key, other) ∈ tracks ->
        ~ (Track.namespace other = namespace /\ Track.name other = trackName)
  end.
Proof.
  destruct (Sender.getTrack tracks namespace trackName) as [[i track] |] eqn:E.
  - revert i E. induction tracks as [| [k t] rest IH]; intros i; cbn [Sender.getTrack].
    + done.
    + destruct (String.eqb (Track.namespace t) namespace) eqn:Ens;
        destruct (String.eqb (Track.name t) trackName) eqn:Enm; cbn [andb].
      * intros [= <- <-]. apply String.eqb_eq in Ens, Enm.
        split; [by exists k |]. repeat split; try done. intros j ? ? Hj. lia.
      * apply String.eqb_neq in Enm.
        destruct (Sender.getTrack rest namespace trackName) as [[i' t'] |];
          [| done].
        intros [= <- <-]. destruct (IH i' eq_refl) as (Hk & Hn & Hm & Hfirst).
        repeat split; try done. intros [| j] key other Hj; cbn.
        -- intros [= <- <-]. tauto.
        -- apply Hfirst. lia.
      * apply String.eqb_neq in Ens.
        destruct (Sender.getTrack rest namespace trackName) as [[i' t'] |];
          [| done].
        intros [= <- <-]. destruct (IH i' eq_refl) as (Hk & Hn & Hm & Hfirst).
        repeat split; try done. intros [| j] key other Hj; cbn.
        -- intros [= <- <-]. tauto.
        -- apply Hfirst. lia.
      * apply String.eqb_neq in Ens.
        destruct (Sender.getTrack rest namespace trackName) as [[i' t'] |];
          [| done].
        intros [= <- <-]. destruct (IH i' eq_refl) as (Hk & Hn & Hm & Hfirst).
        repeat split; try done. intros [| j] key other Hj; cbn.
        -- intros [= <- <-]. tauto.
        -- apply Hfirst. lia.
  - by apply getTrack_None.
Qed.

(** X2.  [checkTrackData] accepts a configuration exactly when it has at
    least one track and every track has [namespace], [name] and
    [authInfo]; an empty configuration gets the first message, whatever
    else holds, and a configuration with an incomplete track the
    second. *)
Theorem checkTrackData_accepts (tracks : list (string * TrackConfig.Data)) :
  let complete (entry : string * TrackConfig.Data) :=
    is_Some (TrackConfig.namespace entry.2)
    /\ is_Some (TrackConfig.name entry.2)
    /\ is_Some (TrackConfig.authInfo entry.2) in
  (TrackConfig.checkTrackData tracks = ""
   <-> tracks <> [] /\ Forall complete tracks)
  /\ (tracks = [] ->
      TrackConfig.checkTrackData tracks
      = "Number of Track Ids to announce needs to be > 0")
  /\ (tracks <> [] -> ~ Forall complete tracks ->
      TrackConfig.checkTrackData tracks
      = "Track malformed, needs to contain namespace, name, and authInfo").
Proof.
  intros complete.
  assert (Hwf : forall entry,
             TrackConfig.well_formed entry.2 = true <-> complete entry).
  { intros [k t]. unfold TrackConfig.well_formed, complete. cbn [snd].
    rewrite !andb_true_iff, !bool_decide_eq_true. tauto. }
  assert (Hloop : forall entries,
             (Forall complete entries -> TrackConfig.check_entries entries = "")
             /\ (~ Forall complete entries ->
                 TrackConfig.check_entries entries
                 = "Track malformed, needs to contain namespace, name, and authInfo")).
  { induction entries as [| [k t] rest [IHok IHbad]]; cbn [TrackConfig.check_entries].
    - split; [done | intros H; by destruct H].
    - destruct (TrackConfig.well_formed t) eqn:E; cbn [negb].
      + apply (Hwf (k, t)) in E. split.
        * intros H. apply IHok. by inversion H.
        * intros H. apply IHbad. intros Hrest. apply H. by constructor.
      + split; [| done]. intros H. inversion H as [| ? ? Hc _]; subst.
        apply (Hwf (k, t)) in Hc. cbn [snd] in Hc. congruence. }
  assert (classic_forall : forall entries,
             Forall complete entries \/ ~ Forall complete entries).
  { induction entries as [| entry rest [IH | IH]].
    - by left.
    - destruct (TrackConfig.well_formed entry.2) eqn:E.
      + left. constructor; [by apply Hwf | done].
      + right. intros H. inversion H as [| ? ? Hc _]; subst.
        apply Hwf in Hc. congruence.
    - right. intros H. by inversion H. }
  unfold TrackConfig.checkTrackData. destruct tracks as [| entry rest].
  - cbn. repeat split; try done. by intros [? _].
  - cbn [length Nat.leb]. destruct (Hloop (entry :: rest)) as [Hok Hbad].
    split; [split | split; [done | intros _ Hn; by apply Hbad]].
    + intros Hcheck. split; [done |].
      destruct (classic_forall (entry :: rest)) as [| Hn]; [done |].
      rewrite (Hbad Hn) in Hcheck. discriminate.
    + intros [_ H]. by apply Hok.
Qed.

(** [getTrackTypeFromTrackId] finds nothing when no track has that id. *)
Lemma getTrackTypeFromTrackId_None (tracks : Tracks) (trackId : N) :
  (forall key other, (key, other) ∈ tracks -> Track.id other <> trackId) ->
  Downloader.getTrackTypeFromTrackId tracks trackId = None.
Proof.
  induction tracks as [| [k t] rest IH]; intros Hno; [done |].
  cbn [Downloader.getTrackTypeFromTrackId].
  destruct (N.eqb_spec (Track.id t) trackId) as [Heq | _].
  - exfalso. apply (Hno k t); [apply list_elem_of_here | done].
  - apply IH. intros key other Hin. apply (Hno key other).
    by apply list_elem_of_further.
Qed.

(** X3.  [getTrackTypeFromTrackId] returns the key of the first track, in
    the order of [Object.entries], whose id is the one asked for, and
    [undefined] exactly when no track has that id. *)
Theorem getTrackTypeFromTrackId_first_match (tracks : Tracks) (trackId : N) :
  match Downloader.getTrackTypeFromTrackId tracks trackId with
  | Some trackType =>
      exists i track,
        tracks !! i = Some (trackType, track) /\ Track.id track = trackId
        /\ forall j key other,
             (j < i)%nat -> tracks !! j = Some (key, other) ->
             Track.id other <> trackId
  | None =>
      forall key other, (key, other) ∈ tracks -> Track.id other <> trackId
  end.
Proof.
  induction tracks as [| [k t] rest IH]; cbn [Downloader.getTrackTypeFromTrackId].
  - intros key other Hin. inversion Hin.
  - destruct (N.eqb_spec (Track.id t) trackId) as [Heq | Hne].
    + exists 0%nat, t. repeat split; try done. intros j ? ? Hj. lia.
    + destruct (Downloader.getTrackTypeFromTrackId rest trackId) as [trackType |].
      * destruct IH as (i & track & Hi & Hid & Hfirst).
        exists (S i), track. repeat split; try done.
        intros [| j] key other Hj; cbn.
        -- by intros [= <- <-].
        -- apply Hfirst. lia.
      * intros key other [[= -> ->] | Hin]%elem_of_cons; [done | eauto].
Qed.

(** X4.  When the tracks have pairwise different ids, the id of a track
    leads back to its key: [getTrackTypeFromTrackId(tracks[key].id)] is
    [key]. *)
Theorem track_id_round_trip (tracks : Tracks) (key : string)
    (track : Track.Data) :
  NoDup ((Track.id ∘ snd) <$> tracks) ->
  tracks_get tracks key = Some track ->
  Downloader.getTrackTypeFromTrackId tracks (Track.id track) = Some key.
Proof.
  induction tracks as [| [k t] rest IH]; [done |].
  rewrite fmap_cons, NoDup_cons. cbn [compose snd]. intros [Hnew Hrest].
  cbn [tracks_get Downloader.getTrackTypeFromTrackId].
  destruct (String.eqb_spec k key) as [-> | Hk].
  - intros [= ->]. by rewrite N.eqb_refl.
  - intros Hget. destruct (N.eqb_spec (Track.id t) (Track.id track)) as [Heq | _].
    + exfalso. apply Hnew. rewrite Heq.
      by apply (DispatcherFacts.tracks_get_id_in rest key).
    + by apply IH.
Qed.

Lemma track_id_round_trip_witness :
  Downloader.getTrackTypeFromTrackId Sender.sample_tracks 1 = Some "video".
Proof.
  apply (track_id_round_trip Sender.sample_tracks "video"
           (Sender.sample_track 1 "video" false 1)).
  - apply (bool_decide_eq_true_1 (NoDup _)). vm_compute. reflexivity.
  - reflexivity.
Defined.

End TrackFacts.

(** ** The in-flight requests *)
Module InflightFacts.

Import Sender.
Local Open Scope list_scope.

(** [initInflightReqData] started from [acc]: the keys of the tracks get
    an empty object, the other keys keep what [acc] has. *)
Lemma initInflightReqData_foldl (tracks : Tracks)
    (acc : gmap string (gmap string Promise)) (key : string) :
  foldl (λ ret entry, <[entry.1 := ∅]> ret) acc tracks !! key
  = if decide (key ∈ tracks.*1) then Some ∅ else acc !! key.
Proof.
  revert acc. induction tracks as [| [k t] rest IH]; intros acc; cbn [foldl].
  - rewrite decide_False; [done | by intros ?%elem_of_nil].
  - rewrite IH. cbn [fst]. rewrite fmap_cons. cbn [fst].
    destruct (decide (key ∈ rest.*1)) as [Hin | Hout].
    + rewrite decide_True; [done | by apply list_elem_of_further].
    + destruct (decide (key = k)) as [-> | Hne].
      * rewrite lookup_insert_eq. rewrite decide_True; [done | apply list_elem_of_here].
      * rewrite lookup_insert_ne by done.
        rewrite decide_False; [done |].
        intros [? | ?]%elem_of_cons; done.
Qed.

(** X5.  [initInflightReqData] gives an empty object to every track key
    and to nothing else. *)
Theorem initInflightReqData_lookup (tracks : Tracks) (key : string) :
  initInflightReqData tracks !! key
  = if decide (key ∈ tracks.*1) then Some ∅ else None.
Proof.
  unfold initInflightReqData. rewrite initInflightReqData_foldl.
  by rewrite lookup_empty.
Qed.

(** X6.  [addToInflight] never overwrites: when the id of the promise is
    already pending for the track, or is a name that every object
    inherits (such as "constructor"), the objects stay as they are and
    an error is reported; otherwise the promise is stored under its id,
    nothing is reported, and [removeFromInflight] for that id brings
    [inFlightRequests] back to what it was. *)
Theorem inflight_add_remove (mediaType : string) (p : Promise) (σ : Engine)
    (requests : gmap string Promise) :
  inFlightRequests σ !! mediaType = Some requests ->
  (is_Some (requests !! p_id p) \/ inherited (p_id p) = true ->
     exists σ',
       addToInflight mediaType p σ = Some σ'
       /\ inFlightRequests σ' = inFlightRequests σ
       /\ toMain σ'
          = toMain σ
              ++ [Error "id already exists in inflight, this should never happen"])
  /\ (requests !! p_id p = None -> inherited (p_id p) = false ->
      exists σ',
        addToInflight mediaType p σ = Some σ'
        /\ inFlightRequests σ' !! mediaType = Some (<[p_id p := p]> requests)
        /\ pending σ' mediaType (p_id p) p
        /\ toMain σ' = toMain σ
        /\ inFlightRequests (removeFromInflight mediaType (p_id p) σ')
           = inFlightRequests σ
        /\ toMain (removeFromInflight mediaType (p_id p) σ') = toMain σ).
Proof.
  intros Hreq. unfold addToInflight. rewrite Hreq. split.
  - intros Hin.
    assert (Htest : bool_decide (is_Some (requests !! p_id p))
                    || inherited (p_id p) = true).
    { destruct Hin as [Hown | ->]; [| apply orb_true_r].
      by rewrite (bool_decide_eq_true_2 _ Hown). }
    rewrite Htest. eexists. split; [done |]. by cbn.
  - intros Hnew Hnot.
    rewrite (proj2 (SenderFacts.not_in_object requests (p_id p)) (conj Hnew Hnot)).
    eexists. split; [done |].
    unfold removeFromInflight, pending.
    cbn [inFlightRequests set_inFlightRequests toMain].
    rewrite !lookup_insert_eq. repeat split; try done.
    + eexists. split; [done |]. by rewrite lookup_insert_eq.
    + rewrite insert_insert_eq, delete_insert_id by done.
      by rewrite insert_id.
Qed.

Lemma inflight_add_remove_witness :
  (exists σ',
     addToInflight "video" {| p_id := "a"; stream := 0 |} subscribed = Some σ'
     /\ inflight_length <$> inFlightRequests σ' !! "video" = Some 1%nat
     /\ inFlightRequests
          (removeFromInflight "video" "a" σ')
        = inFlightRequests subscribed)
  /\ (exists σ',
        addToInflight "video" {| p_id := "constructor"; stream := 0 |} subscribed
        = Some σ'
        /\ inFlightRequests σ' = inFlightRequests subscribed
        /\ toMain σ'
           = toMain subscribed
               ++ [Error "id already exists in inflight, this should never happen"]).
Proof.
  assert (Hreq : inFlightRequests subscribed !! "video" = Some ∅)
    by (vm_compute; reflexivity).
  split.
  - destruct (inflight_add_remove "video" {| p_id := "a"; stream := 0 |}
                subscribed ∅ Hreq) as [_ Hfresh].
    destruct (Hfresh eq_refl eq_refl) as (σ' & Hadd & Hin & _ & _ & Hback & _).
    exists σ'. split; [exact Hadd |]. split; [| exact Hback].
    rewrite Hin. reflexivity.
  - destruct (inflight_add_remove "video"
                {| p_id := "constructor"; stream := 0 |} subscribed ∅ Hreq)
      as [Hrefused _].
    apply Hrefused. right. vm_compute. reflexivity.
Defined.

(** X7.  [removeFromInflight] removes the entry of that id from the
    object of that track and touches nothing else: no other entry of any
    track changes, nothing is reported, and removing the same id again
    changes nothing. *)
Theorem removeFromInflight_only_entry (mediaType id : string) (σ : Engine) :
  let σ' := removeFromInflight mediaType id σ in
  (forall p, ~ pending σ' mediaType id p)
  /\ (forall key id0 p, (key, id0) <> (mediaType, id) ->
        pending σ' key id0 p <-> pending σ key id0 p)
  /\ (forall key, is_Some (inFlightRequests σ' !! key)
                  <-> is_Some (inFlightRequests σ !! key))
  /\ toMain σ' = toMain σ
  /\ removeFromInflight mediaType id σ' = σ'.
Proof.
  cbv zeta. unfold removeFromInflight, pending.
  destruct (inFlightRequests σ !! mediaType) as [requests |] eqn:Hreq.
  - destruct (requests !! id) as [q |] eqn:Hq.
    + cbn [inFlightRequests set_inFlightRequests toMain].
      split; [| split; [| split; [| split]]].
      * intros p (r & Hr & Hp). rewrite lookup_insert_eq in Hr.
        injection Hr as <-. by rewrite lookup_delete_eq in Hp.
      * intros key id0 p Hne. destruct (decide (key = mediaType)) as [-> | Hk].
        -- rewrite lookup_insert_eq. split.
           ++ intros (r & [= <-] & Hr). exists requests. split; [done |].
              rewrite lookup_delete_ne in Hr; [done | congruence].
           ++ intros (r & Hr & Hp). rewrite Hreq in Hr. injection Hr as <-.
              exists (delete id requests). split; [done |].
              rewrite lookup_delete_ne; [done | congruence].
        -- by rewrite lookup_insert_ne.
      * intros key. destruct (decide (key = mediaType)) as [-> | Hk].
        -- by rewrite lookup_insert_eq, Hreq.
        -- by rewrite lookup_insert_ne.
      * done.
      * by rewrite lookup_insert_eq, lookup_delete_eq.
    + rewrite Hreq, Hq. repeat split; try done.
      intros p (r & Hr & Hp). congruence.
  - rewrite Hreq. repeat split; try done.
    intros p (r & Hr & Hp). congruence.
Qed.

(** The values of an object are the promises stored under some id. *)
Lemma object_values_elem (requests : gmap string Promise) (p : Promise) :
  p ∈ object_values requests <-> exists id, requests !! id = Some p.
Proof.
  unfold object_values. rewrite list_elem_of_fmap. split.
  - intros ([id q] & -> & Hin). exists id. by apply elem_of_map_to_list.
  - intros (id & Hid). exists (id, p). split; [done |].
    by apply elem_of_map_to_list.
Qed.

(** Once [Object.values] has thrown, the loop is left. *)
Lemma getAllInflightRequestsArray_thrown (σ : Engine) (entries : Tracks) :
  foldl (λ ret entry,
           match ret, track_values (inFlightRequests σ) entry.1 with
           | Some ret, Some values => Some (ret ++ (ret ++ values))
           | _, _ => None
           end) None entries = None.
Proof. by induction entries. Qed.

(** [Object.values] throws exactly for a key that [inFlightRequests]
    neither has nor inherits; the values of a track are its pending
    promises. *)
Lemma track_values_None (requests : gmap string (gmap string Promise))
    (key : string) :
  track_values requests key = None
  <-> requests !! key = None /\ inherited key = false.
Proof.
  unfold track_values. destruct (requests !! key); [by split; [| intros []] |].
  destruct (inherited key); split; try done. by intros [].
Qed.

Lemma track_values_Some (σ : Engine) (key : string) (values : list Promise)
    (p : Promise) :
  track_values (inFlightRequests σ) key = Some values ->
  p ∈ values <-> exists id, pending σ key id p.
Proof.
  unfold track_values, pending.
  destruct (inFlightRequests σ !! key) as [obj |] eqn:Hobj.
  - intros [= <-]. rewrite object_values_elem. split.
    + intros (id & Hid). exists id, obj. done.
    + intros (id & r & [= <-] & Hid). by exists id.
  - destruct (inherited key); [| done]. intros [= <-].
    split; [by intros ?%elem_of_nil |]. by intros (id & r & Hr & _).
Qed.

(** [getAllInflightRequestsArray] throws exactly when some track has no
    object in [inFlightRequests]; what it returns holds exactly the
    pending promises of the tracks. *)
Lemma getAllInflightRequestsArray_spec (σ : Engine) :
  (getAllInflightRequestsArray σ = None
   <-> exists key, key ∈ (tracks σ).*1
                   /\ inFlightRequests σ !! key = None
                   /\ inherited key = false)
  /\ (forall ret p,
         getAllInflightRequestsArray σ = Some ret ->
         p ∈ ret <-> exists key id, key ∈ (tracks σ).*1 /\ pending σ key id p).
Proof.
  unfold getAllInflightRequestsArray.
  set (f := λ (ret : option (list Promise)) (entry : string * Track.Data),
              match ret, track_values (inFlightRequests σ) entry.1 with
              | Some ret, Some values => Some (ret ++ (ret ++ values))
              | _, _ => None
              end).
  assert (Hthrown : forall entries : Tracks, foldl f None entries = None)
    by (intros entries; apply getAllInflightRequestsArray_thrown).
  assert (Hgen : forall (entries : Tracks) acc,
            (foldl f (Some acc) entries = None
             <-> exists key, key ∈ entries.*1
                             /\ inFlightRequests σ !! key = None
                             /\ inherited key = false)
            /\ (forall ret p,
                   foldl f (Some acc) entries = Some ret ->
                   p ∈ ret
                   <-> p ∈ acc
                       \/ exists key id, key ∈ entries.*1 /\ pending σ key id p)).
  { induction entries as [| [k t] rest IH]; intros acc; cbn [foldl].
    - split.
      + split; [done |]. intros (key & Hin & _). by apply elem_of_nil in Hin.
      + intros ret p [= <-]. split; [by left |].
        intros [H | (key & id & Hin & _)]; [done |]. by apply elem_of_nil in Hin.
    - rewrite fmap_cons. cbn [fst]. unfold f at 2. unfold f at 3. cbn [fst].
      destruct (track_values (inFlightRequests σ) k) as [values |] eqn:Hv.
      + destruct (IH (acc ++ (acc ++ values))) as [IHnone IHsome]. split.
        * rewrite IHnone. split.
          -- intros (key & Hin & Hmiss). exists key.
             split; [by apply list_elem_of_further | done].
          -- intros (key & [-> | Hin]%elem_of_cons & Hmiss).
             ++ apply track_values_None in Hmiss. congruence.
             ++ by exists key.
        * intros ret p Hret.
          rewrite (IHsome ret p Hret), !elem_of_app,
            (track_values_Some σ k values p Hv).
          split.
          -- intros [[H | [H | (id & Hid)]] | (key & id & Hin & Hp)].
             ++ by left.
             ++ by left.
             ++ right. exists k, id. split; [apply list_elem_of_here | done].
             ++ right. exists key, id.
                split; [by apply list_elem_of_further | done].
          -- intros [H | (key & id & [-> | Hin]%elem_of_cons & Hp)].
             ++ left. by left.
             ++ left. right. right. by exists id.
             ++ right. by exists key, id.
      + apply track_values_None in Hv. split.
        * rewrite Hthrown. split; [| done].
          intros _. exists k. split; [apply list_elem_of_here | done].
        * intros ret p. by rewrite Hthrown. }
  destruct (Hgen (tracks σ) []) as [Hnone Hsome]. split; [done |].
  intros ret p Hret. rewrite (Hsome ret p Hret). split; [| by right].
  intros [H | H]; [| done]. by apply elem_of_nil in H.
Qed.

(** X8.  The array that 'stop' waits for, [getAllInflightRequestsArray].
    The function throws exactly when [inFlightRequests] has no object
    for the key of some track (and the key is not an inherited name), as
    it is before the first successful initialisation.  When it returns,
    the array holds exactly the promises that are pending for a
    configured track: no pending promise of a track is left out, and
    nothing else is in it.  In the 'stop' branch the host is told when
    the function throws, and the transport is dropped at once; when it
    returns an empty array the transport is dropped at once and the host
    is told nothing; otherwise the handler waits, the host is told when
    the wait ends with a close that failed, and the transport is dropped
    when the wait ends. *)
Theorem getAllInflightRequestsArray_elements (σ : Engine) :
  (getAllInflightRequestsArray σ = None
   <-> exists key, key ∈ (tracks σ).*1
                   /\ inFlightRequests σ !! key = None
                   /\ inherited key = false)
  /\ (forall ret p,
         getAllInflightRequestsArray σ = Some ret ->
         p ∈ ret <-> exists key id, key ∈ (tracks σ).*1 /\ pending σ key id p)
  /\ (getAllInflightRequestsArray σ = None ->
        toMain (listener_stop σ)
        = toMain σ ++ [Info "Aborting streams while exiting. Err: TypeError"]
        /\ wt (listener_stop σ) = false
        /\ exiting (listener_stop σ) = exiting σ)
  /\ (getAllInflightRequestsArray σ = Some [] ->
        toMain (listener_stop σ) = toMain σ
        /\ wt (listener_stop σ) = false
        /\ exiting (listener_stop σ) = exiting σ)
  /\ (forall p ret,
        getAllInflightRequestsArray σ = Some (p :: ret) ->
        toMain (listener_stop σ) = toMain σ
        /\ wt (listener_stop σ) = wt σ
        /\ exiting (listener_stop σ) = true
        /\ toMain (step (listener_stop σ) (ExitSettled true))
           = toMain σ
               ++ [Info "Aborting streams while exiting. Err: stream closed with an error"]
        /\ toMain (step (listener_stop σ) (ExitSettled false)) = toMain σ
        /\ (forall rejected,
              wt (step (listener_stop σ) (ExitSettled rejected)) = false
              /\ exiting (step (listener_stop σ) (ExitSettled rejected)) = false
              /\ workerState (step (listener_stop σ) (ExitSettled rejected))
                 = Stopped)).
Proof.
  assert (Hstop : getAllInflightRequestsArray (set_workerState Stopped σ)
                  = getAllInflightRequestsArray σ) by done.
  destruct (getAllInflightRequestsArray_spec σ) as [Hnone Hsome].
  split; [exact Hnone |]. split; [exact Hsome |].
  unfold listener_stop. rewrite Hstop.
  split; [by intros -> |]. split; [by intros -> |].
  intros p ret ->. cbn. repeat split; by destruct rejected.
Qed.

Lemma getAllInflightRequestsArray_elements_witness :
  getAllInflightRequestsArray
    (run init [Message (ini_without_host sample_tracks) relay])
  = None
  /\ toMain (run init [Message (ini_without_host sample_tracks) relay;
                       Message stop_message relay])
     = [Error "Empty host port";
        Info "Aborting streams while exiting. Err: TypeError"].
Proof.
  set (σ := run init [Message (ini_without_host sample_tracks) relay]).
  assert (Hnone : getAllInflightRequestsArray σ = None)
    by (vm_compute; reflexivity).
  split; [exact Hnone |].
  destruct (getAllInflightRequestsArray_elements σ) as (_ & _ & Hthrown & _).
  destruct (Hthrown Hnone) as (Hmain & _).
  change (toMain (listener_stop σ)
          = [Error "Empty host port";
             Info "Aborting streams while exiting. Err: TypeError"]).
  rewrite Hmain. vm_compute. reflexivity.
Defined.


End InflightFacts.

(** ** The message listener of the publisher *)
Module ListenerFacts.

Import Sender.
Local Open Scope list_scope.

(** [emit_all] only extends the events. *)
Lemma emit_all_eq (evs : list Event) (σ : Engine) :
  emit_all evs σ
  = {| workerState := workerState σ; isSendingStats := isSendingStats σ;
       tracks := tracks σ; moqPublisherState := moqPublisherState σ;
       inFlightRequests := inFlightRequests σ; wt := wt σ;
       awaiting := awaiting σ; subscriptionLoop := subscriptionLoop σ;
       exiting := exiting σ;
       streams := streams σ; toMain := toMain σ ++ evs;
       objects := objects σ; control := control σ |}.
Proof.
  unfold emit_all. revert σ. induction evs as [| ev evs IH]; intros σ; cbn [foldl].
  - rewrite app_nil_r. by destruct σ.
  - rewrite IH. cbn. by rewrite <- app_assoc.
Qed.

(** The 'muxersendini' branch parks nothing, writes no object and leaves
    the in-flight requests alone unless the session is set up. *)
Lemma listener_ini_awaiting (cfg : MuxerSenderConfig) (env : IniEnv) (σ : Engine) :
  awaiting (listener_ini cfg env σ) = awaiting σ.
Proof.
  unfold listener_ini.
  destruct (negb (StateEnum_eqb (workerState σ) Instantiated)); [done |].
  destruct (cfg_isSendingStats cfg), (moqTracks cfg);
    cbn [tracks set_tracks set_isSendingStats];
    (destruct (String.eqb _ ""); [done |]);
    (destruct (negb (String.eqb _ "")); [done |]);
    (destruct (negb (fingerprint_ok env)); [done |]);
    (destruct (negb (transport_ready env)); [done |]);
    (destruct (moqCreatePublisherSession _ _ _) as [[ms evs] res]);
    destruct res; cbn; rewrite ?emit_all_eq; done.
Qed.

(** The chunk branch leaves the state of the session as it is. *)
Lemma listener_chunk_workerState (e : MessageData) (σ : Engine) :
  workerState (listener_chunk e σ) = workerState σ.
Proof.
  unfold listener_chunk.
  destruct (negb (StateEnum_eqb (workerState σ) Running)); [done |].
  destruct (tracks_get (tracks σ) (type e)) as [track |]; [| by destruct (inherited (type e))].
  destruct (match Track.numSubscribers track with
            | Some n => (n <=? 0)%N | None => true end); [done |].
  assert (Hsend : forall requests,
            workerState (sendChunkToTransport
                           (Some {| cd_mediaType := type e;
                                    cd_seqId := default (JS.of_Z 0) (msg_seqId e);
                                    cd_chunk := chunk e |})
                           requests (Track.maxInFlightRequests track) σ).1
            = workerState σ).
  { intros requests. unfold sendChunkToTransport, createRequest, createSendPromise.
    destruct (_ <=? _)%N; [done |].
    destruct (negb (wt σ)); [done |].
    destruct (tracks_get (tracks σ) _) as [tr |]; [| done].
    destruct (negb _ && _); [done |].
    destruct (bool_decide _); destruct (moqCalculateSendOrder _ _); done. }
  destruct (inFlightRequests σ !! type e) as [requests |].
  - specialize (Hsend requests).
    destruct (sendChunkToTransport _ requests _ σ) as [σ1 res]. cbn [fst] in Hsend.
    destruct (isSendingStats σ1), res; cbn; done.
  - destruct (isSendingStats σ); done.
Qed.

(** Once the stream of a parked call is open, the rest of the call leaves
    the state of the session as it is. *)
Lemma createSendPromise_resume_workerState (call : Suspended) (σ : Engine) :
  workerState (createSendPromise_resume call σ) = workerState σ.
Proof.
  unfold createSendPromise_resume.
  destruct (moqPublisherState σ !! s_trackId call) as [st |]; [| done].
  cbv zeta. unfold addToInflight.
  cbn [inFlightRequests set_streams set_moqPublisherState write_object emit].
  destruct (inFlightRequests σ !! _) as [requests |]; [| done].
  destruct (bool_decide _ || inherited _); done.
Qed.

(** A step changes the state of the session only when it is a message of
    the host, and then only forwards. *)
Lemma step_rank (σ : Engine) (input : Input) :
  (state_rank (workerState σ) <= state_rank (workerState (step σ input)))%nat
  /\ ((forall e env, input <> Message e env) ->
      workerState (step σ input) = workerState σ).
Proof.
  destruct input as [e env | i | i | packet fulfilled | subscribe | rejected]; cbn [step].
  - split; [| intros H; by destruct (H e env)].
    unfold listener.
    assert (H0 : (state_rank (workerState σ)
                  <= state_rank
                       (workerState
                          (if StateEnum_eqb (workerState σ) Created
                           then set_workerState Instantiated σ else σ)))%nat).
    { destruct (workerState σ) eqn:E; cbn; rewrite ?E; cbn; lia. }
    set (σ0 := if StateEnum_eqb (workerState σ) Created
               then set_workerState Instantiated σ else σ) in *.
    destruct (StateEnum_eqb (workerState σ0) Stopped) eqn:Estop; [done |].
    destruct (String.eqb (type e) "stop").
    { destruct (DispatcherFacts.listener_stop_fields σ0) as (-> & _).
      destruct (workerState σ); cbn; lia. }
    destruct (String.eqb (type e) "muxersendini").
    + unfold listener_ini at 1.
      destruct (StateEnum_eqb (workerState σ0) Instantiated) eqn:Eini; cbn [negb].
      * apply DispatcherFacts.StateEnum_eqb_eq in Eini.
        destruct (HandshakeFacts.sender_ini_running (muxerSenderConfig e) env σ0 Eini)
          as [H | [H _]].
        -- unfold listener_ini in H. rewrite Eini in H.
           change (StateEnum_eqb Instantiated Instantiated) with true in H.
           cbn [negb] in H. rewrite H, <- Eini. done.
        -- unfold listener_ini in H. rewrite Eini in H.
           change (StateEnum_eqb Instantiated Instantiated) with true in H.
           cbn [negb] in H. rewrite H. etrans; [exact H0 |]. rewrite Eini. cbn. lia.
      * done.
    + by rewrite listener_chunk_workerState.
  - split; [| intros _]; (destruct (awaiting σ !! i); [| done]);
      by rewrite createSendPromise_resume_workerState.
  - split; [| intros _]; destruct (awaiting σ !! i); done.
  - destruct (DispatcherFacts.removeFromInflight_fields (mediaType packet)
                (pId packet) σ) as (Hw & _).
    split; [| intros _]; destruct fulfilled; cbn; by rewrite Hw.
  - destruct (DispatcherFacts.subscriptionLoop_body_fields subscribe σ) as (Hw & _).
    split; [| intros _]; (destruct (subscriptionLoop σ); [| done]);
      destruct (StateEnum_eqb _ Running); cbn; by rewrite ?Hw.
  - destruct (DispatcherFacts.exit_settled_fields σ rejected) as (Hw & _).
    cbn [step] in Hw. by rewrite Hw.
Qed.




(** X11.  A message of the host starts a dispatch only under the
    conditions the listener and [sendChunkToTransport] test: the worker
    is running with its transport, the type of the message is the key of
    a track that has a subscriber, and that track has fewer requests in
    flight than it admits.  The call that is then parked is for a packet
    of that track and carries the id of the track. *)
Theorem chunk_admitted_only_if (e : MessageData) (env : IniEnv) (σ : Engine) :
  awaiting (step σ (Message e env)) <> awaiting σ ->
  workerState σ = Running /\ wt σ = true
  /\ exists track n requests call,
       tracks_get (tracks σ) (type e) = Some track
       /\ Track.numSubscribers track = Some n /\ (0 < n)%N
       /\ inFlightRequests σ !! type e = Some requests
       /\ (N.of_nat (inflight_length requests)
           < Track.maxInFlightRequests track)%N
       /\ awaiting (step σ (Message e env)) = awaiting σ ++ [call]
       /\ mediaType (s_packet call) = type e
       /\ s_trackId call = Track.id track.
Proof.
  cbn [step]. unfold listener.
  set (σ0 := if StateEnum_eqb (workerState σ) Created
             then set_workerState Instantiated σ else σ).
  assert (Ha0 : awaiting σ0 = awaiting σ) by (subst σ0; by destruct (StateEnum_eqb _ _)).
  destruct (StateEnum_eqb (workerState σ0) Stopped); [done |].
  destruct (String.eqb (type e) "stop").
  { destruct (DispatcherFacts.listener_stop_fields σ0) as (Sw & St & Sm & Si & Sa & So & Ss & Sc & Sl & Sst).
    rewrite Sa. congruence. }
  destruct (String.eqb (type e) "muxersendini").
  { rewrite listener_ini_awaiting. congruence. }
  unfold listener_chunk.
  destruct (StateEnum_eqb (workerState σ0) Running) eqn:Erun; cbn [negb];
    [| cbn; congruence].
  apply DispatcherFacts.StateEnum_eqb_eq in Erun.
  assert (Hσ0 : σ0 = σ).
  { subst σ0. destruct (workerState σ) eqn:E; cbn in *; congruence. }
  rewrite Hσ0 in *. clear Hσ0 Ha0 σ0.
  destruct (tracks_get (tracks σ) (type e)) as [track |] eqn:Htrack; [| by destruct (inherited (type e))].
  destruct (Track.numSubscribers track) as [n |] eqn:Hn; [| done].
  destruct (N.leb_spec n 0) as [| Hpos]; [done |].
  destruct (inFlightRequests σ !! type e) as [requests |] eqn:Hreq.
  2: { destruct (isSendingStats σ); done. }
  unfold sendChunkToTransport.
  destruct (N.leb_spec (Track.maxInFlightRequests track)
              (N.of_nat (inflight_length requests))) as [| Hroom].
  { destruct (isSendingStats σ); done. }
  unfold createRequest, createSendPromise.
  assert (Hmt : forall chunkData,
             mediaType (createRequest_packet chunkData) = cd_mediaType chunkData).
  { intros chunkData. unfold createRequest_packet.
    by destruct (String.eqb (cd_mediaType chunkData) "data"). }
  rewrite Hmt. cbn [cd_mediaType]. rewrite Htrack.
  destruct (wt σ) eqn:Hwt; cbn [negb].
  2: { destruct (isSendingStats σ); done. }
  destruct (negb _ && _).
  { destruct (isSendingStats σ); done. }
  set (σ1 := if bool_decide _ then σ else _).
  assert (H1 : awaiting σ1 = awaiting σ /\ isSendingStats σ1 = isSendingStats σ)
    by (subst σ1; by destruct (bool_decide _)).
  destruct H1 as [Ha1 Hs1].
  destruct (moqCalculateSendOrder (tracks σ1) _) as [sendOrder |].
  2: { rewrite Hs1. destruct (isSendingStats σ); cbn; congruence. }
  intros _. split; [done |]. split; [done |].
  eexists track, n, requests, _. repeat split; try done.
  - cbn [set_awaiting isSendingStats]. rewrite Hs1.
    destruct (isSendingStats σ); cbn; by rewrite Ha1.
  - cbn [s_packet]. by rewrite Hmt.
  - reflexivity.
Qed.

Lemma chunk_admitted_only_if_witness :
  workerState subscribed = Running
  /\ exists track,
       tracks_get (tracks subscribed) "video" = Some track
       /\ Track.numSubscribers track = Some 1%N.
Proof.
  assert (Hparked : awaiting (step subscribed
                                (Message (chunk_message "video" 0 "key" "a") relay))
                    <> awaiting subscribed)
    by (vm_compute; discriminate).
  destruct (chunk_admitted_only_if (chunk_message "video" 0 "key" "a") relay
              subscribed Hparked)
    as (Hrun & _ & track & n & requests & call & Htrack & Hn & _).
  split; [exact Hrun |]. exists track. split; [exact Htrack |].
  assert (Hget : tracks_get (tracks subscribed) "video"
                 = Some (Track.set_numSubscribers (Some 1%N)
                           (sample_track 1 "video" false 1)))
    by (vm_compute; reflexivity).
  cbn [type chunk_message] in Htrack. rewrite Hget in Htrack.
  injection Htrack as <-. reflexivity.
Defined.

(** X12.  A chunk message that comes before the session runs, or for a
    type that is no track, or for a track without subscribers, only adds
    one event to what the host is told: 'dropped' with the [seqId] of
    the message as it came; an error for a type that [tracks] neither
    has nor inherits; and 'dropped' again for a type that [tracks]
    inherits (such as "constructor") and for a track without
    subscribers.  No statistics are posted and nothing else of the
    worker changes, apart from the move from Created to Instantiated
    that every first message makes. *)
Theorem chunk_refused (e : MessageData) (env : IniEnv) (σ : Engine) :
  type e <> "stop" -> type e <> "muxersendini" ->
  let σ' := listener e env σ in
  let not_open :=
    DroppedChunk (msg_seqId e)
      "Dropped chunk because transport is NOT open yet" in
  let no_subscribers :=
    DroppedChunk (msg_seqId e)
      ("Dropped chunk because there is NO subscribers for track " ++ type e) in
  let invalid :=
    Error ("Invalid message received " ++ type e ++ " is NOT in tracks") in
  (workerState σ = Created ->
     σ' = emit not_open (set_workerState Instantiated σ)
     /\ workerState σ' = Instantiated /\ toMain σ' = toMain σ ++ [not_open])
  /\ (workerState σ = Instantiated ->
      σ' = emit not_open σ
      /\ workerState σ' = Instantiated /\ toMain σ' = toMain σ ++ [not_open])
  /\ (workerState σ = Running -> tracks_get (tracks σ) (type e) = None ->
      inherited (type e) = false ->
      σ' = emit invalid σ /\ toMain σ' = toMain σ ++ [invalid])
  /\ (workerState σ = Running -> tracks_get (tracks σ) (type e) = None ->
      inherited (type e) = true ->
      σ' = emit no_subscribers σ /\ toMain σ' = toMain σ ++ [no_subscribers])
  /\ (workerState σ = Running ->
      forall track,
        tracks_get (tracks σ) (type e) = Some track ->
        Track.numSubscribers track = None
        \/ Track.numSubscribers track = Some 0%N ->
        σ' = emit no_subscribers σ
        /\ toMain σ' = toMain σ ++ [no_subscribers]).
Proof.
  intros Hstop%String.eqb_neq Hini%String.eqb_neq. cbv zeta.
  unfold listener. split; [| split; [| split; [| split]]].
  - intros ->. cbn. rewrite Hstop, Hini. done.
  - intros E. rewrite E. cbn. rewrite E. cbn. rewrite Hstop, Hini.
    unfold listener_chunk. rewrite E. done.
  - intros E Hnone Hnot. rewrite E. cbn. rewrite E. cbn. rewrite Hstop, Hini.
    unfold listener_chunk. rewrite E, Hnone, Hnot. done.
  - intros E Hnone Hnot. rewrite E. cbn. rewrite E. cbn. rewrite Hstop, Hini.
    unfold listener_chunk. rewrite E, Hnone, Hnot. done.
  - intros E track Htrack Hsubs. rewrite E. cbn. rewrite E. cbn.
    rewrite Hstop, Hini. unfold listener_chunk. rewrite E, Htrack.
    by destruct Hsubs as [-> | ->].
Qed.

Lemma chunk_refused_witness :
  toMain (listener (chunk_message "video" 7 "key" "a") relay running)
  = toMain running
      ++ [DroppedChunk (Some (JS.of_Z 7))
            "Dropped chunk because there is NO subscribers for track video"]
  /\ toMain (listener (chunk_message "constructor" 8 "key" "b") relay running)
     = toMain running
         ++ [DroppedChunk (Some (JS.of_Z 8))
               "Dropped chunk because there is NO subscribers for track constructor"]
  /\ toMain (listener (chunk_message "screen" 9 "key" "c") relay running)
     = toMain running
         ++ [Error "Invalid message received screen is NOT in tracks"].
Proof.
  assert (Hrun : workerState running = Running) by (vm_compute; reflexivity).
  split; [| split].
  2: { destruct (chunk_refused (chunk_message "constructor" 8 "key" "b") relay
                   running ltac:(discriminate) ltac:(discriminate))
         as (_ & _ & _ & Hinherited & _).
       refine (proj2 (Hinherited Hrun _ _)); vm_compute; reflexivity. }
  2: { destruct (chunk_refused (chunk_message "screen" 9 "key" "c") relay
                   running ltac:(discriminate) ltac:(discriminate))
         as (_ & _ & Hinvalid & _).
       refine (proj2 (Hinvalid Hrun _ _)); vm_compute; reflexivity. }
  assert (Hstop : type (chunk_message "video" 7 "key" "a") <> "stop")
    by discriminate.
  assert (Hini : type (chunk_message "video" 7 "key" "a") <> "muxersendini")
    by discriminate.
  destruct (chunk_refused (chunk_message "video" 7 "key" "a") relay running
              Hstop Hini) as (_ & _ & _ & _ & Hnone).
  assert (Htrack : tracks_get (tracks running) "video"
                   = Some (sample_track 1 "video" false 1))
    by (vm_compute; reflexivity).
  exact (proj2 (Hnone Hrun _ Htrack (or_introl eq_refl))).
Defined.

(** X13.  A 'muxersendini' that the worker refuses.  In the Running
    state it is answered by an error and nothing of it is taken over.
    Before that, a configuration without host and port, or one that
    leaves the worker without tracks, is answered by an error too: no
    transport is opened, nothing is written on the control stream and the
    worker stays Instantiated; but [isSendingStats] and [tracks] have
    already been replaced by those of the refused configuration. *)
Theorem ini_refused (e : MessageData) (env : IniEnv) (σ : Engine) :
  type e = "muxersendini" ->
  let cfg := muxerSenderConfig e in
  let σ' := listener e env σ in
  (workerState σ = Running ->
     σ' = emit (Error "received ini message in wrong state. State: ") σ)
  /\ (workerState σ = Created \/ workerState σ = Instantiated ->
      default "" (urlHostPort cfg) = ""
      \/ default (tracks σ) (moqTracks cfg) = [] ->
      workerState σ' = Instantiated
      /\ tracks σ' = default (tracks σ) (moqTracks cfg)
      /\ isSendingStats σ' = default (isSendingStats σ) (cfg_isSendingStats cfg)
      /\ wt σ' = wt σ /\ control σ' = control σ
      /\ moqPublisherState σ' = moqPublisherState σ
      /\ inFlightRequests σ' = inFlightRequests σ
      /\ subscriptionLoop σ' = subscriptionLoop σ
      /\ exists text, toMain σ' = toMain σ ++ [Error text]).
Proof.
  intros Htype cfg σ'. subst σ' cfg. unfold listener. rewrite Htype.
  change (String.eqb "muxersendini" "stop") with false.
  change (String.eqb "muxersendini" "muxersendini") with true. cbv iota.
  split.
  - intros E. rewrite E. cbn. unfold listener_ini. by rewrite E.
  - intros Hstate Hbad.
    set (σ0 := if StateEnum_eqb (workerState σ) Created
               then set_workerState Instantiated σ else σ).
    assert (H0 : workerState σ0 = Instantiated
                 /\ tracks σ0 = tracks σ /\ isSendingStats σ0 = isSendingStats σ
                 /\ wt σ0 = wt σ /\ control σ0 = control σ
                 /\ moqPublisherState σ0 = moqPublisherState σ
                 /\ inFlightRequests σ0 = inFlightRequests σ
                 /\ subscriptionLoop σ0 = subscriptionLoop σ
                 /\ toMain σ0 = toMain σ).
    { subst σ0. destruct Hstate as [E | E]; rewrite E; cbn; by rewrite ?E. }
    destruct H0 as (Hw & Ht & Hs & Hwt & Hc & Hm & Hi & Hl & Hto).
    rewrite Hw. cbn [StateEnum_eqb]. unfold listener_ini. rewrite Hw.
    cbn [StateEnum_eqb negb].
    rewrite <- Ht, <- Hs, <- Hwt, <- Hc, <- Hm, <- Hi, <- Hl, <- Hto.
    rewrite <- Ht in Hbad.
    destruct (String.eqb_spec (default "" (urlHostPort (muxerSenderConfig e))) "")
      as [_ | Hurl].
    + destruct (cfg_isSendingStats (muxerSenderConfig e)),
        (moqTracks (muxerSenderConfig e)); cbn; repeat split; eauto.
    + destruct Hbad as [| Hempty]; [done |].
      assert (Hcheck : forall σ2,
                 tracks σ2 = default (tracks σ0) (moqTracks (muxerSenderConfig e)) ->
                 negb (String.eqb (checkTrackData (tracks σ2)) "") = true).
      { intros σ2 ->. by rewrite Hempty. }
      destruct (cfg_isSendingStats (muxerSenderConfig e)),
        (moqTracks (muxerSenderConfig e)); cbn [default] in *;
        rewrite Hcheck by done; cbn; repeat split; eauto.
Qed.

Lemma ini_refused_witness :
  workerState (listener (ini_without_host sample_tracks) relay init) = Instantiated
  /\ tracks (listener (ini_without_host sample_tracks) relay init) = sample_tracks
  /\ wt (listener (ini_without_host sample_tracks) relay init) = false.
Proof.
  destruct (ini_refused (ini_without_host sample_tracks) relay init eq_refl)
    as [_ H].
  destruct (H (or_introl eq_refl) (or_introl eq_refl))
    as (Hw & Ht & _ & Hwt & _).
  split; [exact Hw |]. split; [exact Ht | exact Hwt].
Defined.

(** X14.  A 'muxersendini' that succeeds.  When the worker is not yet
    running, the configuration names a host and at least one track, the
    transport comes up, the relay answers the SETUP with the role of a
    subscriber (or both) and every ANNOUNCE with its namespace, then the
    worker is Running with the configured tracks, an empty publisher
    state, an empty object of in-flight requests per track (so within
    the in-flight bound), and the subscription loop started; on the
    control stream it has written the SETUP and one ANNOUNCE per
    namespace, and nothing is parked or written yet that was not
    before. *)
Theorem ini_success (e : MessageData) (env : IniEnv) (σ : Engine)
    (url : string) (t : Tracks) (extra : list string) :
  type e = "muxersendini" ->
  workerState σ = Created \/ workerState σ = Instantiated ->
  urlHostPort (muxerSenderConfig e) = Some url -> url <> "" ->
  moqTracks (muxerSenderConfig e) = Some t -> t <> [] ->
  fingerprint_ok env = true -> transport_ready env = true ->
  setup_role env = Some MOQ_PARAMETER_ROLE_SUBSCRIBER
  \/ setup_role env = Some MOQ_PARAMETER_ROLE_BOTH ->
  announce_replies env
  = (Track.namespace <$> distinct_namespaces [] t) ++ extra ->
  let σ' := listener e env σ in
  workerState σ' = Running /\ tracks σ' = t /\ wt σ' = true
  /\ moqPublisherState σ' = ∅
  /\ inFlightRequests σ' = initInflightReqData t
  /\ bounded σ'
  /\ subscriptionLoop σ' = true
  /\ control σ'
     = control σ ++ SETUP MOQ_PARAMETER_ROLE_PUBLISHER
                      :: (announce_of <$> distinct_namespaces [] t)
  /\ awaiting σ' = awaiting σ /\ objects σ' = objects σ.
Proof.
  intros Htype Hstate Hurl Hnonempty Htracks Ht Hfp Hready Hrole Hreplies σ'.
  subst σ'. unfold listener. rewrite Htype.
  change (String.eqb "muxersendini" "stop") with false.
  change (String.eqb "muxersendini" "muxersendini") with true. cbv iota.
  set (σ0 := if StateEnum_eqb (workerState σ) Created
             then set_workerState Instantiated σ else σ).
  assert (H0 : workerState σ0 = Instantiated
               /\ control σ0 = control σ /\ awaiting σ0 = awaiting σ
               /\ objects σ0 = objects σ).
  { subst σ0. destruct Hstate as [E | E]; rewrite E; cbn; by rewrite ?E. }
  destruct H0 as (Hw & Hc & Ha & Ho). rewrite Hw. cbn [StateEnum_eqb].
  unfold listener_ini. rewrite Hw. cbn [StateEnum_eqb negb].
  rewrite Hurl, Htracks. cbn [default from_option]. unfold id.
  apply String.eqb_neq in Hnonempty. rewrite Hnonempty.
  assert (Hcheck : negb (String.eqb (checkTrackData t) "") = false).
  { unfold checkTrackData. by destruct t. }
  rewrite <- Hc, <- Ha, <- Ho. clear Hc Ha Ho Hw Hstate.
  assert (Hsession :
            exists evs,
              moqCreatePublisherSession t (setup_role env) (announce_replies env)
              = (SETUP MOQ_PARAMETER_ROLE_PUBLISHER
                   :: (announce_of <$> distinct_namespaces [] t), evs,
                 SessionReady)).
  { unfold moqCreatePublisherSession.
    apply (HandshakeFacts.role_accepted (setup_role env)) in Hrole.
    rewrite Hrole, Hreplies.
    pose proof (HandshakeFacts.announce_loop_ready t [] extra) as Hloop.
    cbv zeta in Hloop.
    destruct (announce_loop t [] _) as [[ms evs] res].
    cbn [fst snd] in Hloop. destruct Hloop as [-> ->]. by eexists. }
  destruct Hsession as (evs & Hsession).
  assert (Hbounded : forall σ2,
             inFlightRequests σ2 = initInflightReqData t -> bounded σ2).
  { intros σ2 Hin key track requests _. rewrite Hin.
    intros ->%DispatcherFacts.initInflightReqData_empty.
    unfold inflight_length. rewrite map_size_empty. lia. }
  destruct (cfg_isSendingStats (muxerSenderConfig e));
    cbn [tracks set_tracks set_isSendingStats]; rewrite Hcheck;
    rewrite Hfp, Hready; cbn [negb tracks set_wt set_moqPublisherState set_tracks
                                set_isSendingStats];
    rewrite Hsession; rewrite !emit_all_eq; cbn;
    (repeat split; try done); by apply Hbounded.
Qed.

Lemma ini_success_witness :
  workerState (listener (ini_message sample_tracks) relay init) = Running
  /\ control (listener (ini_message sample_tracks) relay init)
     = [SETUP MOQ_PARAMETER_ROLE_PUBLISHER; ANNOUNCE "vc" "secret"].
Proof.
  assert (Hne : sample_tracks <> []) by discriminate.
  assert (Hurl : "https://localhost:4433/moq" <> "") by discriminate.
  destruct (ini_success (ini_message sample_tracks) relay init
              "https://localhost:4433/moq" sample_tracks []
              eq_refl (or_introl eq_refl) eq_refl Hurl eq_refl Hne
              eq_refl eq_refl (or_introl eq_refl) eq_refl)
    as (Hw & _ & _ & _ & _ & _ & _ & Hc & _).
  split; [exact Hw | exact Hc].
Defined.

End ListenerFacts.

(** ** Subscriptions *)
Module SubscriptionFacts.

Import Sender.
Local Open Scope list_scope.

Lemma subscribers_le_refl (a : option N) : subscribers_le a a.
Proof. destruct a; cbn; [lia | done]. Qed.

Lemma subscribers_le_trans (a b c : option N) :
  subscribers_le a b -> subscribers_le b c -> subscribers_le a c.
Proof. destruct a, b, c; cbn; try done. lia. Qed.

Lemma same_track_refl (e : string * Track.Data) : same_track e e.
Proof.
  destruct e as [k []]. repeat split; cbn. apply subscribers_le_refl.
Qed.

Lemma same_track_trans (a b c : string * Track.Data) :
  same_track a b -> same_track b c -> same_track a c.
Proof.
  intros (Hk1 & Ht1 & Hs1) (Hk2 & Ht2 & Hs2). repeat split.
  - congruence.
  - rewrite Ht2, Ht1. by destruct a as [? []].
  - by apply (subscribers_le_trans _ (Track.numSubscribers b.2)).
Qed.

Lemma same_tracks_refl (l : Tracks) : Forall2 same_track l l.
Proof. induction l; constructor; [apply same_track_refl | done]. Qed.

Lemma same_tracks_trans (l1 l2 l3 : Tracks) :
  Forall2 same_track l1 l2 -> Forall2 same_track l2 l3 ->
  Forall2 same_track l1 l3.
Proof.
  intros H. revert l3. induction H as [| a b l1 l2 Hab _ IH]; intros l3 H3.
  - by inversion H3.
  - inversion H3 as [| ? c ? l3' Hbc Hrest]; subst. constructor.
    + by apply (same_track_trans a b).
    + by apply IH.
Qed.

(** A new subscriber changes one entry, and only its count, upwards. *)
Lemma same_track_add_subscriber (e : string * Track.Data) :
  same_track e (prod_map id add_subscriber e).
Proof.
  destruct e as [k t]. unfold same_track, prod_map, add_subscriber. cbn.
  repeat split. destruct (Track.numSubscribers t); cbn; [lia | done].
Qed.

Lemma same_tracks_alter (l : Tracks) (i : nat) :
  Forall2 same_track l (alter (prod_map id add_subscriber) i l).
Proof.
  revert i. induction l as [| e l IH]; intros [| i]; cbn.
  - constructor.
  - constructor.
  - constructor; [apply same_track_add_subscriber | apply same_tracks_refl].
  - constructor; [apply same_track_refl | apply IH].
Qed.

(** A track that has a subscriber keeps one. *)
Lemma has_subscriber_mono (l l' : Tracks) (key : string) :
  Forall2 same_track l l' -> has_subscriber l key -> has_subscriber l' key.
Proof.
  intros H. induction H as [| [k t] [k' t'] l l' (Hk & Ht & Hs) _ IH].
  - done.
  - cbn in Hk, Ht, Hs. subst k'. intros (track & n & Hget & Hn & Hpos).
    unfold has_subscriber. cbn [tracks_get] in *.
    destruct (String.eqb k key).
    + injection Hget as <-. rewrite Hn in Hs.
      destruct (Track.numSubscribers t') as [m |] eqn:Em; [| done].
      exists t', m. cbn in Hs. split; [done |]. split; [done | lia].
    + apply IH. by exists track, n.
Qed.

Lemma Served_ext (σ σ' : Engine) :
  tracks σ' = tracks σ -> awaiting σ' = awaiting σ -> objects σ' = objects σ ->
  Served σ -> Served σ'.
Proof.
  intros Ht Ha Ho [H1 H2]. constructor; rewrite ?Ht, ?Ha, ?Ho; done.
Qed.

Lemma Served_fresh (σ' : Engine) :
  awaiting σ' = [] -> objects σ' = [] -> Served σ'.
Proof.
  intros Ha Ho. constructor; rewrite ?Ha, ?Ho; by intros ? ?%elem_of_nil.
Qed.

Lemma listener_ini_objects (cfg : MuxerSenderConfig) (env : IniEnv) (σ : Engine) :
  objects (listener_ini cfg env σ) = objects σ
  /\ streams (listener_ini cfg env σ) = streams σ.
Proof.
  unfold listener_ini.
  destruct (negb (StateEnum_eqb (workerState σ) Instantiated)); [done |].
  destruct (cfg_isSendingStats cfg), (moqTracks cfg);
    cbn [tracks set_tracks set_isSendingStats];
    (destruct (String.eqb _ ""); [done |]);
    (destruct (negb (String.eqb _ "")); [done |]);
    (destruct (negb (fingerprint_ok env)); [done |]);
    (destruct (negb (transport_ready env)); [done |]);
    (destruct (moqCreatePublisherSession _ _ _) as [[ms evs] res]);
    destruct res; cbn; rewrite ?ListenerFacts.emit_all_eq; done.
Qed.

Lemma listener_ini_Served (cfg : MuxerSenderConfig) (env : IniEnv) (σ : Engine) :
  Inv σ -> Served σ -> Served (listener_ini cfg env σ).
Proof.
  intros HI HS.
  destruct (StateEnum_eqb (workerState σ) Instantiated) eqn:E.
  - apply DispatcherFacts.StateEnum_eqb_eq in E.
    destruct (inv_idle σ HI (or_intror E)) as [Ho Ha].
    apply Served_fresh.
    + by rewrite ListenerFacts.listener_ini_awaiting.
    + by rewrite (proj1 (listener_ini_objects cfg env σ)).
  - unfold listener_ini. rewrite E. by apply (Served_ext σ).
Qed.

Lemma createSendPromise_Served (packet : Packet) (σ : Engine) :
  has_subscriber (tracks σ) (mediaType packet) ->
  Served σ -> Served (createSendPromise packet σ).1.
Proof.
  intros Hsub HS.
  destruct (DispatcherFacts.createSendPromise_parks packet σ)
    as (Ht & _ & [Ha | (call & Ha & Hp & _)]).
  - assert (Ho : objects (createSendPromise packet σ).1 = objects σ).
    { unfold createSendPromise. destruct (negb (wt σ)); [done |].
      destruct (tracks_get _ _); [| done]. destruct (negb _ && _); [done |].
      destruct (bool_decide _), (moqCalculateSendOrder _ _); done. }
    by apply (Served_ext σ).
  - assert (Ho : objects (createSendPromise packet σ).1 = objects σ).
    { unfold createSendPromise. destruct (negb (wt σ)); [done |].
      destruct (tracks_get _ _); [| done]. destruct (negb _ && _); [done |].
      destruct (bool_decide _), (moqCalculateSendOrder _ _); done. }
    destruct HS as [H1 H2]. constructor; rewrite ?Ht, ?Ha, ?Ho; [| done].
    intros c [Hc | Hc]%elem_of_app; [auto |].
    apply list_elem_of_singleton in Hc as ->. by rewrite Hp.
Qed.

Lemma listener_chunk_Served (e : MessageData) (σ : Engine) :
  Served σ -> Served (listener_chunk e σ).
Proof.
  intros HS. unfold listener_chunk.
  destruct (negb _); [by apply (Served_ext σ) |].
  destruct (tracks_get (tracks σ) (type e)) as [track |] eqn:Htrack;
    [| destruct (inherited (type e)); by apply (Served_ext σ)].
  destruct (Track.numSubscribers track) as [n |] eqn:Hn;
    [| by apply (Served_ext σ)].
  destruct (N.leb_spec n 0) as [| Hpos]; [by apply (Served_ext σ) |].
  set (call := match inFlightRequests σ !! type e with
               | Some requests => _
               | None => _
               end).
  assert (HS1 : Served call.1).
  { subst call. destruct (inFlightRequests σ !! type e); [| done].
    unfold sendChunkToTransport. destruct (_ <=? _)%N; [done |].
    apply createSendPromise_Served; [| done].
    exists track, n. repeat split; try done.
    unfold createRequest_packet. cbn [cd_mediaType].
    by destruct (String.eqb (type e) "data"). }
  destruct call as [σ1 res]. cbn [fst] in HS1.
  destruct res, (isSendingStats σ1); by apply (Served_ext σ1).
Qed.

(** Once the stream of a parked call is open, the call writes nothing or
    one object, which carries the packet of the call. *)
Lemma createSendPromise_resume_objects (call : Suspended) (σ : Engine) :
  awaiting (createSendPromise_resume call σ) = awaiting σ
  /\ (objects (createSendPromise_resume call σ) = objects σ
      \/ exists o, payload o = s_packet call
                   /\ objects (createSendPromise_resume call σ)
                      = objects σ ++ [o]).
Proof.
  unfold createSendPromise_resume.
  destruct (moqPublisherState σ !! s_trackId call) as [st |];
    [| split; [done | by left]].
  cbv zeta. unfold addToInflight.
  cbn [inFlightRequests set_streams set_moqPublisherState write_object emit].
  destruct (inFlightRequests σ !! _) as [requests |].
  - destruct (bool_decide _ || inherited _); (split; [done |]); right;
      (eexists; split; [| reflexivity]); reflexivity.
  - split; [done |]. right. eexists. split; [| reflexivity]. reflexivity.
Qed.

Lemma removeFromInflight_tracks (key id : string) (σ : Engine) :
  tracks (removeFromInflight key id σ) = tracks σ.
Proof.
  unfold removeFromInflight.
  destruct (inFlightRequests σ !! _) as [requests |]; [| done].
  destruct (requests !! _); done.
Qed.

Lemma step_Served (σ : Engine) (input : Input) :
  Inv σ -> Served σ -> Served (step σ input).
Proof.
  intros HI HS.
  destruct input as [e env | i | i | packet ok | subscribe | rejected]; cbn [step].
  - unfold listener.
    set (σ0 := if StateEnum_eqb (workerState σ) Created then _ else σ).
    assert (HS0 : Served σ0).
    { subst σ0. destruct (StateEnum_eqb _ _); [| done]. by apply (Served_ext σ). }
    assert (HI0 : Inv σ0).
    { subst σ0. destruct (StateEnum_eqb (workerState σ) Created) eqn:Est; [| done].
      apply DispatcherFacts.StateEnum_eqb_eq in Est.
      destruct (inv_idle σ HI (or_introl Est)) as [Hobj Haw].
      apply (DispatcherFacts.Inv_reset σ); auto. }
    destruct (StateEnum_eqb (workerState σ0) Stopped);
      [by apply (Served_ext σ0) |].
    destruct (String.eqb (type e) "stop").
    { destruct (DispatcherFacts.listener_stop_fields σ0) as (Sw & St & Sm & Si & Sa & So & Ss & Sc & Sl & Sst).
      by apply (Served_ext σ0). }
    destruct (String.eqb (type e) "muxersendini").
    + by apply listener_ini_Served.
    + by apply listener_chunk_Served.
  - destruct (awaiting σ !! i) as [call |] eqn:Ei; [| done].
    assert (Hin : call ∈ awaiting σ) by (eapply list_elem_of_lookup_2; done).
    destruct (createSendPromise_resume_objects call
                (set_awaiting (delete i (awaiting σ)) σ))
      as (Ea & Eo).
    destruct HS as [H1 H2].
    constructor;
      rewrite ?DispatcherFacts.createSendPromise_resume_tracks, ?Ea; cbn.
    + intros c Hc. apply H1. eapply list_elem_of_delete_inv. exact Hc.
    + destruct Eo as [-> | (o & Hp & ->)]; cbn; [done |].
      intros o' [Ho | Ho]%elem_of_app; [auto |].
      apply list_elem_of_singleton in Ho as ->. rewrite Hp. auto.
  - destruct (awaiting σ !! i) as [call |] eqn:Ei; [| done].
    destruct HS as [H1 H2]. constructor; cbn; [| done].
    intros c Hc. apply H1. eapply list_elem_of_delete_inv. exact Hc.
  - pose proof (removeFromInflight_tracks (mediaType packet) (pId packet) σ) as Ht.
    destruct (DispatcherFacts.removeFromInflight_fields (mediaType packet)
                (pId packet) σ) as (_ & _ & Ea & Eo).
    destruct ok; by apply (Served_ext σ).
  - destruct (subscriptionLoop σ); [| done].
    assert (Hbody : Served (subscriptionLoop_body subscribe σ)).
    { unfold subscriptionLoop_body.
      destruct (getTrack _ _ _) as [[j track] |]; [| by apply (Served_ext σ)].
      destruct (authInfo_differs track subscribe); [by apply (Served_ext σ) |].
      destruct HS as [H1 H2]. constructor; cbn.
      + intros c Hc. eapply has_subscriber_mono; [apply same_tracks_alter | auto].
      + intros o Ho. eapply has_subscriber_mono; [apply same_tracks_alter | auto]. }
    destruct (StateEnum_eqb _ Running); [done |].
    by apply (Served_ext (subscriptionLoop_body subscribe σ)).
  - destruct (DispatcherFacts.exit_settled_fields σ rejected)
      as (Sw & St & Sm & Si & Sa & So & Ss & Sc & Sl & Sst).
    by apply (Served_ext σ).
Qed.

(** X15.  Nothing is sent on a track that nobody has subscribed to: in
    every state the worker reaches from its start, whatever the host, the
    transport and the relay do, the track of every object written, and
    of every dispatch that waits for its stream, has at least one
    subscriber. *)
Theorem no_object_without_subscriber (inputs : list Input) :
  let σ := run init inputs in
  (forall o, o ∈ objects σ ->
     has_subscriber (tracks σ) (mediaType (payload o)))
  /\ (forall call, call ∈ awaiting σ ->
        has_subscriber (tracks σ) (mediaType (s_packet call))).
Proof.
  cbv zeta.
  assert (Hgen : forall σ, Inv σ -> Served σ -> Served (run σ inputs)).
  { unfold run. induction inputs as [| input rest IH]; intros σ HI HS; [done |].
    cbn [foldl]. apply IH.
    - by apply DispatcherFacts.step_Inv.
    - by apply step_Served. }
  destruct (Hgen init DispatcherFacts.Inv_init) as [H1 H2].
  - by apply Served_fresh.
  - done.
Qed.

Lemma listener_chunk_tracks (e : MessageData) (σ : Engine) :
  tracks (listener_chunk e σ) = tracks σ.
Proof.
  unfold listener_chunk.
  destruct (negb _); [done |].
  destruct (tracks_get (tracks σ) (type e)) as [track |]; [| by destruct (inherited (type e))].
  destruct (match Track.numSubscribers track with
            | Some n => (n <=? 0)%N
            | None => true
            end); [done |].
  set (call := match inFlightRequests σ !! type e with
               | Some requests => _
               | None => _
               end).
  assert (Ht : tracks call.1 = tracks σ).
  { subst call. destruct (inFlightRequests σ !! type e); [| done].
    unfold sendChunkToTransport. destruct (_ <=? _)%N; [done |].
    apply DispatcherFacts.createSendPromise_parks. }
  destruct call as [σ1 res]. cbn [fst] in Ht.
  destruct res, (isSendingStats σ1); done.
Qed.

(** A step of a worker that runs or is stopped keeps the tracks, up to
    new subscribers. *)
Lemma step_same_tracks (σ : Engine) (input : Input) :
  workerState σ = Running \/ workerState σ = Stopped ->
  Forall2 same_track (tracks σ) (tracks (step σ input)).
Proof.
  intros Hstate.
  destruct input as [e env | i | i | packet ok | subscribe | rejected]; cbn [step].
  - unfold listener.
    assert (H0 : (if StateEnum_eqb (workerState σ) Created
                  then set_workerState Instantiated σ else σ) = σ).
    { by destruct Hstate as [-> | ->]. }
    rewrite H0.
    destruct (StateEnum_eqb (workerState σ) Stopped); [apply same_tracks_refl |].
    destruct (String.eqb (type e) "stop").
    { destruct (DispatcherFacts.listener_stop_fields σ) as (Sw & St & Sm & Si & Sa & So & Ss & Sc & Sl & Sst).
      rewrite St. apply same_tracks_refl. }
    destruct (String.eqb (type e) "muxersendini").
    + unfold listener_ini.
      destruct Hstate as [-> | ->]; apply same_tracks_refl.
    + rewrite listener_chunk_tracks. apply same_tracks_refl.
  - destruct (awaiting σ !! i); [| apply same_tracks_refl].
    rewrite DispatcherFacts.createSendPromise_resume_tracks.
    apply same_tracks_refl.
  - destruct (awaiting σ !! i); apply same_tracks_refl.
  - pose proof (removeFromInflight_tracks (mediaType packet) (pId packet) σ) as Ht.
    destruct ok; cbn; rewrite Ht; apply same_tracks_refl.
  - destruct (subscriptionLoop σ); [| apply same_tracks_refl].
    assert (Hbody : Forall2 same_track (tracks σ)
                      (tracks (subscriptionLoop_body subscribe σ))).
    { unfold subscriptionLoop_body.
      destruct (getTrack _ _ _) as [[j track] |]; [| apply same_tracks_refl].
      destruct (authInfo_differs track subscribe); [apply same_tracks_refl |].
      cbn. apply same_tracks_alter. }
    by destruct (StateEnum_eqb _ Running).
  - destruct (DispatcherFacts.exit_settled_fields σ rejected) as (_ & St & _).
    cbn [step] in St. rewrite St. apply same_tracks_refl.
Qed.

(** X16.  Once the session runs, the table of tracks is fixed: whatever
    happens afterwards, every track keeps its key, id, namespace, name,
    [authInfo], priority and in-flight limit, and its number of
    subscribers never goes down (there is no way to unsubscribe). *)
Theorem tracks_frozen_once_running (σ : Engine) (inputs : list Input) :
  workerState σ = Running \/ workerState σ = Stopped ->
  Forall2 same_track (tracks σ) (tracks (run σ inputs)).
Proof.
  unfold run. revert σ. induction inputs as [| input rest IH]; intros σ Hstate.
  - apply same_tracks_refl.
  - cbn [foldl]. apply (same_tracks_trans _ (tracks (step σ input))).
    + by apply step_same_tracks.
    + apply IH. destruct (ListenerFacts.step_rank σ input) as [Hle _].
      destruct Hstate as [E | E]; rewrite E in Hle;
        destruct (workerState (step σ input)); cbn in Hle; auto; lia.
Qed.

Lemma tracks_frozen_once_running_witness :
  Forall2 same_track (tracks running)
    (tracks (run running
               [SubscribeParsed (sample_subscribe "video");
                Message (ini_message data_tracks) relay;
                Message (chunk_message "video" 0 "key" "a") relay;
                StreamOpened 0])).
Proof.
  apply (tracks_frozen_once_running running). left.
  vm_compute. reflexivity.
Defined.

(** X17.  A SUBSCRIBE for a namespace and name that no track has is
    answered by an error to the host and by nothing on the control
    stream; the tracks and the rest of the worker stay as they are.
    While the worker runs the loop goes on and the error is all the host
    is told; once it does not, the [while] ends and the host is told
    next that the loop was left. *)
Theorem subscribe_unknown_track (subscribe : Subscribe) (σ : Engine) :
  subscriptionLoop σ = true ->
  (forall key track, (key, track) ∈ tracks σ ->
     ~ (Track.namespace track = sub_namespace subscribe
        /\ Track.name track = sub_trackName subscribe)) ->
  let σ' := step σ (SubscribeParsed subscribe) in
  let invalid :=
    Error ("Invalid subscribe received " ++ sub_namespace subscribe
             ++ "/" ++ sub_trackName subscribe ++ " is NOT in tracks") in
  tracks σ' = tracks σ /\ control σ' = control σ
  /\ workerState σ' = workerState σ
  /\ inFlightRequests σ' = inFlightRequests σ
  /\ objects σ' = objects σ /\ awaiting σ' = awaiting σ
  /\ (workerState σ = Running ->
        subscriptionLoop σ' = true
        /\ toMain σ' = toMain σ ++ [invalid])
  /\ (workerState σ <> Running ->
        subscriptionLoop σ' = false
        /\ toMain σ'
           = toMain σ
               ++ [invalid;
                   Info "Exited receiving subscription loop in control stream"]).
Proof.
  intros Hloop Hnone. cbn [step]. rewrite Hloop. unfold subscriptionLoop_body.
  apply TrackFacts.getTrack_None in Hnone. rewrite Hnone. cbn.
  destruct (workerState σ) eqn:E; cbn; rewrite <- ?(assoc_L (++)); cbn;
    repeat split; intros; congruence.
Qed.

Lemma subscribe_unknown_track_witness :
  control (step running (SubscribeParsed (sample_subscribe "screen")))
  = control running
  /\ tracks (step running (SubscribeParsed (sample_subscribe "screen")))
     = tracks running
  /\ toMain (step running (SubscribeParsed (sample_subscribe "screen")))
     = toMain running
         ++ [Error "Invalid subscribe received vc/screen is NOT in tracks"]
  /\ toMain (step (step running (Message stop_message relay))
                (SubscribeParsed (sample_subscribe "screen")))
     = toMain (step running (Message stop_message relay))
         ++ [Error "Invalid subscribe received vc/screen is NOT in tracks";
             Info "Exited receiving subscription loop in control stream"].
Proof.
  assert (Hloop : subscriptionLoop running = true) by (vm_compute; reflexivity).
  assert (Hnone : forall key track, (key, track) ∈ tracks running ->
            ~ (Track.namespace track = sub_namespace (sample_subscribe "screen")
               /\ Track.name track = sub_trackName (sample_subscribe "screen"))).
  { apply TrackFacts.getTrack_None. vm_compute. reflexivity. }
  destruct (subscribe_unknown_track (sample_subscribe "screen") running
              Hloop Hnone) as (Ht & Hc & _ & _ & _ & _ & Hrunning & _).
  split; [exact Hc |]. split; [exact Ht |].
  split; [apply Hrunning; vm_compute; reflexivity |].
  assert (Hloop' : subscriptionLoop (step running (Message stop_message relay))
                   = true) by (vm_compute; reflexivity).
  assert (Hnone' : forall key track,
            (key, track) ∈ tracks (step running (Message stop_message relay)) ->
            ~ (Track.namespace track = sub_namespace (sample_subscribe "screen")
               /\ Track.name track = sub_trackName (sample_subscribe "screen"))).
  { apply TrackFacts.getTrack_None. vm_compute. reflexivity. }
  destruct (subscribe_unknown_track (sample_subscribe "screen")
              (step running (Message stop_message relay)) Hloop' Hnone')
    as (_ & _ & _ & _ & _ & _ & _ & Hstopped).
  apply Hstopped. vm_compute. discriminate.
Defined.

End SubscriptionFacts.

(** ** Registration of the pending closes *)
Module RegistrationFacts.

Import Sender.
Local Open Scope list_scope.

Lemma Registered_ext (σ σ' : Engine) :
  inFlightRequests σ' = inFlightRequests σ -> objects σ' = objects σ ->
  streams σ' = streams σ -> Registered σ -> Registered σ'.
Proof.
  intros Hi Ho Hs [H1 H2]. constructor; unfold pending; rewrite ?Hi, ?Ho, ?Hs.
  - apply H1.
  - apply H2.
Qed.

Lemma Registered_mono (σ σ' : Engine) (more : list MoqObject) :
  inFlightRequests σ' = inFlightRequests σ ->
  objects σ' = objects σ ++ more ->
  (streams σ <= streams σ')%nat -> Registered σ -> Registered σ'.
Proof.
  intros Hi Ho Hs [H1 H2]. constructor; unfold pending; rewrite ?Hi, ?Ho.
  - intros key id p Hp. destruct (H1 key id p Hp) as (Hid & Hlt & o & Hin & ?).
    repeat split; [done | lia |]. exists o. split; [| done].
    apply elem_of_app. by left.
  - apply H2.
Qed.

Lemma Registered_empty (σ' : Engine) :
  (forall key requests, inFlightRequests σ' !! key = Some requests ->
     requests = ∅) ->
  Registered σ'.
Proof.
  intros Hempty. constructor.
  - intros key id p (r & Hr & Hp). apply Hempty in Hr as ->.
    by rewrite lookup_empty in Hp.
  - intros key id p key' id' p' (r & Hr & Hp). apply Hempty in Hr as ->.
    by rewrite lookup_empty in Hp.
Qed.

Lemma listener_ini_inFlightRequests (cfg : MuxerSenderConfig) (env : IniEnv)
    (σ : Engine) :
  inFlightRequests (listener_ini cfg env σ) = inFlightRequests σ
  \/ exists t, inFlightRequests (listener_ini cfg env σ) = initInflightReqData t.
Proof.
  unfold listener_ini.
  destruct (negb (StateEnum_eqb (workerState σ) Instantiated)); [by left |].
  destruct (cfg_isSendingStats cfg), (moqTracks cfg);
    cbn [tracks set_tracks set_isSendingStats];
    (destruct (String.eqb _ ""); [by left |]);
    (destruct (negb (String.eqb _ "")); [by left |]);
    (destruct (negb (fingerprint_ok env)); [by left |]);
    (destruct (negb (transport_ready env)); [by left |]);
    (destruct (moqCreatePublisherSession _ _ _) as [[ms evs] res]);
    destruct res; cbn; rewrite ?ListenerFacts.emit_all_eq; cbn;
    try (by left); right; by eexists.
Qed.

Lemma listener_chunk_requests (e : MessageData) (σ : Engine) :
  inFlightRequests (listener_chunk e σ) = inFlightRequests σ
  /\ objects (listener_chunk e σ) = objects σ
  /\ streams (listener_chunk e σ) = streams σ.
Proof.
  unfold listener_chunk.
  destruct (negb _); [done |].
  destruct (tracks_get (tracks σ) (type e)) as [track |]; [| by destruct (inherited (type e))].
  destruct (match Track.numSubscribers track with
            | Some n => (n <=? 0)%N
            | None => true
            end); [done |].
  set (call := match inFlightRequests σ !! type e with
               | Some requests => _
               | None => _
               end).
  assert (Ht : inFlightRequests call.1 = inFlightRequests σ
               /\ objects call.1 = objects σ /\ streams call.1 = streams σ).
  { subst call. destruct (inFlightRequests σ !! type e); [| done].
    unfold sendChunkToTransport. destruct (_ <=? _)%N; [done |].
    unfold createRequest, createSendPromise.
    destruct (negb (wt σ)); [done |].
    destruct (tracks_get _ _); [| done]. destruct (negb _ && _); [done |].
    destruct (bool_decide _), (moqCalculateSendOrder _ _); done. }
  destruct call as [σ1 res]. cbn [fst] in Ht. destruct Ht as (? & ? & ?).
  destruct res, (isSendingStats σ1); done.
Qed.

Lemma createSendPromise_resume_Registered (call : Suspended) (σ : Engine) :
  Registered σ -> Registered (createSendPromise_resume call σ).
Proof.
  intros [H1 H2]. unfold createSendPromise_resume.
  destruct (moqPublisherState σ !! s_trackId call) as [st |].
  2: { by apply (Registered_ext σ). }
  cbv zeta. unfold addToInflight.
  cbn [inFlightRequests set_streams set_moqPublisherState write_object emit
       streams p_id].
  set (o := {| trackId := s_trackId call; groupSeq := _; objSeq := _;
               sendOrder := _; payload := s_packet call |}).
  assert (Hold : forall key id p, pending σ key id p ->
             p_id p = id /\ (stream p < S (streams σ))%nat
             /\ exists o', o' ∈ objects σ ++ [o]
                           /\ mediaType (payload o') = key
                           /\ pId (payload o') = id).
  { intros key id p Hp. destruct (H1 key id p Hp) as (Hid & Hs & o' & Ho & ?).
    repeat split; [done | lia |]. exists o'. split; [| done].
    apply elem_of_app. by left. }
  destruct (inFlightRequests σ !! mediaType (s_packet call)) as [requests |] eqn:Hreq.
  2: { apply (Registered_mono σ _ [o]); unfold report_rejected; cbn; try done.
       lia. }
  destruct (bool_decide _ || inherited _) eqn:Hid.
  { apply (Registered_mono σ _ [o]); cbn; try done. lia. }
  set (p := {| p_id := pId (s_packet call); stream := streams σ |}).
  assert (Hcases : forall key id q,
             pending (set_inFlightRequests
                        (<[mediaType (s_packet call) := <[p_id p := p]> requests]>
                           (inFlightRequests σ))
                        (set_streams (S (streams σ))
                           (set_moqPublisherState
                              (<[s_trackId call :=
                                   {| currentGroupSeq := groupSeq o;
                                      currentObjectSeq := objSeq o + 1 |}]>
                                 (<[s_trackId call :=
                                      next_object_state (s_packet call) st]>
                                    (moqPublisherState σ)))
                              (write_object o
                                 (emit (Debug ("Sending MOQT. Data: "
                                                 ++ dataStr (s_packet call)))
                                    (set_moqPublisherState
                                       (<[s_trackId call :=
                                            next_object_state (s_packet call) st]>
                                          (moqPublisherState σ)) σ))))))
                     key id q ->
             pending σ key id q
             \/ (key = mediaType (s_packet call) /\ id = pId (s_packet call)
                 /\ q = p)).
  { intros key id q (r & Hr & Hq). cbn in Hr.
    destruct (decide (key = mediaType (s_packet call))) as [-> | Hne].
    - rewrite lookup_insert_eq in Hr. injection Hr as <-.
      destruct (decide (id = pId (s_packet call))) as [-> | Hne'].
      + rewrite lookup_insert_eq in Hq. injection Hq as <-. by right.
      + rewrite lookup_insert_ne in Hq by done. left. by exists requests.
    - rewrite lookup_insert_ne in Hr by done. left. by exists r. }
  constructor.
  - intros key id q [Hq | (-> & -> & ->)]%Hcases; cbn.
    + by apply Hold.
    + repeat split; [lia |]. exists o. split; [| done].
      apply elem_of_app. right. by apply list_elem_of_singleton.
  - intros key id q key' id' q' [Hq | (-> & -> & ->)]%Hcases
      [Hq' | (-> & -> & ->)]%Hcases; cbn.
    + by apply (H2 key id q key' id' q').
    + intros Hs. destruct (H1 key id q Hq) as (_ & Hlt & _). lia.
    + intros Hs. destruct (H1 key' id' q' Hq') as (_ & Hlt & _). lia.
    + done.
Qed.

Lemma removeFromInflight_Registered (key id : string) (σ : Engine) :
  Registered σ -> Registered (removeFromInflight key id σ).
Proof.
  intros [H1 H2]. unfold removeFromInflight.
  destruct (inFlightRequests σ !! key) as [requests |] eqn:Hreq; [| done].
  destruct (requests !! id) as [q |] eqn:Hid; [| done].
  assert (Hsub : forall k i p,
             pending (set_inFlightRequests
                        (<[key := delete id requests]> (inFlightRequests σ)) σ)
                     k i p ->
             pending σ k i p).
  { intros k i p (r & Hr & Hp). cbn in Hr.
    destruct (decide (k = key)) as [-> | Hne].
    - rewrite lookup_insert_eq in Hr. injection Hr as <-.
      exists requests. split; [done |].
      destruct (decide (i = id)) as [-> | Hne'].
      + by rewrite lookup_delete_eq in Hp.
      + by rewrite lookup_delete_ne in Hp.
    - rewrite lookup_insert_ne in Hr by done. by exists r. }
  constructor.
  - intros k i p Hp%Hsub. by apply H1.
  - intros k i p k' i' p' Hp%Hsub Hp'%Hsub. by apply (H2 k i p k' i' p').
Qed.

Lemma step_Registered (σ : Engine) (input : Input) :
  Registered σ -> Registered (step σ input).
Proof.
  intros HR.
  destruct input as [e env | i | i | packet ok | subscribe | rejected]; cbn [step].
  - unfold listener.
    set (σ0 := if StateEnum_eqb (workerState σ) Created then _ else σ).
    assert (HR0 : Registered σ0).
    { subst σ0. destruct (StateEnum_eqb _ _); [| done]. by apply (Registered_ext σ). }
    destruct (StateEnum_eqb (workerState σ0) Stopped);
      [by apply (Registered_ext σ0) |].
    destruct (String.eqb (type e) "stop").
    { destruct (DispatcherFacts.listener_stop_fields σ0) as (Sw & St & Sm & Si & Sa & So & Ss & Sc & Sl & Sst).
      by apply (Registered_ext σ0). }
    destruct (String.eqb (type e) "muxersendini").
    + destruct (SubscriptionFacts.listener_ini_objects (muxerSenderConfig e) env σ0)
        as [Ho Hs].
      destruct (listener_ini_inFlightRequests (muxerSenderConfig e) env σ0)
        as [Hi | (t & Hi)].
      * by apply (Registered_ext σ0).
      * apply Registered_empty. intros key requests. rewrite Hi.
        apply DispatcherFacts.initInflightReqData_empty.
    + destruct (listener_chunk_requests e σ0) as (Hi & Ho & Hs).
      by apply (Registered_ext σ0).
  - destruct (awaiting σ !! i) as [call |]; [| done].
    apply createSendPromise_resume_Registered. by apply (Registered_ext σ).
  - destruct (awaiting σ !! i) as [call |]; [| done].
    by apply (Registered_ext σ).
  - pose proof (removeFromInflight_Registered (mediaType packet) (pId packet) σ HR)
      as HR'.
    destruct ok;
      by apply (Registered_ext
                  (removeFromInflight (mediaType packet) (pId packet) σ)).
  - destruct (subscriptionLoop σ); [| done].
    assert (Hbody : Registered (subscriptionLoop_body subscribe σ)).
    { unfold subscriptionLoop_body.
      destruct (getTrack _ _ _) as [[j track] |]; [| by apply (Registered_ext σ)].
      destruct (authInfo_differs track subscribe); by apply (Registered_ext σ). }
    destruct (StateEnum_eqb _ Running); [done |].
    by apply (Registered_ext (subscriptionLoop_body subscribe σ)).
  - destruct (DispatcherFacts.exit_settled_fields σ rejected)
      as (Sw & St & Sm & Si & Sa & So & Ss & Sc & Sl & Sst).
    by apply (Registered_ext σ).
Qed.

(** X18.  In every state the worker reaches from its start, a pending
    close is registered under the [pId] of its packet, in the object of
    the track of that packet; it belongs to a stream that was opened and
    to an object that was written; and no two registrations belong to the
    same stream. *)
Theorem inflight_registered (inputs : list Input) :
  let σ := run init inputs in
  (forall key id p, pending σ key id p ->
     p_id p = id /\ (stream p < streams σ)%nat
     /\ exists o, o ∈ objects σ
                  /\ mediaType (payload o) = key /\ pId (payload o) = id)
  /\ (forall key id p key' id' p',
        pending σ key id p -> pending σ key' id' p' ->
        stream p = stream p' -> key = key' /\ id = id').
Proof.
  cbv zeta.
  assert (Hgen : forall σ, Registered σ -> Registered (run σ inputs)).
  { unfold run. induction inputs as [| input rest IH]; intros σ HR; [done |].
    cbn [foldl]. apply IH. by apply step_Registered. }
  destruct (Hgen init) as [H1 H2]; [| done].
  apply Registered_empty. intros key requests. cbn. by rewrite lookup_empty.
Qed.

End RegistrationFacts.

(** ** The order of the send orders *)
Module PriorityFacts.

Import Sender.

(** The send order of a chunk with a safe sequence number that is not
    negative, as an integer. *)
Lemma sendOrder_value (tracks : Tracks) (packet : Packet) (track : Track.Data)
    (z : Z) :
  seqId packet = JS.of_Z z -> (0 <= z < 2 ^ 53)%Z ->
  tracks_get tracks (mediaType packet) = Some track ->
  JS.to_Z <$> moqCalculateSendOrder tracks packet
  = Some (Some (if Track.isHipri track
                then if (z =? 0)%Z then 2 ^ 52 - 1 else 2 ^ 52 + 2 * (z / 2)
                else z)%Z).
Proof.
  intros Hseq Hz Htrack. destruct (Track.isHipri track) eqn:Hpri.
  - destruct (Z.eqb_spec z 0) as [-> | Hnz].
    + rewrite (SenderFacts.moqCalculateSendOrder_hipri_0 tracks packet track)
        by done.
      cbn [fmap option_fmap option_map]. by rewrite JSFacts.to_Z_of_Z by lia.
    + rewrite (SenderFacts.moqCalculateSendOrder_hipri tracks packet track z)
        by (done || lia).
      cbn [fmap option_fmap option_map].
      pose proof (Z.div_pos z 2 ltac:(lia) ltac:(lia)).
      assert (z / 2 < 2 ^ 52)%Z by (apply Z.div_lt_upper_bound; lia).
      destruct (Z_lt_le_dec (2 ^ 52 + 2 * (z / 2)) (2 ^ 53)) as [Hsmall | Hlarge].
      * by rewrite JSFacts.to_Z_of_Z by lia.
      * replace (2 ^ 52 + 2 * (z / 2))%Z with (2 * (2 ^ 51 + z / 2))%Z by lia.
        by rewrite JSFacts.to_Z_of_Z_even_54 by lia.
  - rewrite (SenderFacts.moqCalculateSendOrder_lopri tracks packet track z)
      by done.
    cbn [fmap option_fmap option_map]. by rewrite JSFacts.to_Z_of_Z by lia.
Qed.

(** X19.  On one track the send order never goes down with the sequence
    number: of two chunks of a track with safe sequence numbers that are
    not negative, the later one gets a send order at least as high as
    the earlier one, on a high-priority track as on any other. *)
Theorem sendOrder_monotone (tracks : Tracks) (earlier later : Packet)
    (track : Track.Data) (a b : Z) :
  mediaType earlier = mediaType later ->
  tracks_get tracks (mediaType earlier) = Some track ->
  seqId earlier = JS.of_Z a -> seqId later = JS.of_Z b ->
  (0 <= a <= b)%Z -> (b < 2 ^ 53)%Z ->
  exists va vb,
    JS.to_Z <$> moqCalculateSendOrder tracks earlier = Some (Some va)
    /\ JS.to_Z <$> moqCalculateSendOrder tracks later = Some (Some vb)
    /\ (va <= vb)%Z.
Proof.
  intros Hsame Htrack Ha Hb Hab Hmax.
  rewrite (sendOrder_value tracks earlier track a) by (done || lia).
  rewrite (sendOrder_value tracks later track b) by (congruence || lia).
  eexists _, _. split; [done |]. split; [done |].
  destruct (Track.isHipri track); [| lia].
  pose proof (Z.div_le_mono a b 2 ltac:(lia) ltac:(lia)).
  pose proof (Z.div_pos b 2 ltac:(lia) ltac:(lia)).
  destruct (Z.eqb_spec a 0), (Z.eqb_spec b 0); lia.
Qed.

Lemma sendOrder_monotone_witness :
  exists va vb,
    JS.to_Z <$> moqCalculateSendOrder sample_tracks
                  (sample_packet "audio" 2 "key" "a") = Some (Some va)
    /\ JS.to_Z <$> moqCalculateSendOrder sample_tracks
                     (sample_packet "audio" 3 "delta" "b") = Some (Some vb)
    /\ (va <= vb)%Z.
Proof.
  apply (sendOrder_monotone sample_tracks (sample_packet "audio" 2 "key" "a")
           (sample_packet "audio" 3 "delta" "b")
           (sample_track 0 "audio" true 100) 2 3);
    try reflexivity; lia.
Defined.

(** X20.  A chunk with a negative sequence number ("send now") gets a
    send order that no chunk with a sequence number from 0 up to 2^52
    exceeds, on whatever track. *)
Theorem send_now_outranks (tracks : Tracks) (now other : Packet)
    (track : Track.Data) (n z : Z) :
  seqId now = JS.of_Z n -> (- 2 ^ 53 < n < 0)%Z ->
  seqId other = JS.of_Z z -> (0 <= z < 2 ^ 52)%Z ->
  tracks_get tracks (mediaType other) = Some track ->
  exists vn vo,
    JS.to_Z <$> moqCalculateSendOrder tracks now = Some (Some vn)
    /\ JS.to_Z <$> moqCalculateSendOrder tracks other = Some (Some vo)
    /\ (vo <= vn)%Z /\ vn = JS.MAX_SAFE.
Proof.
  intros Hnow Hn Hother Hz Htrack.
  rewrite (SenderFacts.moqCalculateSendOrder_negative tracks now n) by done.
  rewrite (sendOrder_value tracks other track z) by (done || lia).
  cbn [fmap option_fmap option_map]. unfold JS.MAX_SAFE_INTEGER.
  rewrite JSFacts.to_Z_of_Z by (unfold JS.MAX_SAFE; lia).
  eexists _, _. split; [done |]. split; [done |]. split; [| done].
  unfold JS.MAX_SAFE.
  pose proof (Z.div_pos z 2 ltac:(lia) ltac:(lia)).
  assert (2 * (z / 2) <= z)%Z.
  { pose proof (Z.div_mod z 2 ltac:(lia)).
    pose proof (Z.mod_pos_bound z 2 ltac:(lia)). lia. }
  destruct (Track.isHipri track), (Z.eqb_spec z 0); lia.
Qed.

Lemma send_now_outranks_witness :
  exists vn vo,
    JS.to_Z <$> moqCalculateSendOrder sample_tracks
                  (sample_packet "video" (-1) "key" "a") = Some (Some vn)
    /\ JS.to_Z <$> moqCalculateSendOrder sample_tracks
                     (sample_packet "audio" 7 "key" "b") = Some (Some vo)
    /\ (vo <= vn)%Z /\ vn = JS.MAX_SAFE.
Proof.
  apply (send_now_outranks sample_tracks (sample_packet "video" (-1) "key" "a")
           (sample_packet "audio" 7 "key" "b")
           (sample_track 0 "audio" true 100) (-1) 7);
    try reflexivity; lia.
Defined.

End PriorityFacts.

(** ** The subscriber: session and incoming objects *)
Module ReceiverFacts.

Import Downloader.
Local Open Scope list_scope.

(** The SUBSCRIBE loop when every answer names its track. *)
Lemma subscribe_loop_ready (entries : Tracks)
    (replies extra : list SubscribeResponse) :
  Forall2 answers entries replies ->
  let out := subscribe_loop entries (replies ++ extra) in
  out.1.1.1 = zip_with with_id entries replies
  /\ out.1.1.2 = subscribe_of <$> entries
  /\ out.2 = SessionReady.
Proof.
  intros H. induction H as [| [k t] r entries replies [Hns Hnm] _ IH];
    cbn [subscribe_loop app].
  - done.
  - cbn [snd] in Hns, Hnm. rewrite Hns, Hnm, !String.eqb_refl. cbn [negb orb].
    cbv zeta in IH.
    destruct (subscribe_loop entries (replies ++ extra)) as [[[rest' ms] evs] res].
    cbn [fst snd] in *. destruct IH as (-> & -> & ->).
    unfold subscribe_of, with_id. cbn. by rewrite Hns, Hnm.
Qed.

(** The SUBSCRIBE loop when the answer to the track at position [k] is
    the first that names another track. *)
Lemma subscribe_loop_mismatch (entries : Tracks) (k : nat)
    (entry : string * Track.Data) (replies later : list SubscribeResponse)
    (reply : SubscribeResponse) :
  entries !! k = Some entry ->
  Forall2 answers (take k entries) replies ->
  ~ answers entry reply ->
  let out := subscribe_loop entries (replies ++ reply :: later) in
  out.1.1.1 = zip_with with_id (take k entries) replies ++ drop k entries
  /\ out.1.1.2 = subscribe_of <$> take (S k) entries
  /\ out.2 = SessionThrows
               (UnexpectedTrack (Track.namespace entry.2) (Track.name entry.2)
                  (namespace reply) (trackName reply)).
Proof.
  revert k replies. induction entries as [| [key t] entries IH];
    intros [| k] replies; cbn [lookup list_lookup take drop]; try done.
  - intros [= <-] Hnil Hbad. inversion Hnil; subst. cbn [app subscribe_loop].
    assert (Hor : negb (String.eqb (Track.namespace t) (namespace reply))
                  || negb (String.eqb (Track.name t) (trackName reply)) = true).
    { destruct (String.eqb_spec (Track.namespace t) (namespace reply));
        destruct (String.eqb_spec (Track.name t) (trackName reply));
        try done. exfalso. by apply Hbad. }
    rewrite Hor. done.
  - intros Hk Hall Hbad.
    inversion Hall as [| ? r ? replies' [Hns Hnm] Hrest]; subst.
    cbn [app subscribe_loop]. cbn [snd] in Hns, Hnm.
    rewrite Hns, Hnm, !String.eqb_refl. cbn [negb orb].
    specialize (IH k replies' Hk Hrest Hbad). cbv zeta in IH.
    destruct (subscribe_loop entries (replies' ++ reply :: later))
      as [[[rest' ms] evs] res].
    cbn [fst snd] in *. destruct IH as (-> & -> & ->).
    unfold subscribe_of, with_id. cbn. by rewrite Hns, Hnm.
Qed.

(** With pairwise different ids, the id of the track at a position leads
    to the key at that position. *)
Lemma getTrackTypeFromTrackId_lookup (tracks : Tracks) (k : nat) (key : string)
    (track : Track.Data) :
  NoDup ((Track.id ∘ snd) <$> tracks) ->
  tracks !! k = Some (key, track) ->
  getTrackTypeFromTrackId tracks (Track.id track) = Some key.
Proof.
  revert k. induction tracks as [| [k0 t0] rest IH]; intros k; [done |].
  rewrite fmap_cons, NoDup_cons. cbn [compose snd]. intros [Hnew Hrest].
  cbn [getTrackTypeFromTrackId]. destruct k as [| k]; cbn [lookup list_lookup].
  - intros [= -> ->]. by rewrite N.eqb_refl.
  - intros Hk. destruct (N.eqb_spec (Track.id t0) (Track.id track)) as [Heq | _].
    + exfalso. apply Hnew. rewrite Heq.
      apply list_elem_of_fmap. exists (key, track). split; [done |].
      by apply (list_elem_of_lookup_2 _ k).
    + by apply (IH k).
Qed.

(** The tracks that have taken the ids of their answers carry these
    ids. *)
Lemma zip_with_id_ids (tracks : Tracks) (replies : list SubscribeResponse) :
  length tracks = length replies ->
  (Track.id ∘ snd) <$> zip_with with_id tracks replies = trackId <$> replies.
Proof.
  revert replies. induction tracks as [| [k t] rest IH]; intros [| r replies];
    cbn; try done.
  intros [= Hlen]. by rewrite IH.
Qed.

(** The tracks that have taken the ids of their answers keep their
    keys. *)
Lemma zip_with_id_keys (tracks : Tracks) (replies : list SubscribeResponse) :
  length tracks = length replies ->
  fst <$> zip_with with_id tracks replies = fst <$> tracks.
Proof.
  revert replies. induction tracks as [| [k t] rest IH]; intros [| r replies];
    cbn; try done.
  intros [= Hlen]. by rewrite IH.
Qed.

(** X21.  The subscriber session, once the relay has accepted the role.
    When every SUBSCRIBE_RESPONSE names the namespace and the name of the
    track it answers, the session is set up with one SUBSCRIBE per track,
    in order, and every track has the id of its answer.  When the answer
    to some track is the first that names another track, the session
    throws after the SUBSCRIBE of that track, and the tracks before it
    have already taken the ids of their answers.  In both cases the ids
    are read off the tracks the session leaves, which keep their keys. *)
Theorem subscriber_session_ids (tracks : Tracks) (role : option Z) :
  role = Some MOQ_PARAMETER_ROLE_PUBLISHER
  \/ role = Some MOQ_PARAMETER_ROLE_BOTH ->
  (forall replies extra,
      Forall2 answers tracks replies ->
      let out := moqCreateSubscriberSession tracks role (replies ++ extra) in
      out.1.1.1 = zip_with with_id tracks replies
      /\ out.1.1.2
         = SETUP MOQ_PARAMETER_ROLE_SUBSCRIBER :: (subscribe_of <$> tracks)
      /\ out.2 = SessionReady
      /\ (Track.id ∘ snd) <$> out.1.1.1 = trackId <$> replies
      /\ fst <$> out.1.1.1 = fst <$> tracks)
  /\ (forall k entry replies reply later,
         tracks !! k = Some entry ->
         Forall2 answers (take k tracks) replies ->
         ~ answers entry reply ->
         let out := moqCreateSubscriberSession tracks role
                      (replies ++ reply :: later) in
         out.1.1.1 = zip_with with_id (take k tracks) replies ++ drop k tracks
         /\ out.1.1.2
            = SETUP MOQ_PARAMETER_ROLE_SUBSCRIBER
                :: (subscribe_of <$> take (S k) tracks)
         /\ out.2 = SessionThrows
                      (UnexpectedTrack (Track.namespace entry.2)
                         (Track.name entry.2) (namespace reply)
                         (trackName reply))
         /\ (Track.id ∘ snd) <$> take k out.1.1.1 = trackId <$> replies
         /\ drop k out.1.1.1 = drop k tracks
         /\ fst <$> out.1.1.1 = fst <$> tracks).
Proof.
  intros Hrole. apply (HandshakeFacts.role_accepted role) in Hrole.
  unfold moqCreateSubscriberSession. rewrite Hrole. split.
  - intros replies extra Hall.
    pose proof (subscribe_loop_ready tracks replies extra Hall) as H.
    cbv zeta in *.
    destruct (subscribe_loop tracks (replies ++ extra)) as [[[t' ms] evs] res].
    cbn [fst snd] in *. destruct H as (-> & -> & ->).
    apply Forall2_length in Hall.
    by rewrite zip_with_id_ids, zip_with_id_keys.
  - intros k entry replies reply later Hk Hall Hbad.
    pose proof (subscribe_loop_mismatch tracks k entry replies later reply
                  Hk Hall Hbad) as H.
    cbv zeta in *.
    destruct (subscribe_loop tracks (replies ++ reply :: later))
      as [[[t' ms] evs] res].
    cbn [fst snd] in *. destruct H as (-> & -> & ->).
    apply Forall2_length in Hall.
    assert (Hlen : length (zip_with with_id (take k tracks) replies) = k).
    { rewrite length_zip_with, <- Hall, length_take.
      apply lookup_lt_Some in Hk. lia. }
    repeat split.
    + rewrite take_app_length' by done. by apply zip_with_id_ids.
    + by rewrite drop_app_length'.
    + rewrite fmap_app, zip_with_id_keys by done.
      by rewrite <- fmap_app, take_drop.
Qed.

Lemma subscriber_session_ids_witness :
  (moqCreateSubscriberSession [("video", sample_track)]
     (Some MOQ_PARAMETER_ROLE_PUBLISHER)
     [{| namespace := "vc"; trackName := "video"; trackId := 7 |}]).1.1.1
  = [("video", Track.set_id 7 sample_track)].
Proof.
  destruct (subscriber_session_ids [("video", sample_track)]
              (Some MOQ_PARAMETER_ROLE_PUBLISHER) (or_introl eq_refl))
    as [Hready _].
  assert (Hall : Forall2 answers [("video", sample_track)]
                   [{| namespace := "vc"; trackName := "video"; trackId := 7 |}]).
  { repeat constructor. }
  destruct (Hready _ [] Hall) as (Hids & _). exact Hids.
Defined.


(** X22.  After a session in which the relay has given the tracks
    pairwise different ids, the id that the relay gave for a track leads
    back to the key of that track: an object stream that starts with that
    id is read for that track. *)
Theorem demultiplex_after_session (tracks : Tracks) (role : option Z)
    (replies : list SubscribeResponse) (k : nat) (key : string)
    (track : Track.Data) (reply : SubscribeResponse) :
  role = Some MOQ_PARAMETER_ROLE_PUBLISHER
  \/ role = Some MOQ_PARAMETER_ROLE_BOTH ->
  Forall2 answers tracks replies ->
  NoDup (trackId <$> replies) ->
  tracks !! k = Some (key, track) -> replies !! k = Some reply ->
  getTrackTypeFromTrackId
    (moqCreateSubscriberSession tracks role replies).1.1.1 (trackId reply)
  = Some key.
Proof.
  intros Hrole Hall Hnodup Hk Hr.
  apply (HandshakeFacts.role_accepted role) in Hrole.
  unfold moqCreateSubscriberSession. rewrite Hrole.
  pose proof (subscribe_loop_ready tracks replies [] Hall) as H.
  cbv zeta in H. rewrite app_nil_r in H.
  destruct (subscribe_loop tracks replies) as [[[t' ms] evs] res].
  cbn [fst snd] in *. destruct H as (-> & _ & _).
  apply (getTrackTypeFromTrackId_lookup _ k key (Track.set_id (trackId reply) track)).
  - rewrite zip_with_id_ids; [done |]. by eapply Forall2_length.
  - rewrite lookup_zip_with, Hk. cbn. by rewrite Hr.
Qed.

Lemma demultiplex_after_session_witness :
  getTrackTypeFromTrackId (tracks running) 7 = Some "video".
Proof.
  assert (Hall : Forall2 answers [("video", sample_track)]
                   [{| namespace := "vc"; trackName := "video"; trackId := 7 |}]).
  { repeat constructor. }
  assert (Hnodup : NoDup (trackId <$> [{| namespace := "vc"; trackName := "video";
                                          trackId := 7 |}])).
  { apply (bool_decide_eq_true_1 (NoDup _)). vm_compute. reflexivity. }
  assert (Htracks : tracks running
                    = (moqCreateSubscriberSession [("video", sample_track)]
                         (Some MOQ_PARAMETER_ROLE_PUBLISHER)
                         [{| namespace := "vc"; trackName := "video";
                             trackId := 7 |}]).1.1.1)
    by (vm_compute; reflexivity).
  rewrite Htracks.
  apply (demultiplex_after_session [("video", sample_track)]
           (Some MOQ_PARAMETER_ROLE_PUBLISHER) _ 0 "video" sample_track
           {| namespace := "vc"; trackName := "video"; trackId := 7 |}
           (or_introl eq_refl) Hall Hnodup eq_refl eq_refl).
Defined.

(** A message is none of those in a list of other messages. *)
Ltac not_posted :=
  let H := fresh in
  intros H;
  repeat (apply elem_of_cons in H as [H | H]; [discriminate |]);
  by apply elem_of_nil in H.

(** What [moqReceiveProcessObjects] posts: one chunk message when it
    returns and none when it throws; never a 'dropped stream' report and
    never statistics. *)
Lemma moqReceiveProcessObjects_posts (tracks : Tracks) (s : ObjectStream) :
  let out := moqReceiveProcessObjects tracks s in
  filter is_dropped_stream out.1 = []
  /\ (DownloaderStats ∉ out.1)
  /\ match out.2 with
     | None => exists m, filter is_chunk out.1 = [m]
     | Some _ => filter is_chunk out.1 = []
     end.
Proof.
  cbv zeta. unfold moqReceiveProcessObjects.
  destruct (os_header s) as [h |]; [| cbn [fst snd]; repeat split; first [done | not_posted]].
  destruct (getTrackTypeFromTrackId tracks (h_trackId h)) as [key |];
    [| cbn [fst snd]; repeat split; first [done | not_posted]].
  destruct (negb (String.eqb key "data")).
  - destruct (os_loc s) as [c |]; [| cbn [fst snd]; repeat split; first [done | not_posted]].
    destruct (loc_chunkType c) as [ct |]; [| cbn [fst snd]; repeat split; first [done | not_posted]].
    destruct (loc_mediaType c) as [mt |]; [| cbn [fst snd]; repeat split; first [done | not_posted]].
    destruct (encoded_chunk mt ct c _) as [chunk |];
      [| cbn [fst snd]; repeat split; first [done | not_posted]].
    cbn [fst snd]. split; [by destruct (JS.ltb _ _) |]. split.
    + not_posted.
    + eexists. by destruct (JS.ltb _ _).
  - destruct (os_raw s) as [data |]; [| cbn [fst snd]; repeat split; first [done | not_posted]].
    split; [done |]. split; [not_posted | by eexists].
Qed.

(** X23.  One incoming stream yields one chunk message or one 'dropped
    stream' report, never both and never neither; the report comes with
    sequence number -1 and is followed by an error.  A stream whose
    header cannot be read, or whose track id no track has, is dropped.
    In either case the tracks and the state of the session stay as they
    are, and the loop goes on unless the worker is stopped. *)
Theorem receive_chunk_or_drop (s : ObjectStream) (σ : Engine) :
  receiving σ = true ->
  let out := (moqReceiveObjects_turn (Some s) σ).2 in
  let σ' := (moqReceiveObjects_turn (Some s) σ).1 in
  let dropped := DroppedStream (-1) "Dropped stream because WT error" in
  (((exists m, filter is_chunk out = [m])
    /\ filter is_dropped_stream out = [])
   \/ (filter is_chunk out = []
       /\ filter is_dropped_stream out = [dropped]
       /\ exists before,
            out = before ++ [dropped; ToMain "error" "WT request. Err: "]))
  /\ ((os_header s = None
       \/ exists h, os_header s = Some h
                    /\ forall key track, (key, track) ∈ tracks σ ->
                         Track.id track <> h_trackId h) ->
      filter is_dropped_stream out = [dropped])
  /\ (DownloaderStats ∈ out <-> isSendingStats σ = true)
  /\ tracks σ' = tracks σ /\ workerState σ' = workerState σ
  /\ receiving σ' = negb (StateEnum_eqb (workerState σ) Stopped).
Proof.
  intros Hrec. cbv zeta. unfold moqReceiveObjects_turn. rewrite Hrec.
  cbn [negb fst snd].
  assert (Hstats : filter is_chunk (reportStats σ) = []
                   /\ filter is_dropped_stream (reportStats σ) = []
                   /\ (DownloaderStats ∈ reportStats σ
                       <-> isSendingStats σ = true)).
  { unfold reportStats. destruct (isSendingStats σ); repeat split; try done.
    - intros _. apply list_elem_of_here.
    - by intros ?%elem_of_nil. }
  destruct Hstats as (Hs1 & Hs2 & Hs3).
  pose proof (moqReceiveProcessObjects_posts (tracks σ) s) as Hposts.
  cbv zeta in Hposts.
  assert (Hthrows : os_header s = None
                    \/ (exists h, os_header s = Some h
                          /\ forall key track, (key, track) ∈ tracks σ ->
                               Track.id track <> h_trackId h) ->
                    is_Some (moqReceiveProcessObjects (tracks σ) s).2).
  { unfold moqReceiveProcessObjects. intros [-> | (h & -> & Hno)]; [done |].
    by rewrite (TrackFacts.getTrackTypeFromTrackId_None _ _ Hno). }
  destruct (moqReceiveProcessObjects (tracks σ) s) as [posted [err |]];
    cbn [fst snd] in *; destruct Hposts as (Hd & Hn & Hc).
  - rewrite !filter_app, Hs1, Hs2, Hc, Hd. cbn.
    split; [| split; [done | split; [| done]]].
    + right. repeat split; try done.
      exists (reportStats σ ++ posted). by rewrite <- app_assoc.
    + rewrite !elem_of_app, Hs3. split; [| by left].
      intros [H | [H | H]]; [done | done |]. revert H. not_posted.
  - rewrite !filter_app, Hs1, Hs2, Hd. cbn.
    split; [by left |]. split; [| split; [| done]].
    + intros H. by destruct (Hthrows H).
    + rewrite !elem_of_app, Hs3. split; [| by left].
      intros [H | H]; done.
Qed.

Lemma receive_chunk_or_drop_witness :
  filter is_dropped_stream (moqReceiveObjects_turn (Some (sample_stream 3)) running).2
  = [DroppedStream (-1) "Dropped stream because WT error"].
Proof.
  assert (Hrec : receiving running = true) by (vm_compute; reflexivity).
  destruct (receive_chunk_or_drop (sample_stream 3) running Hrec)
    as (_ & Hunknown & _).
  apply Hunknown. right. eexists. split; [reflexivity |].
  assert (Htracks : tracks running = [("video", Track.set_id 7 sample_track)])
    by (vm_compute; reflexivity).
  rewrite Htracks. intros key track Hin%list_elem_of_singleton.
  injection Hin as -> ->. discriminate.
Defined.

(** [emit_all] only extends the events. *)
Lemma downloader_emit_all_eq (evs : list Event) (σ : Engine) :
  emit_all evs σ
  = {| workerState := workerState σ; urlHostPortEp := urlHostPortEp σ;
       isSendingStats := isSendingStats σ; tracks := tracks σ; wt := wt σ;
       receiving := receiving σ; toMain := toMain σ ++ evs;
       control := control σ |}.
Proof.
  unfold emit_all. revert σ. induction evs as [| ev evs IH]; intros σ; cbn [foldl].
  - rewrite app_nil_r. by destruct σ.
  - rewrite IH. cbn. by rewrite <- app_assoc.
Qed.

(** The first lines of the listener, for a worker that does not run. *)
Lemma listener_not_running (σ : Engine) :
  workerState σ <> Running ->
  (if StateEnum_eqb (workerState σ) Created
      || StateEnum_eqb (workerState σ) Stopped
   then set_workerState Instantiated σ else σ)
  = set_workerState Instantiated σ.
Proof.
  intros Hstate. destruct σ as [[] ? ? ? ? ? ? ?]; cbn in *; done.
Qed.

(** X24.  A 'downloadersendini' that the worker refuses.  In the Running
    state it is answered by an error.  Otherwise a configuration without
    [urlHostPort] or [urlPath] is answered by an error before anything of
    it is taken over; one that leaves the worker without tracks is
    answered by an error after the host, the statistics flag and the
    tracks have been taken over.  No transport is opened and nothing is
    written on the control stream. *)
Theorem downloader_ini_refused (e : MessageData) (env : IniEnv) (σ : Engine) :
  type e = "downloadersendini" ->
  let cfg := downloaderConfig e in
  let σ' := listener e env σ in
  (workerState σ = Running ->
     σ' = emit (Error "received ini message in wrong state. State: ") σ
     /\ workerState σ' = Running
     /\ toMain σ'
        = toMain σ ++ [Error "received ini message in wrong state. State: "]
     /\ urlHostPortEp σ' = urlHostPortEp σ
     /\ isSendingStats σ' = isSendingStats σ /\ tracks σ' = tracks σ
     /\ wt σ' = wt σ /\ receiving σ' = receiving σ
     /\ control σ' = control σ)
  /\ (workerState σ <> Running ->
      urlHostPort cfg = None \/ urlPath cfg = None ->
      σ' = emit (Error "We need host, streamId to start playback")
             (set_workerState Instantiated σ)
      /\ workerState σ' = Instantiated
      /\ toMain σ'
         = toMain σ ++ [Error "We need host, streamId to start playback"]
      /\ urlHostPortEp σ' = urlHostPortEp σ
      /\ isSendingStats σ' = isSendingStats σ /\ tracks σ' = tracks σ
      /\ wt σ' = wt σ /\ receiving σ' = receiving σ
      /\ control σ' = control σ)
  /\ (workerState σ <> Running ->
      forall url path,
        urlHostPort cfg = Some url -> urlPath cfg = Some path ->
        default (tracks σ) (moqTracks cfg) = [] ->
        σ' = emit (Error "Number of Track Ids to announce needs to be > 0")
               (set_config url
                  (default (isSendingStats σ) (cfg_isSendingStats cfg)) []
                  (set_workerState Instantiated σ))
        /\ workerState σ' = Instantiated
        /\ toMain σ'
           = toMain σ
               ++ [Error "Number of Track Ids to announce needs to be > 0"]
        /\ urlHostPortEp σ' = url
        /\ isSendingStats σ'
           = default (isSendingStats σ) (cfg_isSendingStats cfg)
        /\ tracks σ' = []
        /\ wt σ' = wt σ /\ receiving σ' = receiving σ
        /\ control σ' = control σ).
Proof.
  intros Htype cfg σ'. subst σ' cfg. unfold listener. rewrite Htype.
  change (String.eqb "downloadersendini" "stop") with false.
  change (String.eqb "downloadersendini" "downloadersendini") with true.
  cbv iota. split; [| split].
  - intros E. rewrite E. cbn. unfold listener_ini. rewrite E. cbn. done.
  - intros Hstate Hmissing. rewrite (listener_not_running σ Hstate).
    cbn [workerState set_workerState StateEnum_eqb]. unfold listener_ini.
    cbn [workerState set_workerState StateEnum_eqb negb].
    destruct Hmissing as [-> | ->]; [done |].
    by destruct (urlHostPort (downloaderConfig e)).
  - intros Hstate url path Hurl Hpath Hempty.
    rewrite (listener_not_running σ Hstate).
    cbn [workerState set_workerState StateEnum_eqb]. unfold listener_ini.
    cbn [workerState set_workerState StateEnum_eqb negb].
    rewrite Hurl, Hpath. cbn [tracks set_workerState set_config isSendingStats].
    rewrite Hempty. cbn. done.
Qed.

Lemma downloader_ini_refused_witness :
  listener ini_without_path relay init
  = emit (Error "We need host, streamId to start playback")
      (set_workerState Instantiated init).
Proof.
  destruct (downloader_ini_refused ini_without_path relay init eq_refl)
    as (_ & Hmissing & _).
  refine (proj1 (Hmissing _ _)); [discriminate | right; reflexivity].
Defined.

(** X25.  A 'downloadersendini' that succeeds.  When the worker does not
    run, the configuration names host, path and at least one track, the
    transport comes up, the relay answers the SETUP with the role of a
    publisher (or both) and every SUBSCRIBE with the namespace and name
    of its track, then the worker is Running and receives, its tracks
    carry the ids the relay has answered, and the control stream has got
    the SETUP and one SUBSCRIBE per track. *)
Theorem downloader_ini_success (e : MessageData) (env : IniEnv) (σ : Engine)
    (url path : string) (t : Tracks) (replies extra : list SubscribeResponse) :
  type e = "downloadersendini" -> workerState σ <> Running ->
  urlHostPort (downloaderConfig e) = Some url ->
  urlPath (downloaderConfig e) = Some path ->
  moqTracks (downloaderConfig e) = Some t -> t <> [] ->
  fingerprint_ok env = true -> transport_ready env = true ->
  setup_role env = Some MOQ_PARAMETER_ROLE_PUBLISHER
  \/ setup_role env = Some MOQ_PARAMETER_ROLE_BOTH ->
  subscribe_replies env = replies ++ extra -> Forall2 answers t replies ->
  let σ' := listener e env σ in
  workerState σ' = Running /\ receiving σ' = true /\ wt σ' = true
  /\ urlHostPortEp σ' = url
  /\ tracks σ' = zip_with with_id t replies
  /\ control σ'
     = control σ ++ SETUP MOQ_PARAMETER_ROLE_SUBSCRIBER :: (subscribe_of <$> t)
  /\ (Track.id ∘ snd) <$> tracks σ' = trackId <$> replies
  /\ fst <$> tracks σ' = fst <$> t.
Proof.
  intros Htype Hstate Hurl Hpath Htracks Ht Hfp Hready Hrole Hreplies Hall σ'.
  subst σ'. unfold listener. rewrite Htype.
  change (String.eqb "downloadersendini" "stop") with false.
  change (String.eqb "downloadersendini" "downloadersendini") with true.
  cbv iota. rewrite (listener_not_running σ Hstate).
  cbn [workerState set_workerState StateEnum_eqb]. unfold listener_ini.
  cbn [workerState set_workerState StateEnum_eqb negb].
  rewrite Hurl, Hpath, Htracks. cbn [default from_option]. unfold id.
  cbn [tracks set_workerState set_config isSendingStats set_wt].
  assert (Hcheck : negb (String.eqb (checkTrackData t) "") = false).
  { unfold checkTrackData. by destruct t. }
  rewrite Hcheck, Hfp, Hready. cbn [negb].
  unfold moqCreateSubscriberSession.
  apply (HandshakeFacts.role_accepted (setup_role env)) in Hrole.
  rewrite Hrole, Hreplies.
  pose proof (subscribe_loop_ready t replies extra Hall) as H. cbv zeta in H.
  destruct (subscribe_loop t (replies ++ extra)) as [[[t' ms] evs] res].
  cbn [fst snd] in H. destruct H as (-> & -> & ->).
  rewrite downloader_emit_all_eq. cbn. apply Forall2_length in Hall.
  rewrite zip_with_id_ids, zip_with_id_keys by done. repeat split.
Qed.

Lemma downloader_ini_success_witness :
  workerState (listener ini_message relay init) = Running
  /\ tracks (listener ini_message relay init)
     = [("video", Track.set_id 7 sample_track)].
Proof.
  assert (Hne : [("video", sample_track)] <> []) by discriminate.
  assert (Hnot : workerState init <> Running) by discriminate.
  assert (Hall : Forall2 answers [("video", sample_track)]
                   [{| namespace := "vc"; trackName := "video"; trackId := 7 |}]).
  { repeat constructor. }
  destruct (downloader_ini_success ini_message relay init
              "https://localhost:4433/moq" "moq" [("video", sample_track)]
              [{| namespace := "vc"; trackName := "video"; trackId := 7 |}] []
              eq_refl Hnot eq_refl eq_refl eq_refl Hne eq_refl eq_refl
              (or_introl eq_refl) eq_refl Hall)
    as (Hw & _ & _ & _ & Htr & _).
  split; [exact Hw | exact Htr].
Defined.

End ReceiverFacts.

(** ** The in-flight bound in runs without overlap *)
Module BoundFacts.

Import Sender.
Local Open Scope list_scope.

Lemma bounded_nothing_in_flight (σ : Engine) : nothing_in_flight σ -> bounded σ.
Proof.
  intros Hempty key track requests _ ->%Hempty.
  unfold inflight_length. rewrite map_size_empty. lia.
Qed.

Lemma settled_idle (σ σ' : Engine) :
  awaiting σ' = [] -> nothing_in_flight σ' -> settled σ'.
Proof.
  intros Ha Hempty. repeat split; [done | | done].
  by apply bounded_nothing_in_flight.
Qed.

Lemma listener_ini_nothing_in_flight (cfg : MuxerSenderConfig) (env : IniEnv)
    (σ : Engine) :
  nothing_in_flight σ -> nothing_in_flight (listener_ini cfg env σ).
Proof.
  intros Hempty key requests.
  destruct (RegistrationFacts.listener_ini_inFlightRequests cfg env σ)
    as [-> | (t & ->)].
  - apply Hempty.
  - apply DispatcherFacts.initInflightReqData_empty.
Qed.

Lemma idle_message (e : MessageData) (env : IniEnv) (σ : Engine) :
  workerState σ = Created \/ workerState σ = Instantiated ->
  awaiting σ = [] -> nothing_in_flight σ ->
  awaiting (listener e env σ) = [] /\ nothing_in_flight (listener e env σ).
Proof.
  intros Hstate Ha Hempty. unfold listener.
  set (σ0 := if StateEnum_eqb (workerState σ) Created
             then set_workerState Instantiated σ else σ).
  assert (H0 : workerState σ0 = Instantiated /\ awaiting σ0 = []
               /\ nothing_in_flight σ0).
  { subst σ0. destruct Hstate as [E | E]; rewrite E; cbn; by rewrite ?E. }
  destruct H0 as (Hw & Ha0 & He0). rewrite Hw. cbn [StateEnum_eqb].
  destruct (String.eqb (type e) "stop").
  { destruct (DispatcherFacts.listener_stop_fields σ0) as (Sw & St & Sm & Si & Sa & So & Ss & Sc & Sl & Sst).
    split; [congruence |]. unfold nothing_in_flight. by rewrite Si. }
  destruct (String.eqb (type e) "muxersendini").
  - split; [by rewrite ListenerFacts.listener_ini_awaiting
           | by apply listener_ini_nothing_in_flight].
  - unfold listener_chunk. rewrite Hw. done.
Qed.

Lemma message_settled (e : MessageData) (env : IniEnv) (σ : Engine) :
  settled σ -> settled (run σ [Message e env; StreamOpened 0]).
Proof.
  intros (Ha & Hb & Hidle). unfold run. cbn [foldl].
  destruct (workerState σ) eqn:Estate.
  - destruct (idle_message e env σ) as [Ha1 He1]; auto.
    cbn [step] in *. rewrite Ha1. cbn [lookup list_lookup].
    by apply (settled_idle σ).
  - destruct (idle_message e env σ) as [Ha1 He1]; auto.
    cbn [step] in *. rewrite Ha1. cbn [lookup list_lookup].
    by apply (settled_idle σ).
  - destruct (DispatcherFacts.inflight_bound_without_overlap e env σ Estate Ha Hb)
      as [Hb' Ha'].
    repeat split; [done | done |].
    destruct (ListenerFacts.step_rank σ (Message e env)) as [H1 _].
    destruct (ListenerFacts.step_rank (step σ (Message e env)) (StreamOpened 0))
      as [H2 _].
    rewrite Estate in H1. cbn in H1.
    intros [E | E]; rewrite E in H2; cbn in H2; lia.
  - cbn [step].
    rewrite (StateMachineFacts.sender_stopped_ignores e env σ Estate).
    cbn [awaiting emit]. rewrite Ha. cbn [lookup list_lookup].
    repeat split; [done | by apply (DispatcherFacts.bounded_ext σ) |].
    cbn. rewrite Estate. by intros [|].
Qed.

Lemma other_settled (σ : Engine) (input : Input) :
  match input with
  | CloseSettled _ _ | SubscribeParsed _ | ExitSettled _ => True
  | _ => False
  end ->
  settled σ -> settled (step σ input).
Proof.
  intros Hkind (Ha & Hb & Hidle).
  pose proof (DispatcherFacts.inflight_bound_other_inputs σ input Hkind Hb) as Hb'.
  destruct (ListenerFacts.step_rank σ input) as [_ Hsame].
  destruct input as [e env | i | i | packet ok | subscribe | rejected]; try done.
  - destruct (DispatcherFacts.removeFromInflight_fields (mediaType packet)
                (pId packet) σ) as (_ & _ & Ea & _).
    repeat split; [by destruct ok; cbn; rewrite Ea | done |].
    rewrite Hsame by done. intros Hempty%Hidle.
    assert (Hrem : removeFromInflight (mediaType packet) (pId packet) σ = σ).
    { unfold removeFromInflight.
      destruct (inFlightRequests σ !! mediaType packet) as [r |] eqn:Er; [| done].
      apply Hempty in Er as ->. by rewrite lookup_empty. }
    cbn [step]. rewrite Hrem. by destruct ok.
  - destruct (DispatcherFacts.subscriptionLoop_body_fields subscribe σ)
      as (_ & _ & Ea & _).
    assert (Hi : inFlightRequests (step σ (SubscribeParsed subscribe))
                 = inFlightRequests σ).
    { cbn [step]. destruct (subscriptionLoop σ); [| done].
      assert (Hbody : inFlightRequests (subscriptionLoop_body subscribe σ)
                      = inFlightRequests σ).
      { unfold subscriptionLoop_body.
        destruct (getTrack _ _ _) as [[j track] |]; [| done].
        by destruct (authInfo_differs track subscribe). }
      by destruct (StateEnum_eqb _ Running). }
    repeat split; [| done |].
    + cbn [step]. destruct (subscriptionLoop σ); [| done].
      destruct (StateEnum_eqb _ Running); cbn; by rewrite Ea.
    + rewrite Hsame by done. intros Hempty%Hidle key requests. rewrite Hi.
      apply Hempty.
  - destruct (DispatcherFacts.exit_settled_fields σ rejected)
      as (Sw & St & Sm & Si & Sa & So & Ss & Sc & Sl & Sst).
    repeat split; [congruence | done |].
    rewrite Sw. intros Hempty%Hidle key requests. rewrite Si. apply Hempty.
Qed.

(** X26.  The in-flight bound holds when dispatches do not overlap: in a
    run from the start of the worker in which the stream that a message
    asks for opens before the next message, close or subscription
    arrives, no track ever has more requests in flight than its
    [maxInFlightRequests], and no dispatch is left waiting. *)
Theorem inflight_bound_without_overlapping (inputs : list Input) :
  let σ := run init (without_overlap inputs) in
  bounded σ /\ awaiting σ = [].
Proof.
  cbv zeta.
  assert (Hgen : forall σ, settled σ -> settled (run σ (without_overlap inputs))).
  { unfold without_overlap.
    induction inputs as [| input rest IH]; intros σ Hs; [done |].
    rewrite fmap_cons. cbn [concat]. unfold run. rewrite foldl_app.
    apply IH. destruct input as [e env | i | i | packet ok | subscribe | rejected]; cbn [opened_at_once].
    - by apply message_settled.
    - done.
    - done.
    - by apply (other_settled σ (CloseSettled packet ok)).
    - by apply (other_settled σ (SubscribeParsed subscribe)).
    - by apply (other_settled σ (ExitSettled rejected)). }
  destruct (Hgen init) as (Ha & Hb & _); [| done].
  apply (settled_idle init); [done |].
  intros key requests. cbn. by rewrite lookup_empty.
Qed.

End BoundFacts.
